(** * CIFAR data utilities: a shallow embedding of [baselines/cifar/data_utils.py]

    The development follows the source function by function:
    [normalize_convert_image], [load_dataset] with its inner [preprocess],
    [augment_and_mix] and [_augmix].

    Modelling conventions.
    - The Python floats [proportion] and [validation_proportion] are IEEE 754
      binary64 numbers ([spec_float] with 53 bits of precision); products,
      differences and comparisons round and compare as the hardware does, and
      [int] truncates the rounded value.
    - The numbers of the augmentation config are only compared with zero and
      handed on; they are the rationals they denote.  Tensor entries are
      rationals as well: the rounding of tensor arithmetic is outside the
      model.
    - A tensor is a dtype, a shape and an entry function on multi-indices
      (outermost axis first, channel last).  An element-wise operator checks
      that its operands have one dtype and broadcastable shapes and fails
      otherwise, as the tensor runtime does.
    - The collaborators that the source only calls (dataset catalog, samplers,
      the RandAugment augmenter, pad, crop and flip) supply the entries of
      their results through a [runtime] record; the shape and dtype of a
      result are fixed here.  Randomness is read from a tape: each random
      call consumes one cell and is a function of the cell number.
    - Source code that raises, logs, touches the catalog or a dict runs in
      the monad [M], which threads a [world] (tape position, event trace and
      a heap of dict objects passed by reference) and returns either an
      [error] or a value.
    - [aug_params] is a dict with the recognised, typed keys of the
      augmentation config; an absent key is [None].
    - [dataset.map] traces the mapped function once, on an element of the
      catalog's type, when the pipeline is built: an error of that run is
      raised by [load_dataset] itself.  The function runs again for each
      example that is pushed through the pipeline. *)

From Stdlib Require Import ZArith QArith Qminmax Qround List String Lia Lqa Bool.
From Stdlib Require Import DecimalString SpecFloat.
Import ListNotations.

Local Open Scope string_scope.
Local Open Scope Z_scope.
Local Open Scope Q_scope.

(** ** Errors *)

Inductive error :=
| ValueError (msg : string)
| OverflowError (msg : string)
| KeyError (key : string)
(** The tensor runtime rejects operands of different dtypes, *)
| DtypeMismatch
(** and shapes that do not fit the operation. *)
| ShapeMismatch.

Definition result (A : Type) : Type := (error + A)%type.

(** ** Python scalars *)

Module Py.

(** A Python float. *)
Definition float : Set := spec_float.

Definition prec : Z := 53.
Definition emax : Z := 1024.

(** The floats that are binary64 values: a finite one has a mantissa of at
    most 53 bits and a canonical exponent. *)
Definition is_float (x : float) : Prop := valid_binary prec emax x = true.

(** The float of an integer (exact below [2^53]). *)
Definition of_Z (n : Z) : float := binary_normalize prec emax n 0 false.

(** The float literal that is written as the decimal fraction [n / d]. *)
Definition decimal (n d : Z) : float := SFdiv prec emax (of_Z n) (of_Z d).

(** [0.], [1.] and the float of the integer [100]. *)
Definition zero : float := Eval cbv in of_Z 0.
Definition one : float := Eval cbv in of_Z 1.
Definition hundred : float := Eval cbv in of_Z 100.

(** [a < b], [a <= b] and [a == b] on floats. *)
Definition float_ltb (a b : float) : bool := SFltb a b.
Definition float_leb (a b : float) : bool := SFleb a b.
Definition float_eqb (a b : float) : bool := SFeqb a b.

(** [a * b] and [a - b] on floats. *)
Definition float_mul (a b : float) : float := SFmul prec emax a b.
Definition float_sub (a b : float) : float := SFsub prec emax a b.

(** [int(x)]: truncation toward zero of a finite float. *)
Definition int (x : float) : result Z :=
  match x with
  | S754_zero _ => inr 0%Z
  | S754_finite s m e =>
      let a := Z.shiftl (Zpos m) e in
      inr (if s then (- a)%Z else a)
  | S754_infinity _ =>
      inl (OverflowError "cannot convert float infinity to integer")
  | S754_nan => inl (ValueError "cannot convert float NaN to integer")
  end.

(** [a < b] on the numbers of the config. *)
Definition ltb (a b : Q) : bool := negb (Qle_bool b a).

(** ['{}'.format(n)] for an integer [n]. *)
Definition str (n : Z) : string := NilZero.string_of_int (Z.to_int n).

(** [range(n)] as the list of its indices; empty when [n <= 0]. *)
Definition range (n : Z) : list nat := seq 0 (Z.to_nat n).

(** [[x] * n]; empty when [n <= 0]. *)
Definition replicate {A : Type} (x : A) (n : Z) : list A :=
  repeat x (Z.to_nat n).

End Py.

(** ** Tensors *)

Inductive dtype := uint8 | int32 | int64 | float32 | bfloat16.

Definition dtype_eqb (a b : dtype) : bool :=
  match a, b with
  | uint8, uint8 | int32, int32 | int64, int64
  | float32, float32 | bfloat16, bfloat16 => true
  | _, _ => false
  end.

Definition is_floating (d : dtype) : bool :=
  match d with float32 | bfloat16 => true | _ => false end.

Definition is_integer (d : dtype) : bool := negb (is_floating d).

(** Largest value of an integer dtype, the scale of [convert_image_dtype]. *)
Definition dtype_max (d : dtype) : Z :=
  match d with
  | uint8 => 255
  | int32 => 2147483647
  | int64 => 9223372036854775807
  | _ => 1
  end.

Definition index := list nat.

Record tensor := mkTensor {
  tdtype : dtype;
  tshape : list nat;
  tat : index -> Q
}.

(** The axis that the per-channel constants broadcast over. *)
Definition channel (idx : index) : nat := last idx 0%nat.

(** An index that addresses an entry of a tensor of the given shape. *)
Fixpoint in_bounds_b (idx : index) (shape : list nat) : bool :=
  match idx, shape with
  | [], [] => true
  | i :: idx', n :: shape' => (i <? n)%nat && in_bounds_b idx' shape'
  | _, _ => false
  end.

Definition in_bounds (idx : index) (shape : list nat) : Prop :=
  in_bounds_b idx shape = true.

Definition tmap (f : Q -> Q) (t : tensor) : tensor :=
  mkTensor (tdtype t) (tshape t) (fun idx => f (tat t idx)).

(** Truncation toward zero, the rounding of a cast to an integer dtype. *)
Definition truncate (x : Q) : Q := inject_Z (Z.quot (Qnum x) (Zpos (Qden x))).

(** [tf.cast]. *)
Definition tcast (t : tensor) (d : dtype) : tensor :=
  mkTensor d (tshape t)
           (if is_floating (tdtype t) && is_integer d
            then fun idx => truncate (tat t idx)
            else tat t).

(** [tf.zeros_like]. *)
Definition zeros_like (t : tensor) : tensor :=
  mkTensor (tdtype t) (tshape t) (fun _ => 0).

(** [tf.ones(shape)]. *)
Definition ones (shape : list nat) : tensor :=
  mkTensor float32 shape (fun _ => 1).

(** [tf.identity]. *)
Definition identity (t : tensor) : tensor := t.

(** [tf.constant] of a list of Python floats: a [float32] vector. *)
Definition constant (values : list Q) : tensor :=
  mkTensor float32 [List.length values]
           (fun idx => nth (hd 0%nat idx) values 0).

(** A [float32] scalar. *)
Definition scalar (x : Q) : tensor := mkTensor float32 [] (fun _ => x).

(** *** Broadcasting *)

(** The common shape of two shapes that are given innermost axis first. *)
Fixpoint broadcast_rev (a b : list nat) : option (list nat) :=
  match a, b with
  | [], s | s, [] => Some s
  | x :: a', y :: b' =>
      match broadcast_rev a' b' with
      | None => None
      | Some s =>
          if (x =? y)%nat then Some (x :: s)
          else if (x =? 1)%nat then Some (y :: s)
          else if (y =? 1)%nat then Some (x :: s)
          else None
      end
  end.

(** The shape of [a op b]: the shapes are aligned at the innermost axis; two
    sizes fit when they are equal or one of them is 1. *)
Definition broadcast_shapes (a b : list nat) : option (list nat) :=
  option_map (@rev nat) (broadcast_rev (rev a) (rev b)).

(** The entry of an operand of shape [shape] that an index of the broadcast
    result reads: the leading axes that the operand lacks are dropped, and
    an axis of size 1 is read at 0. *)
Definition broadcast_index (shape : list nat) (idx : index) : index :=
  map (fun ni => if (fst ni =? 1)%nat then 0%nat else snd ni)
      (combine shape (skipn (List.length idx - List.length shape) idx)).

(** [a op b] for an element-wise binary operator. *)
Definition binary_op (f : Q -> Q -> Q) (a b : tensor) : result tensor :=
  if dtype_eqb (tdtype a) (tdtype b)
  then
    match broadcast_shapes (tshape a) (tshape b) with
    | Some shape =>
        inr (mkTensor (tdtype a) shape
                      (fun idx => f (tat a (broadcast_index (tshape a) idx))
                                    (tat b (broadcast_index (tshape b) idx))))
    | None => inl ShapeMismatch
    end
  else inl DtypeMismatch.

Definition tadd : tensor -> tensor -> result tensor := binary_op Qplus.
Definition tsub : tensor -> tensor -> result tensor := binary_op Qminus.
Definition tmul : tensor -> tensor -> result tensor := binary_op Qmult.
Definition tdiv : tensor -> tensor -> result tensor := binary_op Qdiv.

(** [tf.stack(ts, 0)]: a new leading axis of size [length ts].  The tensors
    that the source stacks are results of one computation on one image, so
    they share their shape and dtype; the empty list gives the empty
    [float32] vector. *)
Definition stack (ts : list tensor) : tensor :=
  mkTensor (match ts with t :: _ => tdtype t | [] => float32 end)
           (List.length ts :: match ts with t :: _ => tshape t | [] => [] end)
           (fun idx => match idx with
                       | i :: rest =>
                           match nth_error ts i with
                           | Some t => tat t rest
                           | None => 0
                           end
                       | [] => 0
                       end).

(** *** [normalize_convert_image] *)

(** [tf.image.convert_image_dtype] (without saturation): the identity on an
    image that has the dtype already; integer images are scaled by
    [1 / max] when converted to a floating dtype, float images by
    [max + 0.5] when converted to an integer dtype, and integer images are
    rescaled by the ratio of the two ranges. *)
Definition convert_image_dtype (image : tensor) (d : dtype) : tensor :=
  let src := tdtype image in
  if dtype_eqb d src then identity image
  else if is_integer src && is_integer d
  then
    let scale_in := dtype_max src in
    let scale_out := dtype_max d in
    if (scale_out <? scale_in)%Z
    then
      let scale := ((scale_in + 1) / (scale_out + 1))%Z in
      tcast (tmap (fun x => inject_Z (Qfloor (x / inject_Z scale))) image) d
    else
      let scale := ((scale_out + 1) / (scale_in + 1))%Z in
      tmap (fun x => x * inject_Z scale) (tcast image d)
  else if is_floating src && is_floating d
  then tcast image d
  else if is_integer src
  then tmap (fun x => x * (1 / inject_Z (dtype_max src))) (tcast image d)
  else tcast (tmap (fun x => x * (inject_Z (dtype_max d) + (1 # 2))) image) d.

Definition mean : tensor := constant [0.4914; 0.4822; 0.4465].
Definition std : tensor := constant [0.2023; 0.1994; 0.2010].

Definition normalize_convert_image (input_image : tensor) (d : dtype)
  : result tensor :=
  let input_image := convert_image_dtype input_image d in
  match tsub input_image mean with
  | inr centered => tdiv centered std
  | inl e => inl e
  end.

(** [tf.cast(label, d)] of a scalar integer label. *)
Definition cast_label (label : Z) (d : dtype) : tensor :=
  mkTensor d [] (fun _ => inject_Z label).

(** [tf.one_hot(label, depth)]: a vector of length [depth] with a one at
    position [label]; all zeros when [label] is not in [0, depth). *)
Definition one_hot (label : Z) (depth : Z) : tensor :=
  mkTensor float32 [Z.to_nat depth]
           (fun idx => match idx with
                       | [i] => if (Z.of_nat i =? label)%Z then 1 else 0
                       | _ => 0
                       end).

(** The entries of a rank-1 tensor, and their sum. *)
Definition entries (t : tensor) : list Q :=
  map (fun i => tat t [i]) (seq 0 (hd 0%nat (tshape t))).

Definition Qsum (l : list Q) : Q := fold_right Qplus 0 l.

(** ** The augmentation config

    [aug_params] is a dict with the recognised keys below; a key that is
    absent from the dict is [None]. *)

Record AugParams := mkAugParams {
  adaptive_mixup : option bool;
  random_augment : option bool;
  mixup_alpha : option Q;
  ensemble_size : option Z;
  label_smoothing : option Q;
  augmix : option bool;
  augmix_depth : option Z;
  augmix_width : option Z;
  augmix_prob_coeff : option Q;
  aug_count : option Z;
  mixup_coeff : option tensor
}.

(** [{}]. *)
Definition empty_params : AugParams :=
  mkAugParams None None None None None None None None None None None.

(** [params['mixup_coeff'] = t]. *)
Definition set_mixup_coeff (t : tensor) (p : AugParams) : AugParams :=
  mkAugParams (adaptive_mixup p) (random_augment p) (mixup_alpha p)
              (ensemble_size p) (label_smoothing p) (augmix p)
              (augmix_depth p) (augmix_width p) (augmix_prob_coeff p)
              (aug_count p) (Some t).

(** [key in params]. *)
Definition has_key {A : Type} (field : option A) : bool :=
  match field with Some _ => true | None => false end.

(** ** Events and the monad *)

Inductive event :=
| CatalogInfo (name : string)
| CatalogLoad (name split : string)
| LogWarning (msg : string)
| SampleBeta (a b : Q)
| SampleDirichlet (concentration : list Q)
| SampleUniform (n : Z) (minval maxval : Z)
| Distort.

(** Dict objects live in a heap and are passed by reference. *)
Definition ref := nat.

Record world := mkWorld {
  tape : nat;
  trace : list event;
  next_ref : ref;
  heap : ref -> AugParams
}.

Definition M (A : Type) : Type := world -> result A * world.

Definition ret {A : Type} (x : A) : M A := fun w => (inr x, w).

Definition bind {A B : Type} (c : M A) (k : A -> M B) : M B :=
  fun w => match c w with
           | (inr x, w') => k x w'
           | (inl e, w') => (inl e, w')
           end.

Definition raise {A : Type} (e : error) : M A := fun w => (inl e, w).

(** A computation that can only fail. *)
Definition lift {A : Type} (r : result A) : M A := fun w => (r, w).

Definition emit (e : event) : M unit :=
  fun w => (inr tt,
            mkWorld (tape w) (trace w ++ [e])%list (next_ref w) (heap w)).

(** Reads the current tape cell and moves past it. *)
Definition draw : M nat :=
  fun w => (inr (tape w),
            mkWorld (S (tape w)) (trace w) (next_ref w) (heap w)).

Definition update (r : ref) (p : AugParams) (h : ref -> AugParams)
  : ref -> AugParams :=
  fun r' => if (r' =? r)%nat then p else h r'.

(** A new dict object. *)
Definition alloc (p : AugParams) : M ref :=
  fun w => (inr (next_ref w),
            mkWorld (tape w) (trace w) (S (next_ref w))
                    (update (next_ref w) p (heap w))).

Definition read (r : ref) : M AugParams := fun w => (inr (heap w r), w).

Definition modify (r : ref) (f : AugParams -> AugParams) : M unit :=
  fun w => (inr tt,
            mkWorld (tape w) (trace w) (next_ref w)
                    (update r (f (heap w r)) (heap w))).

Declare Scope monad_scope.
Delimit Scope monad_scope with monad.
Notation "x <- c ;; k" := (bind c (fun x => k))
  (at level 100, c at next level, right associativity) : monad_scope.
Notation "c ;;; k" := (bind c (fun _ => k))
  (at level 100, right associativity) : monad_scope.
Local Open Scope monad_scope.

(** [params.get(key, default)]. *)
Definition dict_get {A : Type} (r : ref) (field : AugParams -> option A)
           (default : A) : M A :=
  p <- read r ;;
  ret (match field p with Some v => v | None => default end).

(** [params[key]]. *)
Definition dict_item {A : Type} (r : ref) (field : AugParams -> option A)
           (key : string) : M A :=
  p <- read r ;;
  match field p with
  | Some v => ret v
  | None => raise (KeyError key)
  end.

(** [key in params]. *)
Definition dict_contains {A : Type} (r : ref) (field : AugParams -> option A)
  : M bool :=
  p <- read r ;; ret (has_key (field p)).

(** [[f() for _ in range(n)]]. *)
Fixpoint replicateM {A : Type} (n : nat) (c : M A) : M (list A) :=
  match n with
  | O => ret []
  | S n' => x <- c ;; xs <- replicateM n' c ;; ret (x :: xs)
  end.

(** [for _ in range(n): x = f(x)]. *)
Fixpoint iterateM {A : Type} (n : nat) (f : A -> M A) (x : A) : M A :=
  match n with
  | O => ret x
  | S n' => y <- f x ;; iterateM n' f y
  end.

(** [for i in l: acc = body(i, acc)]. *)
Fixpoint forM {A S : Type} (l : list A) (body : A -> S -> M S) (acc : S) : M S :=
  match l with
  | [] => ret acc
  | i :: l' => acc' <- body i acc ;; forM l' body acc'
  end.

(** ** Dataset pipelines *)

Inductive batch_transform :=
| Mixup (batch_size : Z) (aug_params : ref)
| AdaptiveMixupAug (batch_size : Z) (aug_params : ref).

Inductive dataset :=
| TfdsLoad (name split : string)
| Shuffle (buffer_size : Z) (ds : dataset)
| Repeat (ds : dataset)
| Map (f : tensor -> Z -> M (tensor * tensor)) (ds : dataset)
| Batch (batch_size : Z) (drop_remainder : bool) (ds : dataset)
| MapBatch (f : batch_transform) (ds : dataset)
| Prefetch (ds : dataset).

(** The catalog slice that a pipeline reads. *)
Fixpoint source (ds : dataset) : string * string :=
  match ds with
  | TfdsLoad name split => (name, split)
  | Shuffle _ ds | Repeat ds | Map _ ds | Batch _ _ ds
  | MapBatch _ ds | Prefetch ds => source ds
  end.

(** The per-example function of a pipeline (the outermost [Map]). *)
Fixpoint example_fn (ds : dataset) : option (tensor -> Z -> M (tensor * tensor)) :=
  match ds with
  | TfdsLoad _ _ => None
  | Map f _ => Some f
  | Shuffle _ ds | Repeat ds | Batch _ _ ds
  | MapBatch _ ds | Prefetch ds => example_fn ds
  end.

(** Pushes one example through the per-example function. *)
Definition run_example (ds : dataset) (image : tensor) (label : Z)
  : M (tensor * tensor) :=
  match example_fn ds with
  | Some f => f image label
  | None => ret (image, cast_label label int64)
  end.

(** [dataset.map(f)] traces [f] on an element of the dataset's type.  An
    error of the trace is raised by [map]; the samplers and the augmenter
    that the traced code calls become nodes of a graph and do not run, so
    the world is as before. *)
Definition dataset_map (f : tensor -> Z -> M (tensor * tensor))
           (element : tensor * Z) (ds : dataset) : M dataset :=
  fun w => match f (fst element) (snd element) w with
           | (inr _, _) => (inr (Map f ds), w)
           | (inl e, _) => (inl e, w)
           end.

(** [tfds.Split.TRAIN] and [tfds.Split.TEST]. *)
Definition TRAIN : string := "train".
Definition TEST : string := "test".

(** ** The collaborators *)

Record ds_info := mkInfo {
  image_shape : nat * nat * nat;
  train_num_examples : Z;
  num_classes : Z
}.

(** The type of the examples of a catalog entry: an 8-bit image of the
    catalog's shape and an integer label. *)
Definition element_spec (info : ds_info) : tensor * Z :=
  let '(h, w, c) := image_shape info in
  (mkTensor uint8 [h; w; c] (fun _ => 0), 0%Z).

Record runtime := mkRuntime {
  builder_info : string -> ds_info;
  beta_at : nat -> Q -> Q -> Q;
  dirichlet_at : nat -> list Q -> nat -> Q;
  uniform_int_at : nat -> Z -> Z -> nat -> Z;
  distort_at : nat -> tensor -> index -> Q;
  resize_at : tensor -> nat -> nat -> index -> Q;
  random_crop_at : nat -> tensor -> list nat -> index -> Q;
  random_flip_left_right_at : nat -> tensor -> index -> Q
}.

Section WithRuntime.

Variable rt : runtime.

(** [tfds.builder(name).info]. *)
Definition tfds_builder_info (name : string) : M ds_info :=
  emit (CatalogInfo name) ;;; ret (builder_info rt name).

(** [tfds.load(name, split=split, as_supervised=True)]. *)
Definition tfds_load (name split : string) : M dataset :=
  emit (CatalogLoad name split) ;;; ret (TfdsLoad name split).

(** [logging.warning(msg)]. *)
Definition logging_warning (msg : string) : M unit :=
  emit (LogWarning msg).

(** [tf.squeeze(tfd.Beta([a], [b]).sample([1]))]: a [float32] scalar. *)
Definition sample_beta (a b : Q) : M Q :=
  emit (SampleBeta a b) ;;; t <- draw ;; ret (beta_at rt t a b).

(** [tf.squeeze(tfd.Dirichlet(conc).sample([1]))]: one [float32] weight per
    entry of [conc]. *)
Definition sample_dirichlet (conc : list Q) : M (list Q) :=
  emit (SampleDirichlet conc) ;;;
  t <- draw ;;
  ret (map (dirichlet_at rt t conc) (seq 0 (List.length conc))).

(** [tf.random.uniform([n], minval, maxval, dtype=int32)]; a negative size
    is rejected. *)
Definition random_uniform (n : Z) (minval maxval : Z) : M (list Z) :=
  if (n <? 0)%Z
  then raise ShapeMismatch
  else
    emit (SampleUniform n minval maxval) ;;;
    t <- draw ;;
    ret (map (uniform_int_at rt t minval maxval) (Py.range n)).

(** The image that the augmenter makes of [image] with tape cell [t]: it
    has the shape and dtype of [image]. *)
Definition distorted (t : nat) (image : tensor) : tensor :=
  mkTensor (tdtype image) (tshape image) (distort_at rt t image).

(** [augmenter.distort(image)] of a RandAugment augmenter. *)
Definition distort (image : tensor) : M tensor :=
  emit Distort ;;; t <- draw ;; ret (distorted t image).

(** [tf.image.resize_with_crop_or_pad(image, height, width)]: for an image
    [[h, w, c]] or a batch [[b, h, w, c]] without an empty inner axis. *)
Definition resize_with_crop_or_pad (image : tensor) (height width : nat)
  : result tensor :=
  match tshape image with
  | [h; w; c] =>
      if (0 <? h)%nat && (0 <? w)%nat && (0 <? c)%nat
      then inr (mkTensor (tdtype image) [height; width; c]
                         (resize_at rt image height width))
      else inl ShapeMismatch
  | [b; h; w; c] =>
      if (0 <? h)%nat && (0 <? w)%nat && (0 <? c)%nat
      then inr (mkTensor (tdtype image) [b; height; width; c]
                         (resize_at rt image height width))
      else inl ShapeMismatch
  | _ => inl ShapeMismatch
  end.

(** [tf.image.random_crop(image, size)] with a [size] of three entries: the
    image has three axes, none smaller than asked for. *)
Definition random_crop (image : tensor) (size : nat * nat * nat) : M tensor :=
  let '(h, w, c) := size in
  match tshape image with
  | [h'; w'; c'] =>
      if (h <=? h')%nat && (w <=? w')%nat && (c <=? c')%nat
      then
        t <- draw ;;
        ret (mkTensor (tdtype image) [h; w; c]
                      (random_crop_at rt t image [h; w; c]))
      else raise ShapeMismatch
  | _ => raise ShapeMismatch
  end.

(** [tf.image.random_flip_left_right(image)], of an image of three axes. *)
Definition random_flip_left_right (image : tensor) : M tensor :=
  t <- draw ;;
  ret (mkTensor (tdtype image) (tshape image)
                (random_flip_left_right_at rt t image)).

(** *** [augment_and_mix] *)

Definition augment_and_mix (image : tensor) (depth width : Z)
           (prob_coeff : Q) (d : dtype) : M tensor :=
  mix_weight <- sample_beta prob_coeff prob_coeff ;;
  branch_weights <-
    (if (1 <? width)%Z
     then sample_dirichlet (Py.replicate prob_coeff width)
     else ret [1]) ;;
  depth <-
    (if (depth <? 0)%Z
     then random_uniform width 1 4
     else ret (Py.replicate depth width)) ;;
  let mix := tcast (zeros_like image) float32 in
  mix <- forM (Py.range width)
           (fun i mix =>
              let branch_img := identity image in
              branch_img <-
                iterateM (Z.to_nat (nth i depth 0%Z)) distort branch_img ;;
              branch_img <- lift (normalize_convert_image branch_img d) ;;
              weighted <-
                lift (tmul (scalar (nth i branch_weights 0)) branch_img) ;;
              lift (tadd mix weighted))
           mix ;;
  mixed <- lift (tmul (scalar mix_weight) mix) ;;
  original <- lift (normalize_convert_image image d) ;;
  original <- lift (tmul (scalar (1 - mix_weight)) original) ;;
  lift (tadd mixed original).

(** *** [_augmix] *)

Definition _augmix (image : tensor) (params : ref) (d : dtype) : M tensor :=
  depth <- dict_item params augmix_depth "augmix_depth" ;;
  width <- dict_item params augmix_width "augmix_width" ;;
  prob_coeff <- dict_item params augmix_prob_coeff "augmix_prob_coeff" ;;
  count <- dict_item params aug_count "aug_count" ;;
  augmented <-
    replicateM (Z.to_nat count)
               (augment_and_mix image depth width prob_coeff d) ;;
  image <- lift (normalize_convert_image image d) ;;
  ret (stack ([image] ++ augmented)).

(** *** [preprocess], the inner function of [load_dataset]

    The variables it closes over are its first eight arguments. *)

Definition preprocess (split : string) (image_shape : nat * nat * nat)
           (random_augment : bool) (aug_params : ref) (d : dtype)
           (normalize onehot : bool) (num_classes : Z)
           (image : tensor) (label : Z) : M (tensor * tensor) :=
  image <-
    (if (split =? TRAIN)%string
     then
       let '(h, w, _) := image_shape in
       image <- lift (resize_with_crop_or_pad image (h + 4) (w + 4)) ;;
       image <- random_crop image image_shape ;;
       image <- random_flip_left_right image ;;
       if random_augment
       then
         count <- dict_item aug_params aug_count "aug_count" ;;
         augmented <- replicateM (Z.to_nat count) (distort image) ;;
         ret (stack augmented)
       else ret image
     else ret image) ;;
  use_augmix <-
    (if (split =? TRAIN)%string
     then dict_item aug_params augmix "augmix"
     else ret false) ;;
  image <-
    (if use_augmix
     then _augmix image aug_params d
     else if normalize
          then lift (normalize_convert_image image d)
          else ret image) ;;
  let label :=
    if (split =? TRAIN)%string && onehot
    then one_hot label num_classes
    else cast_label label d in
  ret (image, label).

(** *** [load_dataset] *)

Definition load_dataset (split : string) (batch_size : Z) (name : string)
           (use_bfloat16 normalize drop_remainder : bool)
           (proportion : Py.float) (validation_set : bool)
           (validation_proportion : Py.float) (aug_params : option ref)
  : M dataset :=
  if Py.float_ltb proportion Py.zero || Py.float_ltb Py.one proportion
  then raise (ValueError "proportion needs to lie in the range [0, 1]")
  else
  if Py.float_ltb validation_proportion Py.zero ||
     Py.float_ltb Py.one validation_proportion
  then raise (ValueError
                "validation_proportion needs to lie in the range [0, 1]")
  else
  let d := if use_bfloat16 then bfloat16 else float32 in
  ds_info <- tfds_builder_info name ;;
  let image_shape := image_shape ds_info in
  let dataset_size := train_num_examples ds_info in
  let num_classes := num_classes ds_info in
  aug_params <-
    match aug_params with
    | None => alloc empty_params
    | Some r => ret r
    end ;;
  adaptive_mixup <- dict_get aug_params adaptive_mixup false ;;
  random_augment <- dict_get aug_params random_augment false ;;
  mixup_alpha <- dict_get aug_params mixup_alpha 0 ;;
  ensemble_size <- dict_get aug_params ensemble_size 1%Z ;;
  label_smoothing <- dict_get aug_params label_smoothing 0 ;;
  has_coeff <- dict_contains aug_params mixup_coeff ;;
  (if adaptive_mixup && negb has_coeff
   then modify aug_params
          (set_mixup_coeff
             (ones [Z.to_nat ensemble_size; Z.to_nat num_classes]))
   else ret tt) ;;;
  let onehot := Py.ltb 0 mixup_alpha || Py.ltb 0 label_smoothing in
  dataset <-
    (if Py.float_eqb proportion Py.one
     then
       if validation_set
       then
         let new_name := (name ++ ":3.*.*")%string in
         if (split =? "validation")%string
         then
           percent <-
             lift (Py.int (Py.float_mul
                             Py.hundred
                             (Py.float_sub Py.one validation_proportion))) ;;
           let new_split := ("train[" ++ Py.str percent ++ "%:]")%string in
           tfds_load new_name new_split
         else if (split =? TRAIN)%string
         then
           percent <-
             lift (Py.int (Py.float_mul
                             Py.hundred
                             (Py.float_sub Py.one validation_proportion))) ;;
           let new_split := ("train[:" ++ Py.str percent ++ "%]")%string in
           tfds_load name "train[:95%]"
         else tfds_load name split
       else tfds_load name split
     else
       logging_warning
         "Subset of training dataset is being used without a validation set." ;;;
       let new_name := (name ++ ":3.*.*")%string in
       new_split <-
         (if (split =? TRAIN)%string
          then
            percent <- lift (Py.int (Py.float_mul Py.hundred proportion)) ;;
            ret ("train[:" ++ Py.str percent ++ "%]")%string
          else
            percent <- lift (Py.int (Py.float_mul Py.hundred proportion)) ;;
            ret ("test[:" ++ Py.str percent ++ "%]")%string) ;;
       tfds_load new_name new_split) ;;
  let dataset :=
    if (split =? TRAIN)%string
    then Repeat (Shuffle dataset_size dataset)
    else dataset in
  dataset <-
    dataset_map (preprocess split image_shape random_augment aug_params d
                            normalize onehot num_classes)
                (element_spec ds_info) dataset ;;
  let dataset := Batch batch_size drop_remainder dataset in
  let dataset :=
    if Py.ltb 0 mixup_alpha && (split =? TRAIN)%string
    then
      if adaptive_mixup
      then MapBatch (AdaptiveMixupAug batch_size aug_params) dataset
      else MapBatch (Mixup batch_size aug_params) dataset
    else dataset in
  ret (Prefetch dataset).

End WithRuntime.

(** ** Specification-side vocabulary *)

(** [w] after [n] tape cells were consumed and [evs] was logged. *)
Definition advance (n : nat) (evs : list event) (w : world) : world :=
  mkWorld (tape w + n) (trace w ++ evs)%list (next_ref w) (heap w).

Definition count_distort (tr : list event) : nat :=
  List.length (filter (fun e => match e with Distort => true | _ => false end) tr).

(** An image whose innermost axis holds the three colour channels. *)
Definition three_channels (image : tensor) : Prop :=
  exists outer, tshape image = (outer ++ [3%nat])%list.

(** The result of [normalize_convert_image] in [float32], where it
    returns. *)
Definition normalized (image : tensor) : tensor :=
  match normalize_convert_image image float32 with
  | inr t => t
  | inl _ => image
  end.

(** [t] is a [float32] tensor of shape [shape] with the entries [f]. *)
Definition has_entries (t : tensor) (shape : list nat) (f : index -> Q)
  : Prop :=
  tdtype t = float32 /\ tshape t = shape /\
  forall idx, in_bounds idx shape -> tat t idx = f idx.

(** The errors of the tensor runtime and of a dict lookup, as opposed to the
    errors that the source raises itself or that [int] raises. *)
Definition is_runtime_error (e : error) : Prop :=
  match e with
  | KeyError _ | DtypeMismatch | ShapeMismatch => True
  | ValueError _ | OverflowError _ => False
  end.

(** Every error of [c] satisfies [P]. *)
Definition only_raises {A : Type} (P : error -> Prop) (c : M A) : Prop :=
  forall w e w', c w = (inl e, w') -> P e.

(** A computation that leaves the dict objects as they are when it
    returns. *)
Definition keeps_heap {A : Type} (c : M A) : Prop :=
  forall w x w', c w = (inr x, w') -> heap w' = heap w.

Section Mixture.

Variable rt : runtime.

(** [n] chained distortions of [x], read from tape cell [t] on. *)
Fixpoint chain (t n : nat) (x : tensor) : tensor :=
  match n with
  | O => x
  | S n' => chain (S t) n' (distorted rt t x)
  end.

(** Tape cells used by the branches before branch [i], for chain lengths
    [len]. *)
Fixpoint cells_before (len : nat -> nat) (i : nat) : nat :=
  match i with
  | O => O
  | S j => cells_before len j + len j
  end.

(** Tape cells used by the [n] branches from branch [k] on. *)
Fixpoint cells_between (len : nat -> nat) (k n : nat) : nat :=
  match n with
  | O => O
  | S n' => len k + cells_between len (S k) n'
  end.

(** Branch [i]: a chain of [len i] distortions of the original image. *)
Definition branch (t0 : nat) (len : nat -> nat) (image : tensor) (i : nat)
  : tensor :=
  chain (t0 + cells_before len i) (len i) image.

(** What one call of [augment_and_mix] in world [w] samples. *)
Definition mix_weight_of (w : world) (prob_coeff : Q) : Q :=
  beta_at rt (tape w) prob_coeff prob_coeff.

Definition branch_weights_of (w : world) (width : Z) (prob_coeff : Q)
  : list Q :=
  if (1 <? width)%Z
  then map (dirichlet_at rt (S (tape w)) (Py.replicate prob_coeff width))
           (seq 0 (Z.to_nat width))
  else [1].

Definition tape_after_weights (w : world) (width : Z) : nat :=
  if (1 <? width)%Z then S (S (tape w)) else S (tape w).

Definition depths_of (w : world) (depth width : Z) : list Z :=
  if (depth <? 0)%Z
  then map (uniform_int_at rt (tape_after_weights w width) 1 4)
           (Py.range width)
  else Py.replicate depth width.

Definition tape_after_depths (w : world) (depth width : Z) : nat :=
  if (depth <? 0)%Z
  then S (tape_after_weights w width)
  else tape_after_weights w width.

(** Chain length of branch [i]. *)
Definition chain_length (w : world) (depth width : Z) (i : nat) : nat :=
  Z.to_nat (nth i (depths_of w depth width) 0%Z).

(** The image of branch [i]. *)
Definition branch_image (w : world) (image : tensor) (depth width : Z)
           (i : nat) : tensor :=
  branch (tape_after_depths w depth width) (chain_length w depth width)
         image i.

(** Sum over the branches [i < width] of
    [branchWeights[i] * normalize(branch_i)] at entry [idx]. *)
Definition branch_sum (w : world) (image : tensor) (depth width : Z)
           (prob_coeff : Q) (idx : index) : Q :=
  Qsum (map (fun i =>
               nth i (branch_weights_of w width prob_coeff) 0 *
               tat (normalized (branch_image w image depth width i)) idx)
            (Py.range width)).

(** The events that one call of [augment_and_mix] logs, and the tape
    cells it consumes. *)
Definition mix_events (w : world) (depth width : Z) (prob_coeff : Q)
  : list event :=
  [SampleBeta prob_coeff prob_coeff] ++
  (if (1 <? width)%Z
   then [SampleDirichlet (Py.replicate prob_coeff width)] else []) ++
  (if (depth <? 0)%Z then [SampleUniform width 1 4] else []) ++
  repeat Distort
         (cells_between (chain_length w depth width) 0 (Z.to_nat width)).

Definition sample_cells (depth width : Z) : nat :=
  1 + (if (1 <? width)%Z then 1 else 0) + (if (depth <? 0)%Z then 1 else 0).

Definition mix_cells (w : world) (depth width : Z) : nat :=
  sample_cells depth width +
  cells_between (chain_length w depth width) 0 (Z.to_nat width).

(** The entries at [idx] of the normalized original image and of the
    normalized branch images. *)
Definition contributing (w : world) (image : tensor) (depth width : Z)
           (idx : index) : list Q :=
  tat (normalized image) idx ::
  map (fun i => tat (normalized (branch_image w image depth width i)) idx)
      (Py.range width).

(** The image after the padding, the random crop and the random flip of
    the train split, for a call of [preprocess] in world [w]. *)
Definition crop_and_flip (image : tensor) (image_shape : nat * nat * nat)
           (w : world) : tensor :=
  let '(h, wd, c) := image_shape in
  let padded :=
    mkTensor (tdtype image) [h + 4; wd + 4; nth 2 (tshape image) 0]%nat
             (resize_at rt image (h + 4) (wd + 4)) in
  let cropped :=
    mkTensor (tdtype image) [h; wd; c]
             (random_crop_at rt (tape w) padded [h; wd; c]) in
  mkTensor (tdtype image) [h; wd; c]
           (random_flip_left_right_at rt (tape w + 1) cropped).

End Mixture.

Definition Qlist_min (l : list Q) : Q :=
  match l with
  | [] => 0
  | x :: l' => fold_left Qmin l' x
  end.

Definition Qlist_max (l : list Q) : Q :=
  match l with
  | [] => 0
  | x :: l' => fold_left Qmax l' x
  end.

(** A weight in the unit interval. *)
Definition in_unit (x : Q) : Prop := 0 <= x /\ x <= 1.

(** [int(100 * (1. - vp))] and [int(100 * p)]. *)
Definition complement_percent (vp : Py.float) : result Z :=
  Py.int (Py.float_mul Py.hundred (Py.float_sub Py.one vp)).

Definition percent (p : Py.float) : result Z :=
  Py.int (Py.float_mul Py.hundred p).

(** The head slice of the train split that complements a validation
    proportion [vp]: ['train[:{}%]'.format(int(100 * (1. - vp)))]. *)
Definition train_head_slice (vp : Py.float) : result string :=
  match complement_percent vp with
  | inr k => inr ("train[:" ++ Py.str k ++ "%]")%string
  | inl e => inl e
  end.

(** The range check of [load_dataset], as the code tests it: neither
    [x < 0.] nor [x > 1.]. *)
Definition in_range (x : Py.float) : Prop :=
  Py.float_ltb x Py.zero = false /\ Py.float_ltb Py.one x = false.

Definition out_of_range (x : Py.float) : Prop :=
  Py.float_ltb x Py.zero = true \/ Py.float_ltb Py.one x = true.

(** The two errors of the range check. *)
Definition proportion_error : error :=
  ValueError "proportion needs to lie in the range [0, 1]".

Definition validation_proportion_error : error :=
  ValueError "validation_proportion needs to lie in the range [0, 1]".

Definition is_range_error (e : error) : Prop :=
  e = proportion_error \/ e = validation_proportion_error.

(** ** What one call of [load_dataset] does, read off its arguments *)

(** The dict object that [aug_params] names after line
    [if aug_params is None: aug_params = {}], and its contents. *)
Definition params_ref (aug_params : option ref) (w : world) : ref :=
  match aug_params with Some r => r | None => next_ref w end.

Definition params_of (aug_params : option ref) (w : world) : AugParams :=
  match aug_params with Some r => heap w r | None => empty_params end.

Definition get_or {A : Type} (field : option A) (default : A) : A :=
  match field with Some v => v | None => default end.

(** Adaptive mixup is requested and no coefficient is stored yet. *)
Definition needs_coeff (p : AugParams) : bool :=
  get_or (adaptive_mixup p) false && negb (has_key (mixup_coeff p)).

(** The all-ones matrix of shape [[ensemble_size, num_classes]]. *)
Definition initial_coeff (info : ds_info) (p : AugParams) : tensor :=
  ones [Z.to_nat (get_or (ensemble_size p) 1%Z); Z.to_nat (num_classes info)].

Definition params_after (info : ds_info) (p : AugParams) : AugParams :=
  if needs_coeff p then set_mixup_coeff (initial_coeff info p) p else p.

Definition wants_one_hot (p : AugParams) : bool :=
  Py.ltb 0 (get_or (mixup_alpha p) 0) ||
  Py.ltb 0 (get_or (label_smoothing p) 0).

(** The catalog entry and slice that are loaded, when the percentage can
    be computed. *)
Definition load_target (split name : string) (proportion : Py.float)
           (validation_set : bool) (validation_proportion : Py.float)
  : result (string * string) :=
  if Py.float_eqb proportion Py.one
  then
    if validation_set
    then
      if (split =? "validation")%string
      then
        match complement_percent validation_proportion with
        | inr k => inr ((name ++ ":3.*.*")%string,
                        ("train[" ++ Py.str k ++ "%:]")%string)
        | inl e => inl e
        end
      else if (split =? TRAIN)%string
           then
             match complement_percent validation_proportion with
             | inr _ => inr (name, "train[:95%]")
             | inl e => inl e
             end
           else inr (name, split)
    else inr (name, split)
  else
    match percent proportion with
    | inr k =>
        inr ((name ++ ":3.*.*")%string,
             if (split =? TRAIN)%string
             then ("train[:" ++ Py.str k ++ "%]")%string
             else ("test[:" ++ Py.str k ++ "%]")%string)
    | inl e => inl e
    end.

Definition subset_warning : string :=
  "Subset of training dataset is being used without a validation set.".

(** The events of a call that passes the range checks, up to the catalog
    load and with it. *)
Definition events_before_load (name : string) (proportion : Py.float)
  : list event :=
  [CatalogInfo name] ++
  (if Py.float_eqb proportion Py.one then [] else [LogWarning subset_warning]).

Definition load_events (name : string) (proportion : Py.float)
           (target : string * string) : list event :=
  events_before_load name proportion ++
  [CatalogLoad (fst target) (snd target)].

(** The heap after a call that passes the range checks. *)
Definition heap_after_load (info : ds_info) (aug_params : option ref)
           (w : world) : ref -> AugParams :=
  let h :=
    match aug_params with
    | Some _ => heap w
    | None => update (next_ref w) empty_params (heap w)
    end in
  let r := params_ref aug_params w in
  if needs_coeff (h r)
  then update r (set_mixup_coeff (initial_coeff info (h r)) (h r)) h
  else h.

(** The world after a call that passes the range checks and has logged
    [evs]. *)
Definition world_after (info : ds_info) (evs : list event)
           (aug_params : option ref) (w : world) : world :=
  mkWorld (tape w) (trace w ++ evs)%list
          (match aug_params with
           | Some _ => next_ref w
           | None => S (next_ref w)
           end)
          (heap_after_load info aug_params w).

(** The pipeline that [load_dataset] builds on the catalog slice
    [target] for the config [p] stored at [r]. *)
Definition pipeline (rt : runtime) (info : ds_info) (split : string)
           (batch_size : Z) (drop_remainder : bool)
           (target : string * string) (r : ref) (p : AugParams)
           (d : dtype) (normalize : bool) : dataset :=
  let dataset := TfdsLoad (fst target) (snd target) in
  let dataset :=
    if (split =? TRAIN)%string
    then Repeat (Shuffle (train_num_examples info) dataset)
    else dataset in
  let dataset :=
    Map (preprocess rt split (image_shape info)
                    (get_or (random_augment p) false) r d normalize
                    (wants_one_hot p) (num_classes info))
        dataset in
  let dataset := Batch batch_size drop_remainder dataset in
  let dataset :=
    if Py.ltb 0 (get_or (mixup_alpha p) 0) && (split =? TRAIN)%string
    then
      if get_or (adaptive_mixup p) false
      then MapBatch (AdaptiveMixupAug batch_size r) dataset
      else MapBatch (Mixup batch_size r) dataset
    else dataset in
  Prefetch dataset.

(** The outcome of the trace of [preprocess] in [dataset.map]. *)
Definition traced (rt : runtime) (info : ds_info) (split : string)
           (r : ref) (p : AugParams) (d : dtype) (normalize : bool)
           (w : world) : result (tensor * tensor) :=
  fst (preprocess rt split (image_shape info)
                  (get_or (random_augment p) false) r d normalize
                  (wants_one_hot p) (num_classes info)
                  (fst (element_spec info)) (snd (element_spec info)) w).

(** A catalog of colour images: three channels and no empty axis. *)
Definition rgb_catalog (info : ds_info) : Prop :=
  exists h w, image_shape info = (S h, S w, 3%nat).

(** A colour image as the catalog delivers it. *)
Definition rgb_image (image : tensor) : Prop :=
  exists h w, tshape image = [S h; S w; 3%nat].

(** The stages of a pipeline, from the catalog slice outwards. *)
Inductive stage :=
| SLoad (name split : string)
| SShuffle (buffer_size : Z)
| SRepeat
| SMap
| SBatch (batch_size : Z) (drop_remainder : bool)
| SMapBatch (f : batch_transform)
| SPrefetch.

Fixpoint stages (ds : dataset) : list stage :=
  match ds with
  | TfdsLoad name split => [SLoad name split]
  | Shuffle n ds => stages ds ++ [SShuffle n]
  | Repeat ds => stages ds ++ [SRepeat]
  | Map _ ds => stages ds ++ [SMap]
  | Batch n drop ds => stages ds ++ [SBatch n drop]
  | MapBatch f ds => stages ds ++ [SMapBatch f]
  | Prefetch ds => stages ds ++ [SPrefetch]
  end.

(** The batch-level mixup stage that [load_dataset] installs for a config
    [p] stored at [r]. *)
Definition mixup_stage (split : string) (batch_size : Z) (r : ref)
           (p : AugParams) : list stage :=
  if Py.ltb 0 (get_or (mixup_alpha p) 0) && (split =? TRAIN)%string
  then [SMapBatch (if get_or (adaptive_mixup p) false
                   then AdaptiveMixupAug batch_size r
                   else Mixup batch_size r)]
  else [].

(** ** A small concrete setting

    A catalog with the CIFAR-10 metadata, samplers with fixed answers and an
    augmenter that inverts an 8-bit image. *)

Definition cifar10_info : ds_info := mkInfo (32, 32, 3)%nat 50000 10.

Definition toy_runtime : runtime :=
  mkRuntime
    (fun _ => cifar10_info)
    (fun _ _ _ => 1 # 2)
    (fun _ conc _ => 1 / inject_Z (Z.of_nat (List.length conc)))
    (fun t lo hi i => (lo + Z.of_nat (t + i) mod (hi - lo))%Z)
    (fun _ image idx => 255 - tat image idx)
    (fun image _ _ idx => tat image idx)
    (fun _ image _ idx => tat image idx)
    (fun _ image idx => tat image idx).

Definition empty_world : world :=
  mkWorld 0%nat [] 0%nat (fun _ => empty_params).

Definition gray_image : tensor := mkTensor uint8 [32; 32; 3]%nat (fun _ => 128).

(** A world whose dict object [0] holds [p]. *)
Definition world_with (p : AugParams) : world :=
  mkWorld 0%nat [] 1%nat (update 0%nat p (fun _ => empty_params)).

Definition plain_params : AugParams :=
  mkAugParams None (Some true) (Some (1 # 5)) None None (Some false)
              None None None (Some 3%Z) None.

Definition augmix_params : AugParams :=
  mkAugParams None None None None None (Some true)
              (Some 1%Z) (Some 2%Z) (Some 1) (Some 2%Z) None.


Definition adaptive_params : AugParams :=
  mkAugParams (Some true) None (Some (1 # 5)) (Some 4%Z) None (Some false)
              None None None None None.

Definition no_augmix_params : AugParams :=
  mkAugParams None None None None None (Some false)
              None None None None None.

(** The default [validation_proportion], and the proportions of the
    examples below. *)
Definition default_validation_proportion : Py.float := Py.decimal 5 100.

(** ** Facts about the Python scalars *)

Lemma ltb_lt (a b : Q) : Py.ltb a b = true <-> a < b.
Proof.
  unfold Py.ltb. rewrite negb_true_iff. split; intro H.
  - apply Qnot_le_lt. intro Hle. apply Qle_bool_iff in Hle. congruence.
  - destruct (Qle_bool b a) eqn:E; [|reflexivity].
    apply Qle_bool_iff in E. exfalso. exact (Qlt_not_le _ _ H E).
Qed.

Lemma ltb_ge (a b : Q) : Py.ltb a b = false <-> b <= a.
Proof.
  unfold Py.ltb. rewrite negb_false_iff. apply Qle_bool_iff.
Qed.

Lemma range_length (n : Z) : List.length (Py.range n) = Z.to_nat n.
Proof. unfold Py.range. apply length_seq. Qed.

(** Comparing two floats the other way round gives the opposite answer. *)
Lemma SFcompare_antisym (a b : spec_float) :
  SFcompare b a = option_map CompOpp (SFcompare a b).
Proof.
  destruct a as [sa | sa | | sa ma ea], b as [sb | sb | | sb mb eb];
    cbn [SFcompare option_map]; try reflexivity;
    try (destruct sa; reflexivity); try (destruct sb; reflexivity);
    try (destruct sa, sb; reflexivity).
  destruct sa, sb; try reflexivity;
    rewrite (Z.compare_antisym ea eb);
    destruct (ea ?= eb)%Z; cbn [CompOpp]; try reflexivity;
    rewrite (Pos.compare_cont_antisym ma mb Eq); reflexivity.
Qed.

Lemma float_leb_not_gt (a b : Py.float) :
  Py.float_leb a b = true -> Py.float_ltb b a = false.
Proof.
  unfold Py.float_leb, Py.float_ltb, SFleb, SFltb.
  rewrite (SFcompare_antisym a b).
  destruct (SFcompare a b) as [[| |]|]; cbn; congruence.
Qed.

Lemma float_ltb_not_ge (a b : Py.float) :
  Py.float_ltb a b = true ->
  Py.float_ltb b a = false /\ Py.float_eqb a b = false /\
  Py.float_leb a b = true.
Proof.
  unfold Py.float_leb, Py.float_ltb, Py.float_eqb, SFleb, SFltb, SFeqb.
  rewrite (SFcompare_antisym a b).
  destruct (SFcompare a b) as [[| |]|]; cbn; try congruence.
  repeat split; reflexivity.
Qed.

(** A number between 0 and 1 passes the range check. *)
Lemma number_in_range (x : Py.float) :
  Py.float_leb Py.zero x = true -> Py.float_leb x Py.one = true ->
  in_range x.
Proof.
  intros H0 H1. split; now apply float_leb_not_gt.
Qed.

Lemma range_check_passes (x : Py.float) :
  Py.float_ltb x Py.zero || Py.float_ltb Py.one x = false <-> in_range x.
Proof. unfold in_range. now rewrite orb_false_iff. Qed.

Lemma range_check_fails (x : Py.float) :
  Py.float_ltb x Py.zero || Py.float_ltb Py.one x = true <-> out_of_range x.
Proof. unfold out_of_range. now rewrite orb_true_iff. Qed.

Lemma in_or_out_of_range (x : Py.float) : in_range x \/ out_of_range x.
Proof.
  unfold in_range, out_of_range.
  destruct (Py.float_ltb x Py.zero), (Py.float_ltb Py.one x); auto.
Qed.

Lemma not_in_and_out_of_range (x : Py.float) :
  in_range x -> out_of_range x -> False.
Proof.
  intros [H0 H1] [H | H]; congruence.
Qed.

(** *** [int(100 * p)] is defined on [0, 1) *)

Section FloatFacts.

Local Open Scope Z_scope.

Lemma digits2_size (p : positive) : digits2_pos p = Pos.size p.
Proof. induction p; cbn; now rewrite ?IHp. Qed.

Lemma Zdigits2_log2 (p : positive) : Zdigits2 (Zpos p) = Z.log2 (Zpos p) + 1.
Proof.
  cbn [Zdigits2]. rewrite digits2_size.
  destruct p; cbn [Pos.size Z.log2]; rewrite ?Pos2Z.inj_succ; lia.
Qed.

Lemma Zdigits2_bound (m k : Z) : 0 <= k -> 0 <= m < 2 ^ k -> Zdigits2 m <= k.
Proof.
  intros Hk [H0 H1]. destruct m as [|p|p]; [cbn; lia | | lia].
  rewrite Zdigits2_log2.
  assert (Z.log2 (Zpos p) < k) by (apply Z.log2_lt_pow2; lia). lia.
Qed.

Lemma digits_lower (p : positive) : Zpos p < 2 ^ Zpos (digits2_pos p).
Proof.
  rewrite digits2_size.
  pose proof (Pos.size_gt p) as H.
  rewrite <- Pos2Z.inj_pow. apply Pos2Z.pos_lt_pos. exact H.
Qed.

Lemma shr_1_bound mrs : 0 <= shr_m mrs -> 0 <= shr_m (shr_1 mrs) <= shr_m mrs.
Proof.
  destruct mrs as [m r s]. cbn [shr_m shr_1].
  destruct m as [|[p|p|]|p]; cbn [shr_m]; lia.
Qed.

Lemma iter_pos_inv {A} (f : A -> A) (P : A -> Prop) :
  (forall x, P x -> P (f x)) -> forall n x, P x -> P (iter_pos f n x).
Proof.
  intros Hf. induction n as [n IH | n IH |]; intros x Hx; cbn [iter_pos]; auto.
Qed.

Lemma shr_bound mrs e n B :
  0 <= shr_m mrs <= B ->
  0 <= shr_m (fst (shr mrs e n)) <= B /\ snd (shr mrs e n) = e + Z.max n 0.
Proof.
  intro H. destruct n as [|p|p]; cbn [shr fst snd];
    try (split; [exact H | lia]).
  split; [|lia].
  apply (iter_pos_inv shr_1 (fun x => 0 <= shr_m x <= B)); [|exact H].
  intros x Hx. pose proof (shr_1_bound x). lia.
Qed.

Lemma shr_fexp_bound m e l B :
  0 <= m <= B ->
  let r := shr_fexp Py.prec Py.emax m e l in
  0 <= shr_m (fst r) <= B /\
  snd r = Z.max e (fexp Py.prec Py.emax (Zdigits2 m + e)).
Proof.
  intros H r. unfold r, shr_fexp.
  destruct (shr_bound (shr_record_of_loc m l) e
              (fexp Py.prec Py.emax (Zdigits2 m + e) - e) B) as [H1 H2].
  { destruct l as [|[| |]]; exact H. }
  split; [exact H1|]. rewrite H2. lia.
Qed.

Lemma round_bound mx lx : 0 <= mx -> 0 <= round_nearest_even mx lx <= mx + 1.
Proof.
  intro H. destruct lx as [|[| |]]; cbn [round_nearest_even]; try lia.
  destruct (Z.even mx); lia.
Qed.

(** Rounding a mantissa of at most [k] bits with a small exponent gives
    zero or a finite float. *)
Lemma binary_round_aux_finite sx mx ex k :
  0 <= k <= 1000 -> 0 <= mx < 2 ^ k -> ex + 2 * k <= 900 ->
  match binary_round_aux Py.prec Py.emax sx mx ex loc_Exact with
  | S754_zero _ | S754_finite _ _ _ => True
  | _ => False
  end.
Proof.
  intros Hk Hm He. unfold binary_round_aux.
  pose proof (shr_fexp_bound mx ex loc_Exact (2 ^ k - 1)) as H1.
  destruct (shr_fexp Py.prec Py.emax mx ex loc_Exact) as [mrs' e'].
  cbn [fst snd] in H1. destruct H1 as [Hm1 He1]; [lia|].
  pose proof (round_bound (shr_m mrs') (loc_of_shr_record mrs')) as Hr.
  set (m1 := round_nearest_even (shr_m mrs') (loc_of_shr_record mrs')) in *.
  pose proof (shr_fexp_bound m1 e' loc_Exact (2 ^ k)) as H2.
  destruct (shr_fexp Py.prec Py.emax m1 e' loc_Exact) as [mrs'' e''].
  cbn [fst snd] in H2. destruct H2 as [Hm2 He2]; [lia|].
  assert (Hd : Zdigits2 mx <= k) by (apply Zdigits2_bound; lia).
  assert (Hd1 : Zdigits2 m1 <= k + 1).
  { apply Zdigits2_bound; [lia|].
    replace (k + 1) with (Z.succ k) by lia.
    rewrite Z.pow_succ_r by lia. lia. }
  assert (Hd0 : 0 <= Zdigits2 mx).
  { destruct mx; cbn; lia. }
  assert (Hd10 : 0 <= Zdigits2 m1).
  { destruct m1; cbn; lia. }
  unfold fexp, emin, Py.prec, Py.emax in *.
  destruct (shr_m mrs'') as [|p|p]; [exact I | | lia].
  destruct (e'' <=? 1024 - 53) eqn:E; [exact I|].
  apply Z.leb_gt in E. lia.
Qed.

(** For a binary64 number [p] with [0 <= p < 1], [int(100 * p)] is
    defined and not negative. *)
Lemma percent_defined (p : Py.float) :
  Py.is_float p ->
  Py.float_leb Py.zero p = true -> Py.float_ltb p Py.one = true ->
  exists k, percent p = inr k /\ 0 <= k.
Proof.
  unfold Py.is_float, Py.float_leb, Py.float_ltb, percent, Py.float_mul.
  intros Hv H0 H1.
  destruct p as [s | s | | s m e].
  - exists 0. split; [reflexivity | lia].
  - destruct s; discriminate.
  - discriminate.
  - destruct s; [discriminate|].
    cbn [valid_binary] in Hv. unfold bounded, canonical_mantissa in Hv.
    apply andb_true_iff in Hv. destruct Hv as [Hc _].
    apply Z.eqb_eq in Hc. unfold fexp, emin, Py.prec, Py.emax in Hc.
    assert (He : e <= -52).
    { unfold SFltb, Py.one in H1. cbn [SFcompare] in H1.
      destruct (e ?= -52) eqn:E; try discriminate.
      - apply Z.compare_eq in E. lia.
      - pose proof (proj1 (Z.compare_lt_iff _ _) E). lia. }
    assert (Hm : Zpos m < 2 ^ 53).
    { pose proof (digits_lower m) as Hl.
      assert (Zpos (digits2_pos m) <= 53) by lia.
      eapply Z.lt_le_trans; [exact Hl|].
      apply Z.pow_le_mono_r; lia. }
    unfold Py.hundred. cbn [SFmul xorb].
    assert (Hmz : 0 <= Zpos (7036874417766400 * m) < 2 ^ 106).
    { rewrite Pos2Z.inj_mul. split; [lia|].
      change (2 ^ 106) with (2 ^ 53 * 2 ^ 53).
      assert (7036874417766400 < 2 ^ 53) by reflexivity. nia. }
    pose proof (binary_round_aux_finite false
                  (Zpos (7036874417766400 * m)) (-46 + e) 106) as Hfin.
    destruct (binary_round_aux Py.prec Py.emax false
                               (Zpos (7036874417766400 * m))
                               (-46 + e) loc_Exact)
      as [s | s | | s m' e'] eqn:Er.
    + exists 0. split; [reflexivity | lia].
    + exfalso. apply Hfin; [lia | exact Hmz | lia].
    + exfalso. apply Hfin; [lia | exact Hmz | lia].
    + assert (s = false).
      { unfold binary_round_aux in Er.
        destruct (shr_fexp Py.prec Py.emax _ _ _) as [a b] in Er.
        destruct (shr_fexp Py.prec Py.emax _ _ _) as [c d] in Er.
        destruct (shr_m c); try discriminate.
        destruct (d <=? Py.emax - Py.prec); inversion Er. reflexivity. }
      subst s. eexists. split; [reflexivity|].
      rewrite Z.shiftl_nonneg. lia.
Qed.

End FloatFacts.

(** ** The monad *)

Lemma bind_run {A B} (c : M A) (k : A -> M B) w x w' :
  c w = (inr x, w') -> bind c k w = k x w'.
Proof. intro H. unfold bind. now rewrite H. Qed.

Lemma bind_raise {A B} (c : M A) (k : A -> M B) w e w' :
  c w = (inl e, w') -> bind c k w = (inl e, w').
Proof. intro H. unfold bind. now rewrite H. Qed.

Lemma bind_assoc {A B C} (c : M A) (k : A -> M B) (k' : B -> M C) w :
  bind (bind c k) k' w = bind c (fun x => bind (k x) k') w.
Proof.
  unfold bind. destruct (c w) as [[e | x] w1]; [reflexivity|].
  destruct (k x w1) as [[e | y] w2]; reflexivity.
Qed.

Lemma bind_inr_inv {A B} (c : M A) (k : A -> M B) w y w' :
  bind c k w = (inr y, w') ->
  exists x w1, c w = (inr x, w1) /\ k x w1 = (inr y, w').
Proof.
  unfold bind. destruct (c w) as [[e | x] w1]; [discriminate|].
  intro H. now exists x, w1.
Qed.

Lemma bind_inl_inv {A B} (c : M A) (k : A -> M B) w e w' :
  bind c k w = (inl e, w') ->
  c w = (inl e, w') \/
  exists x w1, c w = (inr x, w1) /\ k x w1 = (inl e, w').
Proof.
  unfold bind. destruct (c w) as [[e1 | x] w1]; intro H.
  - left. now inversion H.
  - right. now exists x, w1.
Qed.

Lemma ret_run {A} (x : A) w : ret x w = (inr x, w).
Proof. reflexivity. Qed.

Lemma lift_run {A} (r : result A) (x : A) w :
  r = inr x -> lift r w = (inr x, w).
Proof. intros ->. reflexivity. Qed.

Lemma lift_raise {A} (r : result A) e w :
  r = inl e -> lift r w = (inl e, w).
Proof. intros ->. reflexivity. Qed.

Lemma advance_advance n1 e1 n2 e2 w :
  advance n2 e2 (advance n1 e1 w) = advance (n1 + n2) (e1 ++ e2) w.
Proof.
  unfold advance. simpl. f_equal; [lia | now rewrite app_assoc].
Qed.

Lemma advance_zero w : advance 0 [] w = w.
Proof.
  destruct w as [t tr nr h]. unfold advance. simpl.
  f_equal; [lia | apply app_nil_r].
Qed.

Lemma count_distort_app (a b : list event) :
  count_distort (a ++ b) = (count_distort a + count_distort b)%nat.
Proof. unfold count_distort. now rewrite filter_app, length_app. Qed.

Lemma count_distort_repeat (n : nat) : count_distort (repeat Distort n) = n.
Proof.
  induction n as [|n IH]; [reflexivity|].
  unfold count_distort in *. simpl. now rewrite IH.
Qed.

(** *** Which errors a computation can raise *)

Lemma only_raises_ret {A} P (x : A) : only_raises P (ret x).
Proof. intros w e w' H. discriminate. Qed.

Lemma only_raises_bind {A B} P (c : M A) (k : A -> M B) :
  only_raises P c -> (forall x, only_raises P (k x)) ->
  only_raises P (bind c k).
Proof.
  intros Hc Hk w e w' H. apply bind_inl_inv in H.
  destruct H as [H | (x & w1 & _ & H)]; [eapply Hc | eapply Hk]; eauto.
Qed.

Lemma only_raises_lift {A} (P : error -> Prop) (r : result A) :
  (forall e, r = inl e -> P e) -> only_raises P (lift r).
Proof.
  intros Hr w e w' H. unfold lift in H. inversion H. now apply Hr.
Qed.

Lemma only_raises_raise {A} (P : error -> Prop) e :
  P e -> only_raises P (@raise A e).
Proof. intros He w e' w' H. unfold raise in H. now inversion H; subst. Qed.

Lemma only_raises_emit P ev : only_raises P (emit ev).
Proof. intros w e w' H. discriminate. Qed.

Lemma only_raises_draw P : only_raises P draw.
Proof. intros w e w' H. discriminate. Qed.

Lemma only_raises_dict_item {A} (P : error -> Prop) r
      (field : AugParams -> option A) key :
  P (KeyError key) -> only_raises P (dict_item r field key).
Proof.
  intros HP w e w' H. unfold dict_item, bind, read in H.
  destruct (field (heap w r)); [discriminate|].
  unfold raise in H. now inversion H; subst.
Qed.

Lemma only_raises_replicateM {A} P (c : M A) n :
  only_raises P c -> only_raises P (replicateM n c).
Proof.
  intro Hc. induction n as [|n IH]; cbn [replicateM].
  - apply only_raises_ret.
  - apply only_raises_bind; [exact Hc|]. intro x.
    apply only_raises_bind; [exact IH|]. intro xs. apply only_raises_ret.
Qed.

Lemma only_raises_iterateM {A} P (f : A -> M A) n :
  (forall x, only_raises P (f x)) -> forall x, only_raises P (iterateM n f x).
Proof.
  intro Hf. induction n as [|n IH]; intro x; cbn [iterateM].
  - apply only_raises_ret.
  - apply only_raises_bind; [apply Hf | exact IH].
Qed.

Lemma only_raises_forM {A S} P (body : A -> S -> M S) l :
  (forall i acc, only_raises P (body i acc)) ->
  forall acc, only_raises P (forM l body acc).
Proof.
  intro Hb. induction l as [|i l IH]; intro acc; cbn [forM].
  - apply only_raises_ret.
  - apply only_raises_bind; [apply Hb | exact IH].
Qed.

(** ** Shapes, broadcasting and the element-wise operators *)

Lemma dtype_eqb_eq (a b : dtype) : dtype_eqb a b = true <-> a = b.
Proof. destruct a, b; cbn; split; congruence. Qed.

Lemma dtype_eqb_refl (a : dtype) : dtype_eqb a a = true.
Proof. now destruct a. Qed.

Lemma in_bounds_length idx : forall shape,
  in_bounds idx shape -> List.length idx = List.length shape.
Proof.
  unfold in_bounds.
  induction idx as [|i idx IH]; intros [|n shape] H; cbn in *;
    try discriminate; [reflexivity|].
  apply andb_true_iff in H. destruct H as [_ H]. f_equal. now apply IH.
Qed.

Lemma in_bounds_app idx1 idx2 : forall s1 s2,
  in_bounds idx1 s1 -> in_bounds idx2 s2 ->
  in_bounds (idx1 ++ idx2)%list (s1 ++ s2)%list.
Proof.
  unfold in_bounds.
  induction idx1 as [|i idx1 IH]; intros [|n s1] s2 H1 H2; cbn in *;
    try discriminate; [exact H2|].
  apply andb_true_iff in H1. destruct H1 as [Hi H1].
  apply andb_true_iff. split; [exact Hi | now apply IH].
Qed.

Lemma combine_same_index idx : forall shape,
  in_bounds idx shape ->
  map (fun ni : nat * nat => if (fst ni =? 1)%nat then 0%nat else snd ni)
      (combine shape idx) = idx.
Proof.
  unfold in_bounds.
  induction idx as [|i idx IH]; intros [|n shape] H; cbn in *;
    try discriminate; [reflexivity|].
  apply andb_true_iff in H. destruct H as [Hi H].
  rewrite (IH shape H). f_equal.
  destruct (n =? 1)%nat eqn:E; [|reflexivity].
  apply Nat.eqb_eq in E. apply Nat.ltb_lt in Hi. lia.
Qed.

(** An operand that has the shape of the result is read at the index
    itself. *)
Lemma broadcast_index_same idx shape :
  in_bounds idx shape -> broadcast_index shape idx = idx.
Proof.
  intro H. unfold broadcast_index.
  rewrite (in_bounds_length _ _ H), Nat.sub_diag. cbn [skipn].
  now apply combine_same_index.
Qed.

Lemma skipn_last (l : list nat) :
  l <> [] -> skipn (List.length l - 1) l = [last l 0%nat].
Proof.
  induction l as [|a l IH]; [congruence|]. intros _.
  destruct l as [|b l]; [reflexivity|].
  replace (List.length (a :: b :: l) - 1)%nat
    with (S (List.length (b :: l) - 1)) by (cbn [List.length]; lia).
  cbn [skipn]. rewrite IH by discriminate. reflexivity.
Qed.

(** A per-channel constant is read at the channel of the index. *)
Lemma broadcast_index_channel idx outer :
  in_bounds idx (outer ++ [3%nat])%list ->
  broadcast_index [3%nat] idx = [channel idx].
Proof.
  intro H. unfold broadcast_index, channel.
  assert (Hlen : List.length idx = (List.length outer + 1)%nat).
  { rewrite (in_bounds_length _ _ H), length_app. reflexivity. }
  cbn [List.length]. rewrite skipn_last.
  - reflexivity.
  - intros ->. cbn in Hlen. lia.
Qed.

Lemma broadcast_rev_nil (a : list nat) : broadcast_rev a [] = Some a.
Proof. now destruct a. Qed.

Lemma broadcast_rev_same (a : list nat) : broadcast_rev a a = Some a.
Proof.
  induction a as [|x a IH]; [reflexivity|].
  cbn [broadcast_rev]. now rewrite IH, Nat.eqb_refl.
Qed.

Lemma broadcast_shapes_same (s : list nat) : broadcast_shapes s s = Some s.
Proof.
  unfold broadcast_shapes. rewrite broadcast_rev_same. cbn.
  now rewrite rev_involutive.
Qed.

Lemma broadcast_shapes_scalar (s : list nat) : broadcast_shapes [] s = Some s.
Proof.
  unfold broadcast_shapes. cbn. now rewrite rev_involutive.
Qed.

Lemma broadcast_shapes_channel (outer : list nat) :
  broadcast_shapes (outer ++ [3%nat])%list [3%nat] =
  Some (outer ++ [3%nat])%list.
Proof.
  unfold broadcast_shapes. rewrite rev_app_distr. cbn [rev app broadcast_rev].
  rewrite broadcast_rev_nil. cbn. now rewrite rev_involutive.
Qed.

(** An operator on two [float32] tensors of one shape acts entry by
    entry. *)
Lemma binary_op_same (f : Q -> Q -> Q) (a b : tensor) shape fa fb :
  has_entries a shape fa -> has_entries b shape fb ->
  exists t, binary_op f a b = inr t /\
            has_entries t shape (fun idx => f (fa idx) (fb idx)).
Proof.
  intros (Hda & Hsa & Ha) (Hdb & Hsb & Hb).
  unfold binary_op. rewrite Hda, Hdb, Hsa, Hsb. cbn [dtype_eqb].
  rewrite broadcast_shapes_same.
  eexists. split; [reflexivity|].
  split; [reflexivity|]. split; [reflexivity|].
  intros idx Hidx. cbn [tat].
  rewrite (broadcast_index_same _ _ Hidx).
  now rewrite (Ha idx Hidx), (Hb idx Hidx).
Qed.

(** An operator on a [float32] scalar and a [float32] tensor. *)
Lemma binary_op_scalar (f : Q -> Q -> Q) (q : Q) (b : tensor) shape fb :
  has_entries b shape fb ->
  exists t, binary_op f (scalar q) b = inr t /\
            has_entries t shape (fun idx => f q (fb idx)).
Proof.
  intros (Hdb & Hsb & Hb).
  unfold binary_op. cbn [tdtype tshape scalar].
  rewrite Hdb, Hsb. cbn [dtype_eqb].
  rewrite broadcast_shapes_scalar.
  eexists. split; [reflexivity|].
  split; [reflexivity|]. split; [reflexivity|].
  intros idx Hidx. cbn [tat].
  rewrite (broadcast_index_same _ _ Hidx).
  now rewrite (Hb idx Hidx).
Qed.

Lemma binary_op_errors (f : Q -> Q -> Q) (a b : tensor) e :
  binary_op f a b = inl e -> is_runtime_error e.
Proof.
  unfold binary_op.
  destruct (dtype_eqb _ _); [destruct (broadcast_shapes _ _)|];
    intro H; inversion H; exact I.
Qed.

(** ** [normalize_convert_image] *)

Lemma convert_image_shape (image : tensor) (d : dtype) :
  tshape (convert_image_dtype image d) = tshape image.
Proof.
  unfold convert_image_dtype.
  repeat match goal with
         | |- context [if ?c then _ else _] => destruct c
         end; reflexivity.
Qed.

Lemma convert_image_dtype_is (image : tensor) (d : dtype) :
  tdtype (convert_image_dtype image d) = d.
Proof.
  unfold convert_image_dtype.
  destruct (dtype_eqb d (tdtype image)) eqn:E.
  - apply dtype_eqb_eq in E. now rewrite E.
  - repeat match goal with
           | |- context [if ?c then _ else _] => destruct c
           end; reflexivity.
Qed.

(** In [float32], on an image of three channels, [normalize_convert_image]
    returns a [float32] tensor of the shape of the image with the entries
    [(x - mean[channel]) / std[channel]] of the converted image. *)
Lemma normalize_float32_entries (image : tensor) :
  three_channels image ->
  exists t, normalize_convert_image image float32 = inr t /\
            has_entries t (tshape image)
              (fun idx =>
                 (tat (convert_image_dtype image float32) idx -
                  tat mean [channel idx]) / tat std [channel idx]).
Proof.
  intros (outer & Hs). unfold normalize_convert_image, tsub, tdiv, binary_op.
  rewrite convert_image_dtype_is, convert_image_shape, Hs.
  cbn [tdtype tshape mean std constant dtype_eqb List.length].
  rewrite broadcast_shapes_channel. cbn [tdtype tshape dtype_eqb].
  rewrite broadcast_shapes_channel.
  eexists. split; [reflexivity|].
  split; [reflexivity|]. split; [reflexivity|].
  intros idx Hidx. cbn [tat mean std constant].
  rewrite (broadcast_index_same _ _ Hidx).
  rewrite (broadcast_index_same _ _ Hidx).
  rewrite (broadcast_index_channel _ _ Hidx).
  reflexivity.
Qed.

Lemma normalize_float32 (image : tensor) :
  three_channels image ->
  exists t, normalize_convert_image image float32 = inr t /\
            has_entries t (tshape image) (tat (normalized image)).
Proof.
  intro H. destruct (normalize_float32_entries image H)
    as (t & Hrun & Hd & Hs & _).
  exists t. split; [exact Hrun|]. unfold normalized. rewrite Hrun.
  split; [exact Hd|]. split; [exact Hs|]. reflexivity.
Qed.

Lemma normalize_float32_run (image : tensor) :
  three_channels image ->
  normalize_convert_image image float32 = inr (normalized image).
Proof.
  intro H. destruct (normalize_float32_entries image H) as (t & Hrun & _).
  unfold normalized. now rewrite Hrun.
Qed.

Lemma normalized_shape (image : tensor) :
  three_channels image ->
  tdtype (normalized image) = float32 /\
  tshape (normalized image) = tshape image.
Proof.
  intro H. destruct (normalize_float32_entries image H)
    as (t & Hrun & Hd & Hs & _).
  unfold normalized. rewrite Hrun. now split.
Qed.

(** The entries of the normalized image. *)
Lemma normalized_at (image : tensor) (idx : index) :
  three_channels image -> in_bounds idx (tshape image) ->
  tat (normalized image) idx =
  (tat (convert_image_dtype image float32) idx - tat mean [channel idx]) /
  tat std [channel idx].
Proof.
  intros H Hidx. destruct (normalize_float32_entries image H)
    as (t & Hrun & _ & _ & Hat).
  unfold normalized. rewrite Hrun. now apply Hat.
Qed.

(** In every other dtype the subtraction of the [float32] mean is
    rejected. *)
Lemma normalize_dtype_mismatch (image : tensor) (d : dtype) :
  d <> float32 -> normalize_convert_image image d = inl DtypeMismatch.
Proof.
  intro Hd. unfold normalize_convert_image, tsub, binary_op.
  rewrite convert_image_dtype_is. cbn [tdtype mean constant].
  destruct d; try reflexivity. congruence.
Qed.

Lemma normalize_errors (image : tensor) (d : dtype) e :
  normalize_convert_image image d = inl e -> is_runtime_error e.
Proof.
  unfold normalize_convert_image.
  destruct (tsub _ mean) as [e1 | t] eqn:E.
  - intro H. inversion H; subst. eapply binary_op_errors. exact E.
  - apply binary_op_errors.
Qed.

Lemma zeros_entries (image : tensor) :
  has_entries (tcast (zeros_like image) float32) (tshape image) (fun _ => 0).
Proof.
  split; [reflexivity|]. split; [reflexivity|].
  intros idx _. cbn [tat tcast zeros_like tdtype is_integer is_floating negb].
  now rewrite andb_false_r.
Qed.

(** ** The collaborators *)

Section RuntimeFacts.

Variable rt : runtime.

Lemma distort_run image w :
  distort rt image w =
  (inr (distorted rt (tape w) image), advance 1 [Distort] w).
Proof.
  unfold distort, bind, emit, draw, ret, advance. simpl.
  repeat f_equal. lia.
Qed.

(** A chain of [n] distortions consumes [n] tape cells and logs [n]
    calls of the augmenter. *)
Lemma chain_run n : forall image w,
  iterateM n (distort rt) image w =
  (inr (chain rt (tape w) n image), advance n (repeat Distort n) w).
Proof.
  induction n as [|n IH]; intros image w; simpl.
  - unfold ret. now rewrite advance_zero.
  - unfold bind. rewrite distort_run, IH, advance_advance.
    simpl. repeat f_equal. lia.
Qed.

Lemma chain_shape n : forall t image,
  tshape (chain rt t n image) = tshape image.
Proof.
  induction n as [|n IH]; intros t image; cbn [chain]; [reflexivity|].
  now rewrite IH.
Qed.

Lemma chain_three_channels n t image :
  three_channels image -> three_channels (chain rt t n image).
Proof. unfold three_channels. now rewrite chain_shape. Qed.

Lemma sample_beta_run a b w :
  sample_beta rt a b w =
  (inr (beta_at rt (tape w) a b), advance 1 [SampleBeta a b] w).
Proof.
  unfold sample_beta, bind, emit, draw, ret, advance. simpl.
  repeat f_equal. lia.
Qed.

Lemma sample_dirichlet_run conc w :
  sample_dirichlet rt conc w =
  (inr (map (dirichlet_at rt (tape w) conc) (seq 0 (List.length conc))),
   advance 1 [SampleDirichlet conc] w).
Proof.
  unfold sample_dirichlet, bind, emit, draw, ret, advance. simpl.
  repeat f_equal. lia.
Qed.

Lemma random_uniform_run n lo hi w :
  (0 <= n)%Z ->
  random_uniform rt n lo hi w =
  (inr (map (uniform_int_at rt (tape w) lo hi) (Py.range n)),
   advance 1 [SampleUniform n lo hi] w).
Proof.
  intro Hn. unfold random_uniform.
  destruct (n <? 0)%Z eqn:E; [apply Z.ltb_lt in E; lia|].
  unfold bind, emit, draw, ret, advance. simpl.
  repeat f_equal. lia.
Qed.

Lemma random_uniform_rejects n lo hi w :
  (n < 0)%Z -> random_uniform rt n lo hi w = (inl ShapeMismatch, w).
Proof.
  intro Hn. unfold random_uniform.
  apply Z.ltb_lt in Hn. now rewrite Hn.
Qed.

End RuntimeFacts.

(** ** The mixing loop *)

Lemma cells_before_between len n : forall k,
  cells_before len (k + n) = (cells_before len k + cells_between len k n)%nat.
Proof.
  induction n as [|n IH]; intro k; simpl.
  - now rewrite !Nat.add_0_r.
  - replace (k + S n)%nat with (S k + n)%nat by lia.
    rewrite IH. simpl. lia.
Qed.

(** The entries that the loop accumulates, as a sum. *)
Lemma fold_mix_at (b : nat -> Q) (x : nat -> index -> Q) (idx : index) :
  forall (l : list nat) (f : index -> Q),
    fold_left (fun f i => fun idx => f idx + b i * x i idx) l f idx ==
    f idx + Qsum (map (fun i => b i * x i idx) l).
Proof.
  induction l as [|i l IH]; intro f; simpl.
  - ring.
  - rewrite IH. ring.
Qed.

Section MixFacts.

Variable rt : runtime.

Lemma mix_loop_run (bw : list Q) (depths : list Z) (image : tensor)
      (t0 : nat) :
  three_channels image ->
  let len := fun i => Z.to_nat (nth i depths 0%Z) in
  forall n k mix f w,
    tape w = (t0 + cells_before len k)%nat ->
    has_entries mix (tshape image) f ->
    exists mix',
      forM (seq k n)
           (fun i mix =>
              branch_img <- iterateM (len i) (distort rt) (identity image) ;;
              branch_img <- lift (normalize_convert_image branch_img float32) ;;
              weighted <- lift (tmul (scalar (nth i bw 0)) branch_img) ;;
              lift (tadd mix weighted))
           mix w =
      (inr mix',
       advance (cells_between len k n)
               (repeat Distort (cells_between len k n)) w) /\
      has_entries mix' (tshape image)
        (fold_left
           (fun f i => fun idx =>
              f idx +
              nth i bw 0 * tat (normalized (branch rt t0 len image i)) idx)
           (seq k n) f).
Proof.
  intros Himg len. unfold identity.
  induction n as [|n IH]; intros k mix f w Ht Hmix.
  - exists mix. cbn [seq forM cells_between repeat fold_left].
    unfold ret. now rewrite advance_zero.
  - cbn [seq forM cells_between fold_left].
    rewrite bind_assoc.
    rewrite (bind_run _ _ _ _ _ (chain_run rt (len k) image w)).
    destruct (normalize_float32 (chain rt (tape w) (len k) image))
      as (nb & Hnb & Hnbe); [now apply chain_three_channels|].
    rewrite chain_shape in Hnbe.
    rewrite bind_assoc.
    rewrite (bind_run _ _ _ _ _ (lift_run _ _ _ Hnb)).
    destruct (binary_op_scalar Qmult (nth k bw 0) nb _ _ Hnbe)
      as (wt & Hwt & Hwte).
    rewrite bind_assoc.
    rewrite (bind_run _ _ _ _ _ (lift_run _ _ _ Hwt)).
    destruct (binary_op_same Qplus mix wt _ _ _ Hmix Hwte)
      as (mix1 & Hmix1 & Hmix1e).
    rewrite (bind_run _ _ _ _ _ (lift_run _ _ _ Hmix1)).
    assert (Ht' : tape (advance (len k) (repeat Distort (len k)) w) =
                  (t0 + cells_before len (S k))%nat).
    { unfold advance. cbn [tape cells_before]. rewrite Ht. lia. }
    rewrite Ht in Hmix1e.
    destruct (IH (S k) mix1 _ _ Ht' Hmix1e) as (mix' & Hrun & Hent).
    exists mix'. split.
    + rewrite Hrun, advance_advance, repeat_app. reflexivity.
    + exact Hent.
Qed.

(** One call of [augment_and_mix] in [float32] on an image of three
    channels: it returns, its entries are the two-level mixture, its shape
    is the shape of the input, and the world moves past the samples and the
    distortions. *)
Lemma augment_and_mix_run image depth width prob_coeff w :
  three_channels image ->
  ((depth < 0)%Z -> (0 <= width)%Z) ->
  exists out,
    augment_and_mix rt image depth width prob_coeff float32 w =
    (inr out,
     advance (mix_cells rt w depth width)
             (mix_events rt w depth width prob_coeff) w) /\
    tdtype out = float32 /\
    tshape out = tshape image /\
    forall idx,
      in_bounds idx (tshape image) ->
      tat out idx ==
      mix_weight_of rt w prob_coeff *
      branch_sum rt w image depth width prob_coeff idx +
      (1 - mix_weight_of rt w prob_coeff) * tat (normalized image) idx.
Proof.
  intros Himg Hwidth.
  unfold augment_and_mix.
  rewrite (bind_run _ _ _ _ _ (sample_beta_run _ _ _ w)).
  set (w1 := advance 1 [SampleBeta prob_coeff prob_coeff] w).
  assert (Hbw : exists evs,
    (if (1 <? width)%Z
     then sample_dirichlet rt (Py.replicate prob_coeff width)
     else ret [1]) w1 =
    (inr (branch_weights_of rt w width prob_coeff),
     advance (if (1 <? width)%Z then 2 else 1) evs w) /\
    evs = ([SampleBeta prob_coeff prob_coeff] ++
           (if (1 <? width)%Z
            then [SampleDirichlet (Py.replicate prob_coeff width)]
            else []))%list).
  { eexists. split; [|reflexivity].
    unfold branch_weights_of, tape_after_weights.
    destruct (1 <? width)%Z.
    - rewrite sample_dirichlet_run. unfold w1.
      rewrite advance_advance. unfold Py.replicate at 2.
      rewrite repeat_length. cbn [tape advance].
      replace (tape w + 1)%nat with (S (tape w)) by lia.
      reflexivity.
    - reflexivity. }
  destruct Hbw as (evs1 & Hbw & Hevs1).
  rewrite (bind_run _ _ _ _ _ Hbw).
  set (w2 := advance (if (1 <? width)%Z then 2 else 1) evs1 w) in *.
  assert (Ht2 : tape w2 = tape_after_weights w width).
  { unfold w2, advance, tape_after_weights. simpl.
    destruct (1 <? width)%Z; lia. }
  assert (Hd : exists evs,
    (if (depth <? 0)%Z
     then random_uniform rt width 1 4
     else ret (Py.replicate depth width)) w2 =
    (inr (depths_of rt w depth width),
     advance (sample_cells depth width) evs w) /\
    evs = (evs1 ++
           (if (depth <? 0)%Z then [SampleUniform width 1 4] else []))%list).
  { eexists. split; [|reflexivity].
    unfold depths_of, tape_after_depths, sample_cells.
    destruct (depth <? 0)%Z eqn:Edepth.
    - rewrite random_uniform_run
        by (apply Hwidth; now apply Z.ltb_lt).
      rewrite Ht2. unfold w2.
      rewrite advance_advance. repeat f_equal.
      destruct (1 <? width)%Z; lia.
    - unfold ret, w2. rewrite app_nil_r. repeat f_equal.
      destruct (1 <? width)%Z; lia. }
  destruct Hd as (evs2 & Hd & Hevs2).
  rewrite (bind_run _ _ _ _ _ Hd).
  set (w3 := advance (sample_cells depth width) evs2 w) in *.
  assert (Ht3 : tape w3 =
                (tape_after_depths w depth width +
                 cells_before (chain_length rt w depth width) 0)%nat).
  { unfold w3, advance, tape_after_depths, tape_after_weights,
      sample_cells. simpl.
    destruct (depth <? 0)%Z; destruct (1 <? width)%Z; lia. }
  unfold Py.range at 1.
  destruct (mix_loop_run (branch_weights_of rt w width prob_coeff)
              (depths_of rt w depth width) image
              (tape_after_depths w depth width) Himg
              (Z.to_nat width) 0%nat
              (tcast (zeros_like image) float32) (fun _ => 0) w3 Ht3
              (zeros_entries image))
    as (mix & Hloop & Hmix).
  cbv zeta in Hloop.
  rewrite (bind_run _ _ _ _ _ Hloop).
  destruct (binary_op_scalar Qmult (mix_weight_of rt w prob_coeff) mix _ _
                             Hmix) as (mixed & Hmixed & Hmixede).
  unfold mix_weight_of in Hmixed.
  rewrite (bind_run _ _ _ _ _ (lift_run _ _ _ Hmixed)).
  destruct (normalize_float32 image Himg) as (orig & Horig & Horige).
  rewrite (bind_run _ _ _ _ _ (lift_run _ _ _ Horig)).
  destruct (binary_op_scalar Qmult (1 - mix_weight_of rt w prob_coeff)
                             orig _ _ Horige) as (orig' & Horig' & Horige').
  unfold mix_weight_of in Horig'.
  rewrite (bind_run _ _ _ _ _ (lift_run _ _ _ Horig')).
  destruct (binary_op_same Qplus mixed orig' _ _ _ Hmixede Horige')
    as (out & Hout & Hdt & Hsh & Hat).
  exists out. split; [|split; [exact Hdt | split; [exact Hsh|]]].
  - rewrite (lift_run _ _ _ Hout). f_equal. unfold w3.
    rewrite advance_advance. unfold mix_cells, mix_events.
    fold (chain_length rt w depth width).
    f_equal. subst evs2 evs1. now rewrite <- !app_assoc.
  - intros idx Hidx. rewrite (Hat idx Hidx).
    rewrite fold_mix_at.
    unfold branch_sum, branch_image, Py.range, chain_length.
    ring.
Qed.

(** In a dtype other than [float32], [augment_and_mix] fails: the
    normalization is rejected. *)
Lemma augment_and_mix_errors image depth width prob_coeff d :
  only_raises is_runtime_error
              (augment_and_mix rt image depth width prob_coeff d).
Proof.
  unfold augment_and_mix.
  apply only_raises_bind.
  { unfold sample_beta. apply only_raises_bind; [apply only_raises_emit|].
    intros _. apply only_raises_bind; [apply only_raises_draw|].
    intro. apply only_raises_ret. }
  intro mw. apply only_raises_bind.
  { destruct (1 <? width)%Z; [|apply only_raises_ret].
    unfold sample_dirichlet.
    apply only_raises_bind; [apply only_raises_emit|].
    intros _. apply only_raises_bind; [apply only_raises_draw|].
    intro. apply only_raises_ret. }
  intro bw. apply only_raises_bind.
  { destruct (depth <? 0)%Z; [|apply only_raises_ret].
    unfold random_uniform. destruct (width <? 0)%Z.
    - now apply only_raises_raise.
    - apply only_raises_bind; [apply only_raises_emit|].
      intros _. apply only_raises_bind; [apply only_raises_draw|].
      intro. apply only_raises_ret. }
  intro depths. apply only_raises_bind.
  { apply only_raises_forM. intros i acc.
    apply only_raises_bind.
    { apply only_raises_iterateM. intro x. unfold distort.
      apply only_raises_bind; [apply only_raises_emit|].
      intros _. apply only_raises_bind; [apply only_raises_draw|].
      intro. apply only_raises_ret. }
    intro b. apply only_raises_bind.
    { apply only_raises_lift. apply normalize_errors. }
    intro nb. apply only_raises_bind.
    { apply only_raises_lift. apply binary_op_errors. }
    intro wt. apply only_raises_lift. apply binary_op_errors. }
  intro mix. apply only_raises_bind.
  { apply only_raises_lift. apply binary_op_errors. }
  intro mixed. apply only_raises_bind.
  { apply only_raises_lift. apply normalize_errors. }
  intro orig. apply only_raises_bind.
  { apply only_raises_lift. apply binary_op_errors. }
  intro orig'. apply only_raises_lift. apply binary_op_errors.
Qed.

End MixFacts.

(** ** Sums, minima and maxima of rationals *)

Lemma map_nth_seq {A} (d : A) (l : list A) :
  map (fun i => nth i l d) (seq 0 (List.length l)) = l.
Proof.
  induction l as [|a l IH]; [reflexivity|].
  simpl. f_equal. rewrite <- seq_shift, map_map. exact IH.
Qed.

Lemma weighted_sum_lower (b x : nat -> Q) (m : Q) (l : list nat) :
  (forall i, In i l -> 0 <= b i) ->
  (forall i, In i l -> m <= x i) ->
  m * Qsum (map b l) <= Qsum (map (fun i => b i * x i) l).
Proof.
  induction l as [|i l IH]; intros Hb Hx; simpl.
  - lra.
  - assert (H1 : 0 <= b i) by (apply Hb; now left).
    assert (H2 : m <= x i) by (apply Hx; now left).
    assert (H3 : m * Qsum (map b l) <= Qsum (map (fun i => b i * x i) l)).
    { apply IH; intros j Hj; [apply Hb | apply Hx]; now right. }
    assert (H4 : 0 <= b i * (x i - m)).
    { apply Qmult_le_0_compat; lra. }
    lra.
Qed.

Lemma weighted_sum_upper (b x : nat -> Q) (m : Q) (l : list nat) :
  (forall i, In i l -> 0 <= b i) ->
  (forall i, In i l -> x i <= m) ->
  Qsum (map (fun i => b i * x i) l) <= m * Qsum (map b l).
Proof.
  induction l as [|i l IH]; intros Hb Hx; simpl.
  - lra.
  - assert (H1 : 0 <= b i) by (apply Hb; now left).
    assert (H2 : x i <= m) by (apply Hx; now left).
    assert (H3 : Qsum (map (fun i => b i * x i) l) <= m * Qsum (map b l)).
    { apply IH; intros j Hj; [apply Hb | apply Hx]; now right. }
    assert (H4 : 0 <= b i * (m - x i)).
    { apply Qmult_le_0_compat; lra. }
    lra.
Qed.

Lemma fold_min_le (l : list Q) : forall x y,
  y = x \/ In y l -> fold_left Qmin l x <= y.
Proof.
  induction l as [|a l IH]; intros x y [Hy | Hy]; simpl.
  - subst. apply Qle_refl.
  - destruct Hy.
  - subst y. apply Qle_trans with (Qmin x a); [|apply Q.le_min_l].
    apply IH. now left.
  - destruct Hy as [Hy | Hy].
    + subst y. apply Qle_trans with (Qmin x a); [|apply Q.le_min_r].
      apply IH. now left.
    + apply IH. now right.
Qed.

Lemma fold_max_ge (l : list Q) : forall x y,
  y = x \/ In y l -> y <= fold_left Qmax l x.
Proof.
  induction l as [|a l IH]; intros x y [Hy | Hy]; simpl.
  - subst. apply Qle_refl.
  - destruct Hy.
  - subst y. apply Qle_trans with (Qmax x a); [apply Q.le_max_l|].
    apply IH. now left.
  - destruct Hy as [Hy | Hy].
    + subst y. apply Qle_trans with (Qmax x a); [apply Q.le_max_r|].
      apply IH. now left.
    + apply IH. now right.
Qed.

Lemma Qlist_min_le (l : list Q) (y : Q) : In y l -> Qlist_min l <= y.
Proof.
  destruct l as [|x l]; [intros []|]. intros [H | H]; apply fold_min_le; auto.
Qed.

Lemma Qlist_max_ge (l : list Q) (y : Q) : In y l -> y <= Qlist_max l.
Proof.
  destruct l as [|x l]; [intros []|]. intros [H | H]; apply fold_max_ge; auto.
Qed.

Lemma convex_pair (t a b lo hi : Q) :
  0 <= t -> t <= 1 -> lo <= a -> a <= hi -> lo <= b -> b <= hi ->
  lo <= t * a + (1 - t) * b /\ t * a + (1 - t) * b <= hi.
Proof.
  intros Ht0 Ht1 Ha1 Ha2 Hb1 Hb2.
  assert (H1 : 0 <= t * (a - lo)) by (apply Qmult_le_0_compat; lra).
  assert (H2 : 0 <= (1 - t) * (b - lo)) by (apply Qmult_le_0_compat; lra).
  assert (H3 : 0 <= t * (hi - a)) by (apply Qmult_le_0_compat; lra).
  assert (H4 : 0 <= (1 - t) * (hi - b)) by (apply Qmult_le_0_compat; lra).
  split; lra.
Qed.

Lemma Qsum_scaled (b : nat -> Q) (c : Q) (l : list nat) :
  Qsum (map (fun i => b i * c) l) == c * Qsum (map b l).
Proof.
  induction l as [|i l IH]; simpl; [ring|]. rewrite IH. ring.
Qed.

(** ** Chain lengths *)

Lemma cells_before_const (len : nat -> nat) (c : nat) : forall i,
  (forall j, (j < i)%nat -> len j = c) ->
  cells_before len i = (i * c)%nat.
Proof.
  induction i as [|i IH]; intro H; simpl; [reflexivity|].
  rewrite IH by (intros j Hj; apply H; lia).
  rewrite (H i) by lia. lia.
Qed.

Lemma cells_between_from_zero (len : nat -> nat) (n : nat) :
  cells_between len 0 n = cells_before len n.
Proof.
  pose proof (cells_before_between len n 0) as H. simpl in H. lia.
Qed.

Lemma nth_map_seq {A} (f : nat -> A) (d : A) (n i : nat) :
  (i < n)%nat -> nth i (map f (seq 0 n)) d = f i.
Proof.
  intro Hi.
  rewrite (nth_indep _ d (f 0%nat)) by (now rewrite length_map, length_seq).
  rewrite map_nth, seq_nth by exact Hi. reflexivity.
Qed.

Section ChainFacts.

Variable rt : runtime.

Lemma chain_length_fixed w depth width i :
  (0 <= depth)%Z -> (i < Z.to_nat width)%nat ->
  chain_length rt w depth width i = Z.to_nat depth.
Proof.
  intros Hd Hi. unfold chain_length, depths_of.
  destruct (depth <? 0)%Z eqn:E; [apply Z.ltb_lt in E; lia|].
  unfold Py.replicate. now rewrite nth_repeat_lt.
Qed.

Lemma chain_length_sampled w depth width i :
  (depth < 0)%Z -> (i < Z.to_nat width)%nat ->
  chain_length rt w depth width i =
  Z.to_nat (uniform_int_at rt (tape_after_weights w width) 1 4 i).
Proof.
  intros Hd Hi. unfold chain_length, depths_of.
  destruct (depth <? 0)%Z eqn:E; [|apply Z.ltb_ge in E; lia].
  unfold Py.range. now rewrite nth_map_seq.
Qed.

Lemma count_distort_mix_events w depth width prob_coeff :
  count_distort (mix_events rt w depth width prob_coeff) =
  cells_between (chain_length rt w depth width) 0 (Z.to_nat width).
Proof.
  unfold mix_events. rewrite !count_distort_app, count_distort_repeat.
  destruct (1 <? width)%Z; destruct (depth <? 0)%Z; reflexivity.
Qed.

Lemma branch_weights_length w width prob_coeff :
  (1 <= width)%Z ->
  List.length (branch_weights_of rt w width prob_coeff) = Z.to_nat width.
Proof.
  intro Hw. unfold branch_weights_of.
  destruct (1 <? width)%Z eqn:E.
  - now rewrite length_map, length_seq.
  - apply Z.ltb_ge in E. assert (width = 1%Z) by lia. now subst.
Qed.

End ChainFacts.

(** ** Claims about [augment_and_mix] *)

(** C3.  For every image of three channels and every width >= 1,
    [augment_and_mix] in [float32] returns
    [mix_weight * (sum over the branches i of branch_weights[i] *
    normalize(branch_i)) + (1 - mix_weight) * normalize(image)], entry by
    entry, where [mix_weight] is the Beta sample, [branch_weights] is the
    Dirichlet sample when [width > 1] and is exactly [[1]] when
    [width = 1], and [normalize] is [normalize_convert_image] in
    [float32], which returns on the image and on every branch image. *)
Theorem augment_and_mix_is_two_level_mixture
        (rt : runtime) (image : tensor) (depth width : Z) (prob_coeff : Q)
        (w : world) :
  (1 <= width)%Z ->
  three_channels image ->
  exists out w',
    augment_and_mix rt image depth width prob_coeff float32 w = (inr out, w') /\
    trace w' = (trace w ++ mix_events rt w depth width prob_coeff)%list /\
    mix_weight_of rt w prob_coeff = beta_at rt (tape w) prob_coeff prob_coeff /\
    (width = 1%Z -> branch_weights_of rt w width prob_coeff = [1]) /\
    ((1 < width)%Z ->
     branch_weights_of rt w width prob_coeff =
     map (dirichlet_at rt (S (tape w)) (Py.replicate prob_coeff width))
         (seq 0 (Z.to_nat width)) /\
     In (SampleDirichlet (Py.replicate prob_coeff width)) (trace w')) /\
    List.length (branch_weights_of rt w width prob_coeff) = Z.to_nat width /\
    normalize_convert_image image float32 = inr (normalized image) /\
    (forall i,
        normalize_convert_image (branch_image rt w image depth width i)
                                float32 =
        inr (normalized (branch_image rt w image depth width i))) /\
    tdtype out = float32 /\
    tshape out = tshape image /\
    forall idx,
      in_bounds idx (tshape image) ->
      tat out idx ==
      mix_weight_of rt w prob_coeff *
      Qsum (map (fun i =>
                   nth i (branch_weights_of rt w width prob_coeff) 0 *
                   tat (normalized (branch_image rt w image depth width i))
                       idx)
                (Py.range width)) +
      (1 - mix_weight_of rt w prob_coeff) * tat (normalized image) idx.
Proof.
  intros Hw Himg.
  destruct (augment_and_mix_run rt image depth width prob_coeff w Himg)
    as (out & Hrun & Hdt & Hsh & Hat); [lia|].
  exists out. eexists. split; [exact Hrun|].
  split; [reflexivity|]. split; [reflexivity|].
  split; [|split; [|split; [|split; [|split; [|split; [|split]]]]]].
  - intros ->. reflexivity.
  - intro Hlt. unfold branch_weights_of, mix_events.
    apply Z.ltb_lt in Hlt. rewrite Hlt. split; [reflexivity|].
    cbn [trace advance]. apply in_or_app. right. simpl. right. now left.
  - now apply branch_weights_length.
  - now apply normalize_float32_run.
  - intro i. apply normalize_float32_run.
    unfold branch_image, branch. now apply chain_three_channels.
  - exact Hdt.
  - exact Hsh.
  - exact Hat.
Qed.

Lemma augment_and_mix_is_two_level_mixture_witness :
  exists out w',
    augment_and_mix toy_runtime gray_image 1 2 1 float32 empty_world =
    (inr out, w') /\
    forall idx,
      in_bounds idx [32; 32; 3]%nat ->
      tat out idx ==
      (1 # 2) *
      Qsum (map (fun i =>
                   nth i (branch_weights_of toy_runtime empty_world 2 1) 0 *
                   tat (normalized
                          (branch_image toy_runtime empty_world gray_image
                                        1 2 i)) idx)
                (Py.range 2)) +
      (1 - (1 # 2)) * tat (normalized gray_image) idx.
Proof.
  destruct (augment_and_mix_is_two_level_mixture
              toy_runtime gray_image 1 2 1 empty_world)
    as (out & w' & Hrun & _ & _ & _ & _ & _ & _ & _ & _ & _ & Hat).
  - lia.
  - exists [32; 32]%nat. reflexivity.
  - exists out, w'. split; [exact Hrun | exact Hat].
Defined.

(** C4.  In [float32], on an image of three channels: with [depth >= 0]
    each of the [width] branches applies the augmenter exactly [depth]
    times in sequence to the original image.  With [depth < 0] (and a
    [width] that is not negative, which the sampler requires) the chain
    length of branch [i] is entry [i] of one draw of
    [tf.random.uniform([width], minval=1, maxval=4)]: an integer among
    1, 2, 3 whenever the sampler answers within its bounds. *)
Theorem branch_chain_lengths
        (rt : runtime) (image : tensor) (depth width : Z) (prob_coeff : Q)
        (w : world) :
  three_channels image ->
  ((depth < 0)%Z -> (0 <= width)%Z) ->
  exists out w',
    augment_and_mix rt image depth width prob_coeff float32 w = (inr out, w') /\
    (forall idx,
        in_bounds idx (tshape image) ->
        tat out idx ==
        mix_weight_of rt w prob_coeff *
        branch_sum rt w image depth width prob_coeff idx +
        (1 - mix_weight_of rt w prob_coeff) * tat (normalized image) idx) /\
    (forall i,
        branch_image rt w image depth width i =
        chain rt (tape_after_depths w depth width +
                  cells_before (chain_length rt w depth width) i)
              (chain_length rt w depth width i) image) /\
    count_distort (trace w') =
    (count_distort (trace w) +
     cells_before (chain_length rt w depth width) (Z.to_nat width))%nat /\
    ((0 <= depth)%Z ->
     (forall i, (i < Z.to_nat width)%nat ->
                chain_length rt w depth width i = Z.to_nat depth /\
                branch_image rt w image depth width i =
                chain rt (tape_after_depths w depth width + i * Z.to_nat depth)
                      (Z.to_nat depth) image) /\
     count_distort (trace w') =
     (count_distort (trace w) + Z.to_nat width * Z.to_nat depth)%nat) /\
    ((depth < 0)%Z ->
     In (SampleUniform width 1 4) (trace w') /\
     forall i, (i < Z.to_nat width)%nat ->
               let u := uniform_int_at rt (tape_after_weights w width) 1 4 i in
               chain_length rt w depth width i = Z.to_nat u /\
               ((1 <= u < 4)%Z ->
                chain_length rt w depth width i = 1%nat \/
                chain_length rt w depth width i = 2%nat \/
                chain_length rt w depth width i = 3%nat)).
Proof.
  intros Himg Hwidth.
  destruct (augment_and_mix_run rt image depth width prob_coeff w Himg Hwidth)
    as (out & Hrun & _ & _ & Hat).
  exists out. eexists. split; [exact Hrun|].
  split; [exact Hat|]. split; [reflexivity|].
  assert (Hcount :
    count_distort
      (trace (advance (mix_cells rt w depth width)
                      (mix_events rt w depth width prob_coeff) w)) =
    (count_distort (trace w) +
     cells_before (chain_length rt w depth width) (Z.to_nat width))%nat).
  { cbn [trace advance].
    now rewrite count_distort_app, count_distort_mix_events,
      cells_between_from_zero. }
  split; [exact Hcount|]. split.
  - intro Hd.
    assert (Hlen : forall j, (j < Z.to_nat width)%nat ->
                             chain_length rt w depth width j = Z.to_nat depth).
    { intros j Hj. now apply chain_length_fixed. }
    split.
    + intros i Hi. split; [now apply Hlen|].
      unfold branch_image, branch. rewrite (Hlen i Hi).
      rewrite (cells_before_const _ (Z.to_nat depth))
        by (intros j Hj; apply Hlen; lia).
      reflexivity.
    + rewrite Hcount. now rewrite (cells_before_const _ (Z.to_nat depth)).
  - intro Hd. split.
    + cbn [trace advance]. unfold mix_events.
      apply Z.ltb_lt in Hd. rewrite Hd.
      apply in_or_app. right. apply in_or_app. right.
      apply in_or_app. right. apply in_or_app. left. now left.
    + intros i Hi u.
      assert (Hu : chain_length rt w depth width i = Z.to_nat u)
        by now apply chain_length_sampled.
      split; [exact Hu|]. intro Hr. rewrite Hu. lia.
Qed.

Lemma branch_chain_lengths_witness :
  exists out w',
    augment_and_mix toy_runtime gray_image (-1) 3 1 float32 empty_world =
    (inr out, w') /\
    In (SampleUniform 3 1 4) (trace w') /\
    count_distort (trace w') = 6%nat.
Proof.
  destruct (branch_chain_lengths toy_runtime gray_image (-1) 3 1 empty_world)
    as (out & w' & Hrun & _ & _ & Hcount & _ & Hneg).
  - exists [32; 32]%nat. reflexivity.
  - lia.
  - exists out, w'. split; [exact Hrun|].
    split; [apply Hneg; lia|].
    rewrite Hcount. reflexivity.
Defined.

(** C7.  In [float32], on an image of three channels: when the sampled mix
    weight lies in [0,1] and the sampled branch weights are non-negative
    and sum to 1, every entry of the output of [augment_and_mix] lies
    between the minimum and the maximum of that entry over the normalized
    original image and the normalized branch images. *)
Theorem augment_and_mix_within_hull
        (rt : runtime) (image : tensor) (depth width : Z) (prob_coeff : Q)
        (w : world) :
  (1 <= width)%Z ->
  three_channels image ->
  in_unit (mix_weight_of rt w prob_coeff) ->
  (forall b, In b (branch_weights_of rt w width prob_coeff) -> 0 <= b) ->
  Qsum (branch_weights_of rt w width prob_coeff) == 1 ->
  exists out w',
    augment_and_mix rt image depth width prob_coeff float32 w = (inr out, w') /\
    tshape out = tshape image /\
    forall idx,
      in_bounds idx (tshape image) ->
      Qlist_min (contributing rt w image depth width idx) <= tat out idx /\
      tat out idx <= Qlist_max (contributing rt w image depth width idx).
Proof.
  intros Hw Himg [Hm0 Hm1] Hpos Hsum.
  destruct (augment_and_mix_run rt image depth width prob_coeff w Himg)
    as (out & Hrun & _ & Hsh & Hat); [lia|].
  exists out. eexists. split; [exact Hrun|]. split; [exact Hsh|].
  intros idx Hidx.
  set (bw := branch_weights_of rt w width prob_coeff) in *.
  set (x := fun i => tat (normalized (branch_image rt w image depth width i))
                         idx).
  set (x0 := tat (normalized image) idx).
  set (vals := contributing rt w image depth width idx).
  assert (Hx0 : In x0 vals) by (now left).
  assert (Hxi : forall i, In i (Py.range width) -> In (x i) vals).
  { intros i Hi. right. now apply (in_map x). }
  assert (Hlen : List.length bw = Z.to_nat width)
    by now apply branch_weights_length.
  assert (Hb : forall i, In i (Py.range width) -> 0 <= nth i bw 0).
  { intros i Hi. apply Hpos. apply nth_In.
    apply in_seq in Hi. lia. }
  assert (Hone : Qsum (map (fun i => nth i bw 0) (Py.range width)) == 1).
  { unfold Py.range. rewrite <- Hlen, map_nth_seq. exact Hsum. }
  pose proof (weighted_sum_lower (fun i => nth i bw 0) x (Qlist_min vals)
                (Py.range width) Hb
                (fun i Hi => Qlist_min_le _ _ (Hxi i Hi))) as Hlo.
  pose proof (weighted_sum_upper (fun i => nth i bw 0) x (Qlist_max vals)
                (Py.range width) Hb
                (fun i Hi => Qlist_max_ge _ _ (Hxi i Hi))) as Hhi.
  rewrite Hone in Hlo, Hhi.
  pose proof (Qlist_min_le _ _ Hx0) as Hlo0.
  pose proof (Qlist_max_ge _ _ Hx0) as Hhi0.
  rewrite (Hat idx Hidx). unfold branch_sum. fold bw. fold x0.
  change (fun i => nth i bw 0 *
                   tat (normalized (branch_image rt w image depth width i))
                       idx)
    with (fun i => nth i bw 0 * x i).
  apply convex_pair; lra.
Qed.

Lemma augment_and_mix_within_hull_witness :
  exists out w',
    augment_and_mix toy_runtime gray_image 1 2 1 float32 empty_world =
    (inr out, w') /\
    tshape out = [32; 32; 3]%nat /\
    forall idx,
      in_bounds idx [32; 32; 3]%nat ->
      Qlist_min (contributing toy_runtime empty_world gray_image 1 2 idx)
      <= tat out idx /\
      tat out idx <=
      Qlist_max (contributing toy_runtime empty_world gray_image 1 2 idx).
Proof.
  apply (augment_and_mix_within_hull
           toy_runtime gray_image 1 2 1 empty_world).
  - lia.
  - exists [32; 32]%nat. reflexivity.
  - split; vm_compute; discriminate.
  - intros b Hb. vm_compute in Hb.
    destruct Hb as [<- | [<- | []]]; vm_compute; discriminate.
  - vm_compute. reflexivity.
Defined.

(** ** Running [preprocess] *)

Lemma update_same r p h : update r p h r = p.
Proof. unfold update. now rewrite Nat.eqb_refl. Qed.

Lemma update_other r r' p h : r' <> r -> update r p h r' = h r'.
Proof.
  intro H. unfold update. apply Nat.eqb_neq in H. now rewrite H.
Qed.

Lemma dict_get_run {A} r (field : AugParams -> option A) default w :
  dict_get r field default w = (inr (get_or (field (heap w r)) default), w).
Proof. reflexivity. Qed.

Lemma dict_contains_run {A} r (field : AugParams -> option A) w :
  dict_contains r field w = (inr (has_key (field (heap w r))), w).
Proof. reflexivity. Qed.

Lemma dict_item_present {A} r (field : AugParams -> option A) key v w :
  field (heap w r) = Some v -> dict_item r field key w = (inr v, w).
Proof. intro H. unfold dict_item, bind, read. now rewrite H. Qed.

Lemma dict_item_absent {A} r (field : AugParams -> option A) key w :
  field (heap w r) = None ->
  dict_item r field key w = (inl (KeyError key), w).
Proof. intro H. unfold dict_item, bind, read. now rewrite H. Qed.


Lemma replicate_distort_run (rt : runtime) (image : tensor) (n : nat) :
  forall w,
    replicateM n (distort rt image) w =
    (inr (map (fun i => distorted rt (tape w + i) image) (seq 0 n)),
     advance n (repeat Distort n) w).
Proof.
  induction n as [|n IH]; intro w.
  - cbn [replicateM seq map repeat]. unfold ret. now rewrite advance_zero.
  - cbn [replicateM].
    rewrite (bind_run _ _ _ _ _ (distort_run rt image w)).
    rewrite (bind_run _ _ _ _ _ (IH _)).
    unfold ret. rewrite advance_advance.
    cbn [seq map]. rewrite <- seq_shift, map_map, Nat.add_0_r.
    f_equal. f_equal. f_equal. apply map_ext. intro i.
    cbn [tape advance]. f_equal. lia.
Qed.

Section PreprocessFacts.

Variable rt : runtime.

(** The padding, the crop and the flip of the train split, on a colour
    image. *)
Lemma crop_and_flip_run image h wd w :
  rgb_image image ->
  (image <- lift (resize_with_crop_or_pad rt image (h + 4) (wd + 4)) ;;
   image <- random_crop rt image (h, wd, 3%nat) ;;
   random_flip_left_right rt image) w =
  (inr (crop_and_flip rt image (h, wd, 3%nat) w), advance 2 [] w).
Proof.
  intros (H & W & Hs).
  unfold resize_with_crop_or_pad. rewrite Hs.
  cbn [Nat.ltb Nat.leb andb].
  rewrite (bind_run _ _ _ _ _ (lift_run _ _ w eq_refl)).
  unfold random_crop. cbn [tshape].
  assert (Hh : (h <=? h + 4)%nat = true) by (apply Nat.leb_le; lia).
  assert (Hw : (wd <=? wd + 4)%nat = true) by (apply Nat.leb_le; lia).
  rewrite Hh, Hw. cbn [Nat.leb andb].
  unfold random_flip_left_right, bind, draw, ret, advance, crop_and_flip.
  cbn [tape trace next_ref heap tdtype tshape]. rewrite Hs. cbn [nth].
  f_equal.
  - f_equal. f_equal. f_equal. lia.
  - f_equal; [lia | now rewrite app_nil_r].
Qed.

Lemma crop_and_flip_shape image h wd w :
  tshape (crop_and_flip rt image (h, wd, 3%nat) w) = [h; wd; 3%nat] /\
  tdtype (crop_and_flip rt image (h, wd, 3%nat) w) = tdtype image.
Proof. split; reflexivity. Qed.

Lemma distort_keeps_heap image w :
  exists x w', distort rt image w = (inr x, w') /\ heap w' = heap w.
Proof. eexists. eexists. split; [apply distort_run | reflexivity]. Qed.




(** The crop, flip and RandAugment stage of the train split. *)
Lemma train_stage_run (random_augment : bool) r image h wd w :
  rgb_image image ->
  (random_augment = true -> exists count, aug_count (heap w r) = Some count) ->
  let base := crop_and_flip rt image (h, wd, 3%nat) w in
  exists image1 w1,
    (image <- lift (resize_with_crop_or_pad rt image (h + 4) (wd + 4)) ;;
     image <- random_crop rt image (h, wd, 3%nat) ;;
     image <- random_flip_left_right rt image ;;
     if random_augment
     then
       count <- dict_item r aug_count "aug_count" ;;
       augmented <- replicateM (Z.to_nat count) (distort rt image) ;;
       ret (stack augmented)
     else ret image) w = (inr image1, w1) /\
    heap w1 = heap w /\
    (random_augment = false ->
     image1 = base /\ w1 = advance 2 [] w) /\
    (random_augment = true ->
     forall count,
       aug_count (heap w r) = Some count ->
       image1 = stack (map (fun i => distorted rt (tape w + 2 + i) base)
                           (seq 0 (Z.to_nat count))) /\
       w1 = advance (2 + Z.to_nat count)
                    (repeat Distort (Z.to_nat count)) w).
Proof.
  intros Himg Hcount base.
  assert (Hsplit : forall (k : tensor -> M tensor),
    (image <- lift (resize_with_crop_or_pad rt image (h + 4) (wd + 4)) ;;
     image <- random_crop rt image (h, wd, 3%nat) ;;
     image <- random_flip_left_right rt image ;;
     k image) w = k base (advance 2 [] w)).
  { intro k.
    assert (H3 :
      (image <- (image <- lift (resize_with_crop_or_pad rt image (h + 4)
                                                        (wd + 4)) ;;
                 image <- random_crop rt image (h, wd, 3%nat) ;;
                 random_flip_left_right rt image) ;;
       k image) w = k base (advance 2 [] w)).
    { apply bind_run. apply crop_and_flip_run. exact Himg. }
    rewrite bind_assoc in H3.
    rewrite <- H3. unfold bind.
    destruct (lift _ w) as [[e | x] w0]; [reflexivity|].
    destruct (random_crop rt x (h, wd, 3%nat) w0) as [[e | y] w0'];
      reflexivity. }
  rewrite Hsplit.
  destruct random_augment.
  - destruct (Hcount eq_refl) as (count & Hc).
    rewrite (bind_run _ _ _ _ _
               (dict_item_present r aug_count "aug_count" count
                                  (advance 2 [] w) Hc)).
    rewrite (bind_run _ _ _ _ _ (replicate_distort_run rt _ _ _)).
    eexists. eexists. split; [reflexivity|].
    split; [reflexivity|]. split; [discriminate|].
    intros _ count' Hc'.
    assert (count' = count) by congruence. subst count'.
    split.
    + reflexivity.
    + rewrite advance_advance. reflexivity.
  - eexists. eexists. split; [reflexivity|]. split; [reflexivity|].
    split; [split; reflexivity | discriminate].
Qed.

Lemma train_stage_missing_count r image h wd w :
  rgb_image image ->
  aug_count (heap w r) = None ->
  (image <- lift (resize_with_crop_or_pad rt image (h + 4) (wd + 4)) ;;
   image <- random_crop rt image (h, wd, 3%nat) ;;
   image <- random_flip_left_right rt image ;;
   count <- dict_item r aug_count "aug_count" ;;
   augmented <- replicateM (Z.to_nat count) (distort rt image) ;;
   ret (stack augmented)) w =
  (inl (KeyError "aug_count"), advance 2 [] w).
Proof.
  intros Himg Hc.
  assert (H3 :
    (image <- (image <- lift (resize_with_crop_or_pad rt image (h + 4)
                                                      (wd + 4)) ;;
               image <- random_crop rt image (h, wd, 3%nat) ;;
               random_flip_left_right rt image) ;;
     count <- dict_item r aug_count "aug_count" ;;
     augmented <- replicateM (Z.to_nat count) (distort rt image) ;;
     ret (stack augmented)) w =
    (inl (KeyError "aug_count"), advance 2 [] w)).
  { rewrite (bind_run _ _ _ _ _ (crop_and_flip_run image h wd w Himg)).
    apply bind_raise. now apply dict_item_absent. }
  rewrite bind_assoc in H3. rewrite <- H3. unfold bind.
  destruct (lift _ w) as [[e | x] w0]; [reflexivity|].
  destruct (random_crop rt x (h, wd, 3%nat) w0) as [[e | y] w0'];
    reflexivity.
Qed.

(** On a split other than the train split [preprocess] normalizes and
    casts, and reads no key of the config. *)
Lemma preprocess_eval split image_shape random_augment r d normalize
      onehot num_classes image label w :
  split <> TRAIN ->
  preprocess rt split image_shape random_augment r d normalize onehot
             num_classes image label w =
  (match (if normalize then normalize_convert_image image d else inr image)
   with
   | inr image' => inr (image', cast_label label d)
   | inl e => inl e
   end, w).
Proof.
  intro Hs. apply String.eqb_neq in Hs.
  unfold preprocess. rewrite Hs. cbn [andb].
  unfold bind, ret, lift. destruct normalize; [|reflexivity].
  now destruct (normalize_convert_image image d).
Qed.

(** On the train split a config without the key [augmix] makes
    [preprocess] fail with a [KeyError]. *)
Lemma preprocess_train_without_augmix h wd random_augment r d
      normalize onehot num_classes image label w :
  rgb_image image ->
  augmix (heap w r) = None ->
  exists key w',
    preprocess rt TRAIN (h, wd, 3%nat) random_augment r d normalize onehot
               num_classes image label w = (inl (KeyError key), w') /\
    (key = "augmix" \/ key = "aug_count") /\
    (random_augment = false \/ aug_count (heap w r) <> None ->
     key = "augmix").
Proof.
  intros Himg Ha. unfold preprocess. rewrite String.eqb_refl.
  destruct random_augment eqn:Era;
    [destruct (aug_count (heap w r)) as [count|] eqn:Ec|].
  - destruct (train_stage_run true r image h wd w Himg) as
        (image1 & w1 & Hst & Hheap & _); [intros _; now exists count|].
    rewrite (bind_run _ _ _ _ _ Hst).
    exists "augmix", w1. split.
    + apply bind_raise. apply dict_item_absent. now rewrite Hheap.
    + split; [now left | reflexivity].
  - pose proof (train_stage_missing_count r image h wd w Himg Ec) as Hst.
    exists "aug_count". eexists. split.
    + apply bind_raise. exact Hst.
    + split; [now right|]. intros [H | H]; [discriminate | congruence].
  - destruct (train_stage_run false r image h wd w Himg) as
        (image1 & w1 & Hst & Hheap & _); [discriminate|].
    rewrite (bind_run _ _ _ _ _ Hst).
    exists "augmix", w1. split.
    + apply bind_raise. apply dict_item_absent. now rewrite Hheap.
    + split; [now left | reflexivity].
Qed.


(** With [random_augment] set and [aug_count] absent, the [KeyError] of
    [preprocess] on the train split names [aug_count]. *)
Lemma train_stage_missing_count_key h wd r d normalize onehot num_classes
      image label w key w' :
  rgb_image image ->
  aug_count (heap w r) = None ->
  preprocess rt TRAIN (S h, S wd, 3%nat) true r d normalize onehot
             num_classes image label w = (inl (KeyError key), w') ->
  key = "aug_count".
Proof.
  intros Himg Hc Hrun. unfold preprocess in Hrun.
  rewrite String.eqb_refl in Hrun.
  rewrite (bind_raise _ _ _ _ _
             (train_stage_missing_count r image (S h) (S wd) w Himg Hc))
    in Hrun.
  now inversion Hrun.
Qed.


(** On the train split with [augmix] switched off, [preprocess] returns
    the image of the crop, flip and RandAugment stage, normalized when
    asked to, and the encoded label. *)
Lemma preprocess_train_plain h wd random_augment r d normalize
      onehot num_classes image label w :
  rgb_image image ->
  augmix (heap w r) = Some false ->
  (random_augment = true -> exists count, aug_count (heap w r) = Some count) ->
  let base := crop_and_flip rt image (h, wd, 3%nat) w in
  exists image1 w',
    (random_augment = false -> image1 = base /\ w' = advance 2 [] w) /\
    (random_augment = true ->
     forall count,
       aug_count (heap w r) = Some count ->
       image1 = stack (map (fun i => distorted rt (tape w + 2 + i) base)
                           (seq 0 (Z.to_nat count))) /\
       w' = advance (2 + Z.to_nat count)
                    (repeat Distort (Z.to_nat count)) w) /\
    preprocess rt TRAIN (h, wd, 3%nat) random_augment r d normalize onehot
               num_classes image label w =
    (match (if normalize then normalize_convert_image image1 d
            else inr image1) with
     | inr image' =>
         inr (image',
              if onehot then one_hot label num_classes
              else cast_label label d)
     | inl e => inl e
     end, w').
Proof.
  intros Himg Ha Hcount base. unfold preprocess. rewrite String.eqb_refl.
  destruct (train_stage_run random_augment r image h wd w Himg Hcount) as
      (image1 & w1 & Hst & Hheap & Hplain & Haug).
  rewrite (bind_run _ _ _ _ _ Hst).
  rewrite <- Hheap in Ha.
  rewrite (bind_run _ _ _ _ _ (dict_item_present r _ _ _ w1 Ha)).
  exists image1, w1. split; [exact Hplain|]. split.
  - intros Hra count Hc. apply (Haug Hra count Hc).
  - cbn [andb]. unfold bind, ret, lift. destruct normalize; [|reflexivity].
    now destruct (normalize_convert_image image1 d).
Qed.

(** Whatever [preprocess] returns, its label is the encoded label. *)
Lemma preprocess_label split image_shape random_augment r d normalize
      onehot num_classes image label w image' label' w' :
  preprocess rt split image_shape random_augment r d normalize onehot
             num_classes image label w = (inr (image', label'), w') ->
  label' = if (split =? TRAIN)%string && onehot
           then one_hot label num_classes
           else cast_label label d.
Proof.
  unfold preprocess. intro H.
  apply bind_inr_inv in H. destruct H as (x1 & w1 & _ & H).
  apply bind_inr_inv in H. destruct H as (x2 & w2 & _ & H).
  apply bind_inr_inv in H. destruct H as (x3 & w3 & _ & H).
  unfold ret in H. now inversion H.
Qed.

(** *** The errors of [preprocess] *)

Lemma resize_errors image height width e :
  resize_with_crop_or_pad rt image height width = inl e ->
  is_runtime_error e.
Proof.
  unfold resize_with_crop_or_pad.
  destruct (tshape image) as [|a [|b [|c [|d [|x l]]]]];
    try (intro H; inversion H; exact I);
    destruct (_ && _); intro H; inversion H; exact I.
Qed.

Lemma only_raises_distort P image : only_raises P (distort rt image).
Proof.
  unfold distort. apply only_raises_bind; [apply only_raises_emit|].
  intros _. apply only_raises_bind; [apply only_raises_draw|].
  intro. apply only_raises_ret.
Qed.

Lemma random_crop_errors image size :
  only_raises is_runtime_error (random_crop rt image size).
Proof.
  unfold random_crop. destruct size as [[h wd] c].
  destruct (tshape image) as [|a [|b [|c' [|x l]]]];
    try (now apply only_raises_raise).
  destruct (_ && _); [|now apply only_raises_raise].
  apply only_raises_bind; [apply only_raises_draw|].
  intro. apply only_raises_ret.
Qed.

Lemma augmix_errors image r d :
  only_raises is_runtime_error (_augmix rt image r d).
Proof.
  unfold _augmix.
  apply only_raises_bind; [now apply only_raises_dict_item|]. intro depth.
  apply only_raises_bind; [now apply only_raises_dict_item|]. intro width.
  apply only_raises_bind; [now apply only_raises_dict_item|]. intro pc.
  apply only_raises_bind; [now apply only_raises_dict_item|]. intro count.
  apply only_raises_bind.
  { apply only_raises_replicateM. apply augment_and_mix_errors. }
  intro augmented. apply only_raises_bind.
  { apply only_raises_lift. apply normalize_errors. }
  intro. apply only_raises_ret.
Qed.

(** [preprocess] fails only with a missing key or an error of the tensor
    runtime. *)
Lemma preprocess_errors split image_shape random_augment r d normalize
      onehot num_classes image label :
  only_raises is_runtime_error
              (preprocess rt split image_shape random_augment r d normalize
                          onehot num_classes image label).
Proof.
  unfold preprocess. destruct image_shape as [[h wd] c].
  apply only_raises_bind.
  { destruct (split =? TRAIN)%string; [|apply only_raises_ret].
    apply only_raises_bind.
    { apply only_raises_lift. apply resize_errors. }
    intro x. apply only_raises_bind; [apply random_crop_errors|].
    intro y. apply only_raises_bind.
    { unfold random_flip_left_right.
      apply only_raises_bind; [apply only_raises_draw|].
      intro. apply only_raises_ret. }
    intro z. destruct random_augment; [|apply only_raises_ret].
    apply only_raises_bind; [now apply only_raises_dict_item|].
    intro count. apply only_raises_bind.
    { apply only_raises_replicateM. apply only_raises_distort. }
    intro. apply only_raises_ret. }
  intro image1. apply only_raises_bind.
  { destruct (split =? TRAIN)%string; [|apply only_raises_ret].
    now apply only_raises_dict_item. }
  intro use_augmix. apply only_raises_bind.
  { destruct use_augmix; [apply augmix_errors|].
    destruct normalize; [|apply only_raises_ret].
    apply only_raises_lift. apply normalize_errors. }
  intro. apply only_raises_ret.
Qed.

End PreprocessFacts.

(** ** Running [load_dataset] *)

Section LoadFacts.

Variable rt : runtime.

(** The slice selection of [load_dataset] on its own: it loads the target,
    after the warning of a subset, or fails where [int] fails. *)
Lemma load_slice_run (split name : string) (proportion : Py.float)
      (validation_set : bool) (validation_proportion : Py.float) (w : world) :
  (if Py.float_eqb proportion Py.one
   then
     if validation_set
     then
       let new_name := (name ++ ":3.*.*")%string in
       if (split =? "validation")%string
       then
         percent <-
           lift (Py.int (Py.float_mul
                           Py.hundred
                           (Py.float_sub Py.one validation_proportion))) ;;
         let new_split := ("train[" ++ Py.str percent ++ "%:]")%string in
         tfds_load new_name new_split
       else if (split =? TRAIN)%string
       then
         percent <-
           lift (Py.int (Py.float_mul
                           Py.hundred
                           (Py.float_sub Py.one validation_proportion))) ;;
         let new_split := ("train[:" ++ Py.str percent ++ "%]")%string in
         tfds_load name "train[:95%]"
       else tfds_load name split
     else tfds_load name split
   else
     logging_warning
       "Subset of training dataset is being used without a validation set." ;;;
     let new_name := (name ++ ":3.*.*")%string in
     new_split <-
       (if (split =? TRAIN)%string
        then
          percent <- lift (Py.int (Py.float_mul Py.hundred proportion)) ;;
          ret ("train[:" ++ Py.str percent ++ "%]")%string
        else
          percent <- lift (Py.int (Py.float_mul Py.hundred proportion)) ;;
          ret ("test[:" ++ Py.str percent ++ "%]")%string) ;;
     tfds_load new_name new_split) w =
  (let warned :=
     if Py.float_eqb proportion Py.one then []
     else [LogWarning subset_warning] in
   match load_target split name proportion validation_set
                     validation_proportion with
   | inr target =>
       (inr (TfdsLoad (fst target) (snd target)),
        mkWorld (tape w)
                (trace w ++ warned ++
                 [CatalogLoad (fst target) (snd target)])%list
                (next_ref w) (heap w))
   | inl e =>
       (inl e,
        mkWorld (tape w) (trace w ++ warned)%list (next_ref w) (heap w))
   end).
Proof.
  unfold load_target, complement_percent, percent.
  destruct w as [t tr nr h].
  destruct (Py.float_eqb proportion Py.one).
  - destruct validation_set;
      [destruct (split =? "validation")%string;
       [|destruct (split =? TRAIN)%string]|];
      cbv [bind lift tfds_load emit ret];
      cbn [tape trace next_ref heap fst snd];
      try reflexivity;
      destruct (Py.int _); cbn [fst snd app]; rewrite ?app_nil_r;
      reflexivity.
  - cbv [bind lift logging_warning tfds_load emit ret].
    cbn [tape trace next_ref heap].
    destruct (split =? TRAIN)%string;
      destruct (Py.int _); cbn [fst snd tape trace next_ref heap];
      unfold subset_warning; rewrite <- ?app_assoc; reflexivity.
Qed.

Lemma pipeline_source info split batch_size drop_remainder target r p d
      normalize :
  source (pipeline rt info split batch_size drop_remainder target r p d
                   normalize) = target.
Proof.
  unfold pipeline.
  destruct (Py.ltb 0 (get_or (mixup_alpha p) 0) && (split =? TRAIN)%string);
    [destruct (get_or (adaptive_mixup p) false)|];
    destruct (split =? TRAIN)%string; cbn [source];
    now destruct target.
Qed.

Lemma pipeline_example_fn info split batch_size drop_remainder target r p d
      normalize :
  example_fn (pipeline rt info split batch_size drop_remainder target r p d
                       normalize) =
  Some (preprocess rt split (image_shape info)
                   (get_or (random_augment p) false) r d normalize
                   (wants_one_hot p) (num_classes info)).
Proof.
  unfold pipeline.
  destruct (Py.ltb 0 (get_or (mixup_alpha p) 0) && (split =? TRAIN)%string);
    [destruct (get_or (adaptive_mixup p) false)|];
    reflexivity.
Qed.

Lemma pipeline_stages info split batch_size drop_remainder target r p d
      normalize :
  stages (pipeline rt info split batch_size drop_remainder target r p d
                   normalize) =
  ([SLoad (fst target) (snd target)] ++
   (if (split =? TRAIN)%string
    then [SShuffle (train_num_examples info); SRepeat] else []) ++
   [SMap; SBatch batch_size drop_remainder] ++
   mixup_stage split batch_size r p ++ [SPrefetch])%list.
Proof.
  unfold pipeline, mixup_stage.
  destruct (Py.ltb 0 (get_or (mixup_alpha p) 0) && (split =? TRAIN)%string);
    [destruct (get_or (adaptive_mixup p) false)|];
    destruct (split =? TRAIN)%string; reflexivity.
Qed.

(** A call that passes the range checks: the catalog is queried, the
    config is read and completed, the slice is loaded and [preprocess] is
    traced; the call returns the pipeline when the percentage is computed
    and the trace succeeds. *)
Lemma load_dataset_run (split : string) (batch_size : Z) (name : string)
      (use_bfloat16 normalize drop_remainder : bool)
      (proportion : Py.float) (validation_set : bool)
      (validation_proportion : Py.float) (aug_params : option ref)
      (w : world) :
  in_range proportion -> in_range validation_proportion ->
  let info := builder_info rt name in
  let p := params_of aug_params w in
  let r := params_ref aug_params w in
  let d := if use_bfloat16 then bfloat16 else float32 in
  load_dataset rt split batch_size name use_bfloat16 normalize
               drop_remainder proportion validation_set
               validation_proportion aug_params w =
  match load_target split name proportion validation_set
                    validation_proportion with
  | inr target =>
      let w1 := world_after info (load_events name proportion target)
                            aug_params w in
      (match traced rt info split r p d normalize w1 with
       | inr _ => inr (pipeline rt info split batch_size drop_remainder
                                target r p d normalize)
       | inl e => inl e
       end, w1)
  | inl e =>
      (inl e, world_after info (events_before_load name proportion)
                          aug_params w)
  end.
Proof.
  intros Hp Hvp info p r d.
  apply range_check_passes in Hp, Hvp.
  unfold load_dataset. rewrite Hp, Hvp.
  unfold tfds_builder_info.
  unfold bind at 1. unfold bind at 1. unfold emit at 1, ret at 1.
  set (w1 := mkWorld (tape w) (trace w ++ [CatalogInfo name])
                     (next_ref w) (heap w)).
  fold info.
  set (h := match aug_params with
            | Some _ => heap w
            | None => update (next_ref w) empty_params (heap w)
            end).
  set (w2 := mkWorld (tape w) (trace w ++ [CatalogInfo name])
                     (match aug_params with
                      | Some _ => next_ref w
                      | None => S (next_ref w)
                      end) h).
  assert (Hal : match aug_params with
                | Some r => ret r
                | None => alloc empty_params
                end w1 = (inr r, w2)).
  { unfold r. destruct aug_params; reflexivity. }
  rewrite (bind_run _ _ _ _ _ Hal).
  assert (Hh : h r = p).
  { unfold h, r, p, params_ref, params_of.
    destruct aug_params; [reflexivity | apply update_same]. }
  rewrite (bind_run _ _ _ _ _ (dict_get_run r adaptive_mixup false w2)).
  rewrite (bind_run _ _ _ _ _ (dict_get_run r random_augment false w2)).
  rewrite (bind_run _ _ _ _ _ (dict_get_run r mixup_alpha 0 w2)).
  rewrite (bind_run _ _ _ _ _ (dict_get_run r ensemble_size 1%Z w2)).
  rewrite (bind_run _ _ _ _ _ (dict_get_run r label_smoothing 0 w2)).
  rewrite (bind_run _ _ _ _ _ (dict_contains_run r mixup_coeff w2)).
  change (heap w2 r) with (h r). rewrite Hh.
  fold (needs_coeff p).
  set (w3 := mkWorld (tape w) (trace w ++ [CatalogInfo name])
                     (next_ref w2) (heap_after_load info aug_params w)).
  assert (Hmod :
    (if needs_coeff p
     then modify r (set_mixup_coeff
                      (ones [Z.to_nat (get_or (ensemble_size p) 1%Z);
                             Z.to_nat (num_classes info)]))
     else ret tt) w2 = (inr tt, w3)).
  { unfold w3, heap_after_load. fold h. fold r. rewrite Hh.
    destruct (needs_coeff p).
    - unfold modify. cbn [heap tape trace next_ref w2].
      rewrite Hh. reflexivity.
    - reflexivity. }
  rewrite (bind_run _ _ _ _ _ Hmod).
  pose proof (load_slice_run split name proportion validation_set
                             validation_proportion w3) as Hslice.
  cbv zeta in Hslice.
  destruct (load_target split name proportion validation_set
                        validation_proportion) as [e | target].
  - rewrite (bind_raise _ _ _ _ _ Hslice).
    f_equal. unfold world_after, events_before_load, w3.
    cbn [tape trace next_ref heap w2]. f_equal.
    now rewrite <- !app_assoc.
  - rewrite (bind_run _ _ _ _ _ Hslice).
    cbv zeta.
    set (w4 := mkWorld _ _ _ _).
    assert (Hw4 : w4 = world_after info (load_events name proportion target)
                                   aug_params w).
    { unfold w4, world_after, load_events, events_before_load, w3.
      cbn [tape trace next_ref heap w2]. f_equal.
      now rewrite <- !app_assoc. }
    unfold bind at 1. unfold dataset_map at 1.
    unfold traced. fold info. fold p. fold (wants_one_hot p).
    rewrite <- Hw4. unfold d.
    match goal with
    | |- context [preprocess rt split ?s ?ra r ?dd normalize ?oh ?nc ?i ?l w4] =>
        destruct (preprocess rt split s ra r dd normalize oh nc i l w4)
          as [[e | out] w5]
    end.
    + reflexivity.
    + cbn [fst]. unfold ret, pipeline. fold info. fold p.
      reflexivity.
Qed.

(** A call that fails a range check raises before anything else. *)
Lemma load_dataset_rejects (split : string) (batch_size : Z) (name : string)
      (use_bfloat16 normalize drop_remainder : bool)
      (proportion : Py.float) (validation_set : bool)
      (validation_proportion : Py.float) (aug_params : option ref)
      (w : world) :
  out_of_range proportion \/ out_of_range validation_proportion ->
  exists e,
    load_dataset rt split batch_size name use_bfloat16 normalize
                 drop_remainder proportion validation_set
                 validation_proportion aug_params w = (inl e, w) /\
    is_range_error e.
Proof.
  intro H. unfold load_dataset.
  destruct (Py.float_ltb proportion Py.zero || Py.float_ltb Py.one proportion)
    eqn:Ep.
  - eexists. split; [reflexivity | now left].
  - destruct (Py.float_ltb validation_proportion Py.zero ||
              Py.float_ltb Py.one validation_proportion) eqn:Ev.
    + eexists. split; [reflexivity | now right].
    + apply range_check_passes in Ep, Ev. exfalso.
      destruct H as [H | H];
        [exact (not_in_and_out_of_range _ Ep H)
        | exact (not_in_and_out_of_range _ Ev H)].
Qed.

(** A call that returns has passed the range checks, has computed its
    slice and has traced [preprocess] without an error; it returns the
    pipeline on that slice. *)
Lemma load_dataset_returns (split : string) (batch_size : Z) (name : string)
      (use_bfloat16 normalize drop_remainder : bool)
      (proportion : Py.float) (validation_set : bool)
      (validation_proportion : Py.float) (aug_params : option ref)
      (w : world) ds w' :
  load_dataset rt split batch_size name use_bfloat16 normalize
               drop_remainder proportion validation_set
               validation_proportion aug_params w = (inr ds, w') ->
  let info := builder_info rt name in
  let p := params_of aug_params w in
  let r := params_ref aug_params w in
  let d := if use_bfloat16 then bfloat16 else float32 in
  in_range proportion /\ in_range validation_proportion /\
  exists target,
    load_target split name proportion validation_set validation_proportion =
    inr target /\
    w' = world_after info (load_events name proportion target) aug_params w /\
    ds = pipeline rt info split batch_size drop_remainder target r p d
                  normalize /\
    exists out, traced rt info split r p d normalize w' = inr out.
Proof.
  intros Hload info p r d.
  assert (Hr : in_range proportion /\ in_range validation_proportion).
  { destruct (in_or_out_of_range proportion) as [Hp | Hp];
      [destruct (in_or_out_of_range validation_proportion) as [Hvp | Hvp]|].
    - now split.
    - destruct (load_dataset_rejects split batch_size name use_bfloat16
                  normalize drop_remainder proportion validation_set
                  validation_proportion aug_params w (or_intror Hvp))
        as (e & He & _).
      rewrite He in Hload. discriminate.
    - destruct (load_dataset_rejects split batch_size name use_bfloat16
                  normalize drop_remainder proportion validation_set
                  validation_proportion aug_params w (or_introl Hp))
        as (e & He & _).
      rewrite He in Hload. discriminate. }
  destruct Hr as [Hp Hvp]. split; [exact Hp|]. split; [exact Hvp|].
  rewrite (load_dataset_run split batch_size name use_bfloat16 normalize
             drop_remainder proportion validation_set validation_proportion
             aug_params w Hp Hvp) in Hload.
  cbv zeta in Hload.
  destruct (load_target split name proportion validation_set
                        validation_proportion) as [e | target];
    [discriminate|].
  exists target. split; [reflexivity|].
  fold info p r d in Hload.
  destruct (traced rt info split r p d normalize
                   (world_after info (load_events name proportion target)
                                aug_params w)) as [e | out] eqn:Etr;
    [discriminate|].
  inversion Hload; subst. split; [reflexivity|]. split; [reflexivity|].
  now exists out.
Qed.

(** Every error of [load_dataset] is one of the two range errors, an
    error of [int], or an error of the trace of [preprocess]. *)
Lemma load_dataset_errors (split : string) (batch_size : Z) (name : string)
      (use_bfloat16 normalize drop_remainder : bool)
      (proportion : Py.float) (validation_set : bool)
      (validation_proportion : Py.float) (aug_params : option ref)
      (w : world) e w' :
  load_dataset rt split batch_size name use_bfloat16 normalize
               drop_remainder proportion validation_set
               validation_proportion aug_params w = (inl e, w') ->
  (is_range_error e /\ w' = w /\
   (out_of_range proportion \/ out_of_range validation_proportion)) \/
  (in_range proportion /\ in_range validation_proportion /\
   In (CatalogInfo name) (trace w') /\
   (load_target split name proportion validation_set validation_proportion =
    inl e \/ is_runtime_error e)).
Proof.
  intro Hload.
  destruct (in_or_out_of_range proportion) as [Hp | Hp];
    [destruct (in_or_out_of_range validation_proportion) as [Hvp | Hvp]|].
  - right. split; [exact Hp|]. split; [exact Hvp|].
    rewrite (load_dataset_run split batch_size name use_bfloat16 normalize
               drop_remainder proportion validation_set validation_proportion
               aug_params w Hp Hvp) in Hload.
    cbv zeta in Hload.
    destruct (load_target split name proportion validation_set
                          validation_proportion) as [e0 | target].
    + inversion Hload; subst. split; [|now left].
      cbn [trace world_after]. unfold events_before_load.
      apply in_or_app. right. now left.
    + match type of Hload with
      | (match ?t with _ => _ end, _) = _ => destruct t as [e1 | out] eqn:Etr
      end; [|discriminate].
      inversion Hload; subst. split.
      * cbn [trace world_after]. unfold load_events, events_before_load.
        apply in_or_app. right. now left.
      * right. unfold traced in Etr.
        match type of Etr with
        | fst (?c ?w0) = _ => destruct (c w0) as [res w5] eqn:Ec
        end.
        cbn [fst] in Etr. subst res.
        eapply preprocess_errors. exact Ec.
  - left.
    destruct (load_dataset_rejects split batch_size name use_bfloat16
                normalize drop_remainder proportion validation_set
                validation_proportion aug_params w (or_intror Hvp))
      as (e0 & He & Hre).
    rewrite He in Hload. inversion Hload; subst. auto.
  - left.
    destruct (load_dataset_rejects split batch_size name use_bfloat16
                normalize drop_remainder proportion validation_set
                validation_proportion aug_params w (or_introl Hp))
      as (e0 & He & Hre).
    rewrite He in Hload. inversion Hload; subst. auto.
Qed.

End LoadFacts.

(** ** The trace of [preprocess] in [dataset.map] *)

Lemma rgb_three_channels (image : tensor) :
  rgb_image image -> three_channels image.
Proof. intros (h & w & H). exists [S h; S w]. exact H. Qed.

Lemma element_spec_rgb (info : ds_info) :
  rgb_catalog info -> rgb_image (fst (element_spec info)).
Proof.
  intros (h & w & H). unfold element_spec. rewrite H. now exists h, w.
Qed.

Lemma needs_coeff_true (p : AugParams) :
  needs_coeff p = true <->
  get_or (adaptive_mixup p) false = true /\ mixup_coeff p = None.
Proof.
  unfold needs_coeff, has_key. rewrite andb_true_iff, negb_true_iff.
  destruct (mixup_coeff p); split; intros [H1 H2]; split;
    congruence || reflexivity.
Qed.

Lemma heap_after_load_at info aug_params w :
  heap_after_load info aug_params w (params_ref aug_params w) =
  params_after info (params_of aug_params w).
Proof.
  unfold heap_after_load, params_after.
  assert (H : match aug_params with
              | Some _ => heap w
              | None => update (next_ref w) empty_params (heap w)
              end (params_ref aug_params w) = params_of aug_params w).
  { destruct aug_params; [reflexivity | apply update_same]. }
  rewrite H. destruct (needs_coeff (params_of aug_params w)).
  - apply update_same.
  - exact H.
Qed.

Lemma heap_after_load_elsewhere info aug_params w r' :
  r' <> params_ref aug_params w ->
  heap_after_load info aug_params w r' = heap w r'.
Proof.
  intro Hne. unfold heap_after_load.
  assert (H : match aug_params with
              | Some _ => heap w
              | None => update (next_ref w) empty_params (heap w)
              end r' = heap w r').
  { destruct aug_params; [reflexivity|]. now apply update_other. }
  destruct (needs_coeff _); [|exact H].
  rewrite update_other by exact Hne. exact H.
Qed.

Lemma params_after_keeps_reads info p :
  augmix (params_after info p) = augmix p /\
  aug_count (params_after info p) = aug_count p /\
  augmix_depth (params_after info p) = augmix_depth p /\
  augmix_width (params_after info p) = augmix_width p /\
  augmix_prob_coeff (params_after info p) = augmix_prob_coeff p.
Proof.
  unfold params_after. destruct (needs_coeff p); repeat split; reflexivity.
Qed.

Section TraceFacts.

Variable rt : runtime.

(** On a split other than the train split the trace normalizes the
    catalog's image type, when asked to. *)
Lemma traced_eval info split r p d normalize w :
  split <> TRAIN ->
  traced rt info split r p d normalize w =
  match (if normalize
         then normalize_convert_image (fst (element_spec info)) d
         else inr (fst (element_spec info))) with
  | inr image' => inr (image', cast_label (snd (element_spec info)) d)
  | inl e => inl e
  end.
Proof.
  intro Hs. unfold traced. now rewrite preprocess_eval.
Qed.

Lemma traced_eval_returns info split r p d normalize w :
  split <> TRAIN ->
  normalize = false \/ (d = float32 /\ rgb_catalog info) ->
  exists out, traced rt info split r p d normalize w = inr out.
Proof.
  intros Hs Hn. rewrite traced_eval by exact Hs.
  destruct Hn as [-> | [-> Hinfo]].
  - eexists. reflexivity.
  - destruct normalize; [|eexists; reflexivity].
    rewrite normalize_float32_run
      by (apply rgb_three_channels; now apply element_spec_rgb).
    eexists. reflexivity.
Qed.

Lemma traced_eval_rejects info split r p d w :
  split <> TRAIN -> d <> float32 ->
  traced rt info split r p d true w = inl DtypeMismatch.
Proof.
  intros Hs Hd. rewrite traced_eval by exact Hs.
  now rewrite normalize_dtype_mismatch.
Qed.

(** On the train split the trace fails with a [KeyError] when the config
    lacks the key [augmix]. *)
Lemma traced_train_without_augmix info r p d normalize w :
  rgb_catalog info ->
  augmix (heap w r) = None ->
  exists key,
    traced rt info TRAIN r p d normalize w = inl (KeyError key) /\
    (key = "augmix" \/ key = "aug_count") /\
    (get_or (random_augment p) false = false \/
     aug_count (heap w r) <> None -> key = "augmix").
Proof.
  intros Hinfo Ha. pose proof (element_spec_rgb info Hinfo) as Himg.
  destruct Hinfo as (h & wd & Hshape).
  unfold traced. rewrite Hshape.
  destruct (preprocess_train_without_augmix
              rt (S h) (S wd) (get_or (random_augment p) false) r d normalize
              (wants_one_hot p) (num_classes info)
              (fst (element_spec info)) (snd (element_spec info)) w Himg Ha)
    as (key & w' & Hrun & Hkeys & Hkey).
  exists key. rewrite Hrun. auto.
Qed.

(** On the train split with [augmix] switched off the trace succeeds when
    the normalization does. *)
Lemma traced_train_plain info r p d normalize w :
  rgb_catalog info ->
  augmix (heap w r) = Some false ->
  (get_or (random_augment p) false = true ->
   exists count, aug_count (heap w r) = Some count /\
                 (normalize = true -> (1 <= count)%Z)) ->
  normalize = false \/ d = float32 ->
  exists out, traced rt info TRAIN r p d normalize w = inr out.
Proof.
  intros Hinfo Ha Hcount Hn.
  pose proof (element_spec_rgb info Hinfo) as Himg.
  destruct Hinfo as (h & wd & Hshape).
  unfold traced. rewrite Hshape.
  destruct (preprocess_train_plain
              rt (S h) (S wd) (get_or (random_augment p) false) r d normalize
              (wants_one_hot p) (num_classes info)
              (fst (element_spec info)) (snd (element_spec info)) w Himg Ha)
    as (image1 & w' & Hplain & Haug & Hrun).
  { intro Hra. destruct (Hcount Hra) as (count & Hc & _). now exists count. }
  rewrite Hrun. cbn [fst].
  destruct normalize; [|eexists; reflexivity].
  destruct Hn as [Hn | ->]; [discriminate|].
  assert (H3 : three_channels image1).
  { destruct (get_or (random_augment p) false) eqn:Era.
    - destruct (Hcount eq_refl) as (count & Hc & Hpos).
      destruct (Haug eq_refl count Hc) as [-> _].
      specialize (Hpos eq_refl).
      destruct (Z.to_nat count) as [|n] eqn:En; [lia|].
      exists [S n; S h; S wd].
      cbn [seq map stack tshape List.length distorted crop_and_flip].
      now rewrite length_map, length_seq.
    - destruct (Hplain eq_refl) as [-> _]. exists [S h; S wd]. reflexivity. }
  rewrite (normalize_float32_run image1 H3). eexists. reflexivity.
Qed.

End TraceFacts.

(** ** Claims about [load_dataset] *)

Lemma in_range_one : in_range Py.one.
Proof. split; reflexivity. Qed.

Lemma in_range_default : in_range default_validation_proportion.
Proof. split; reflexivity. Qed.

(** With a validation set and the whole dataset, the train split always
    loads the first 95 percent, whatever [validation_proportion] is. *)
Lemma train_with_validation_reads_95
      (rt : runtime) (batch_size : Z) (name : string)
      (use_bfloat16 normalize drop_remainder : bool)
      (validation_proportion : Py.float) (aug_params : option ref)
      (w : world) (k : Z) :
  in_range validation_proportion ->
  complement_percent validation_proportion = inr k ->
  exists res w',
    load_dataset rt TRAIN batch_size name use_bfloat16 normalize
                 drop_remainder Py.one true validation_proportion
                 aug_params w = (res, w') /\
    trace w' = (trace w ++ [CatalogInfo name;
                            CatalogLoad name "train[:95%]"])%list /\
    forall ds, res = inr ds -> source ds = (name, "train[:95%]").
Proof.
  intros Hvp Hk.
  rewrite (load_dataset_run rt TRAIN batch_size name use_bfloat16 normalize
             drop_remainder Py.one true validation_proportion aug_params w
             in_range_one Hvp).
  assert (Ht : load_target TRAIN name Py.one true validation_proportion =
               inr (name, "train[:95%]")).
  { unfold load_target. cbn. now rewrite Hk. }
  rewrite Ht. cbv zeta.
  eexists. eexists. split; [reflexivity|]. split; [reflexivity|].
  intros ds Hds.
  destruct (traced _ _ _ _ _ _ _ _); [discriminate|].
  inversion Hds. apply pipeline_source.
Qed.

Lemma train_with_validation_reads_95_witness :
  exists res w',
    load_dataset toy_runtime TRAIN 128 "cifar10" false true true
                 Py.one true (Py.decimal 8 10) None empty_world =
    (res, w') /\
    trace w' = [CatalogInfo "cifar10"; CatalogLoad "cifar10" "train[:95%]"].
Proof.
  destruct (train_with_validation_reads_95
              toy_runtime 128 "cifar10" false true true (Py.decimal 8 10)
              None empty_world 19)
    as (res & w' & Hrun & Htrace & _).
  - split; reflexivity.
  - reflexivity.
  - exists res, w'. split; [exact Hrun | exact Htrace].
Defined.

(** C1.  The claim asks that, with [proportion = 1.0] and a validation set,
    the train split loads the head [(1 - validation_proportion)] fraction.
    At [validation_proportion = 0.1] that is ["train[:90%]"], but the code
    loads ["train[:95%]"]: the slice computed from [validation_proportion]
    is not the one passed to the catalog.  This holds for the default
    config, where the call goes on to fail on the missing key [augmix]
    after the load, and for a config with [augmix] switched off, where the
    call returns a pipeline on that slice. *)
Theorem train_head_ignores_validation_proportion :
  let vp := Py.decimal 1 10 in
  train_head_slice vp = inr "train[:90%]" /\
  (exists w',
      load_dataset toy_runtime TRAIN 128 "cifar10" false true true
                   Py.one true vp None empty_world =
      (inl (KeyError "augmix"), w') /\
      In (CatalogLoad "cifar10" "train[:95%]") (trace w') /\
      ~ In (CatalogLoad "cifar10" "train[:90%]") (trace w')) /\
  (exists ds w',
      load_dataset toy_runtime TRAIN 128 "cifar10" false true true
                   Py.one true vp (Some 0%nat)
                   (world_with no_augmix_params) = (inr ds, w') /\
      source ds = ("cifar10", "train[:95%]") /\
      inr (snd (source ds)) <> train_head_slice vp /\
      In (CatalogLoad "cifar10" "train[:95%]") (trace w') /\
      ~ In (CatalogLoad "cifar10" "train[:90%]") (trace w')).
Proof.
  intro vp.
  assert (Hvp : in_range vp) by (split; reflexivity).
  assert (Hslice : train_head_slice vp = inr "train[:90%]")
    by (vm_compute; reflexivity).
  assert (Ht : load_target TRAIN "cifar10" Py.one true vp =
               inr ("cifar10", "train[:95%]")) by (vm_compute; reflexivity).
  split; [exact Hslice|]. split.
  - rewrite (load_dataset_run toy_runtime TRAIN 128 "cifar10" false true true
               Py.one true vp None empty_world in_range_one Hvp).
    rewrite Ht. cbv zeta.
    destruct (traced_train_without_augmix
                toy_runtime (builder_info toy_runtime "cifar10")
                (params_ref None empty_world) (params_of None empty_world)
                float32 true
                (world_after (builder_info toy_runtime "cifar10")
                             (load_events "cifar10" Py.one
                                          ("cifar10", "train[:95%]"))
                             None empty_world))
      as (key & Htr & _ & Hkey).
    { exists 31%nat, 31%nat. reflexivity. }
    { reflexivity. }
    rewrite Htr, (Hkey (or_introl eq_refl)).
    eexists. split; [reflexivity|]. split.
    + vm_compute. right. now left.
    + vm_compute. intros [H | [H | []]]; discriminate.
  - rewrite (load_dataset_run toy_runtime TRAIN 128 "cifar10" false true true
               Py.one true vp (Some 0%nat) (world_with no_augmix_params)
               in_range_one Hvp).
    rewrite Ht. cbv zeta.
    destruct (traced_train_plain
                toy_runtime (builder_info toy_runtime "cifar10")
                (params_ref (Some 0%nat) (world_with no_augmix_params))
                (params_of (Some 0%nat) (world_with no_augmix_params))
                float32 true
                (world_after (builder_info toy_runtime "cifar10")
                             (load_events "cifar10" Py.one
                                          ("cifar10", "train[:95%]"))
                             (Some 0%nat) (world_with no_augmix_params)))
      as (out & Htr).
    { exists 31%nat, 31%nat. reflexivity. }
    { reflexivity. }
    { discriminate. }
    { now right. }
    rewrite Htr.
    eexists. eexists. split; [reflexivity|].
    rewrite pipeline_source.
    split; [reflexivity|]. split; [rewrite Hslice; discriminate|]. split.
    + vm_compute. right. now left.
    + vm_compute. intros [H | [H | []]]; discriminate.
Qed.

(** C2.  [load_dataset] raises one of its two range errors if and only if
    [proportion] or [validation_proportion] lies outside [0,1]; when it
    does, the world is untouched: no catalog query, no load, no log entry.
    Every other error of [load_dataset] comes after the catalog query. *)
Theorem load_dataset_raises_iff_out_of_range
        (rt : runtime) (split : string) (batch_size : Z) (name : string)
        (use_bfloat16 normalize drop_remainder : bool)
        (proportion : Py.float) (validation_set : bool)
        (validation_proportion : Py.float)
        (aug_params : option ref) (w : world) :
  ((exists e w',
       load_dataset rt split batch_size name use_bfloat16 normalize
                    drop_remainder proportion validation_set
                    validation_proportion aug_params w = (inl e, w') /\
       is_range_error e)
   <->
   (out_of_range proportion \/ out_of_range validation_proportion)) /\
  (forall e w',
      load_dataset rt split batch_size name use_bfloat16 normalize
                   drop_remainder proportion validation_set
                   validation_proportion aug_params w = (inl e, w') ->
      (is_range_error e -> w' = w /\ trace w' = trace w) /\
      (~ is_range_error e -> In (CatalogInfo name) (trace w'))).
Proof.
  assert (Hother : forall e w',
    load_dataset rt split batch_size name use_bfloat16 normalize
                 drop_remainder proportion validation_set
                 validation_proportion aug_params w = (inl e, w') ->
    in_range proportion -> in_range validation_proportion ->
    ~ is_range_error e).
  { intros e w' Hload Hp Hvp Hre.
    destruct (load_dataset_errors rt split batch_size name use_bfloat16
                normalize drop_remainder proportion validation_set
                validation_proportion aug_params w e w' Hload)
      as [(_ & _ & [Ho | Ho]) | (_ & _ & _ & [Ht | Hrt])].
    - exact (not_in_and_out_of_range _ Hp Ho).
    - exact (not_in_and_out_of_range _ Hvp Ho).
    - unfold load_target, complement_percent, percent in Ht.
      assert (Hint : forall x, Py.int x = inl e -> False).
      { intros x Hx.
        destruct x; cbn in Hx; inversion Hx; subst;
          destruct Hre as [Hre | Hre]; inversion Hre. }
      repeat match type of Ht with
             | (if ?c then _ else _) = _ => destruct c
             | match Py.int ?x with _ => _ end = _ =>
                 destruct (Py.int x) eqn:?
             end; try discriminate;
        inversion Ht; subst; eapply Hint; eassumption.
    - destruct Hre as [-> | ->]; exact Hrt. }
  split.
  - split.
    + intros (e & w' & Hload & Hre).
      destruct (load_dataset_errors rt split batch_size name use_bfloat16
                  normalize drop_remainder proportion validation_set
                  validation_proportion aug_params w e w' Hload)
        as [(_ & _ & Ho) | (Hp & Hvp & _)]; [exact Ho|].
      exfalso. exact (Hother e w' Hload Hp Hvp Hre).
    + intro Hout.
      destruct (load_dataset_rejects rt split batch_size name use_bfloat16
                  normalize drop_remainder proportion validation_set
                  validation_proportion aug_params w Hout) as (e & He & Hre).
      now exists e, w.
  - intros e w' Hload.
    destruct (load_dataset_errors rt split batch_size name use_bfloat16
                normalize drop_remainder proportion validation_set
                validation_proportion aug_params w e w' Hload)
      as [(Hre & -> & _) | (Hp & Hvp & Hin & _)].
    + split; [auto | intro Hn; contradiction].
    + split; [|intros _; exact Hin].
      intro Hre. exfalso. exact (Hother e w' Hload Hp Hvp Hre).
Qed.

(** C8, as stated, fails: with [proportion = 0.5] and a validation set
    requested, a [validation_proportion] of 2 makes the call raise. *)
Lemma subset_load_rejects_bad_validation_proportion :
  load_dataset toy_runtime TEST 128 "cifar10" false true true
               (Py.decimal 1 2) true (Py.of_Z 2) None empty_world =
  (inl (ValueError "validation_proportion needs to lie in the range [0, 1]"),
   empty_world).
Proof. vm_compute. reflexivity. Qed.

(** C8, amended.  For every binary64 [proportion] in [0,1) and every
    [validation_proportion] that passes the range check, the request for a
    validation set changes nothing and raises nothing:
    [k = int(100 * proportion)], a binary64 product, is defined, and with
    the request and without it [load_dataset] logs the warning and loads
    the head [k] percent of the version-pinned train split when [split] is
    the train split and of the test split otherwise.  The call then
    returns a pipeline on that slice unless the trace of [preprocess]
    fails, with a missing key or an error of the tensor runtime; it returns
    on every other split than the train split when normalization is off or
    the precision is [float32] on a catalog of colour images. *)
Theorem subset_load_ignores_validation_request
        (rt : runtime) (split : string) (batch_size : Z) (name : string)
        (use_bfloat16 normalize drop_remainder : bool)
        (proportion : Py.float) (validation_set : bool)
        (validation_proportion : Py.float)
        (aug_params : option ref) (w : world) :
  Py.is_float proportion ->
  Py.float_leb Py.zero proportion = true ->
  Py.float_ltb proportion Py.one = true ->
  in_range validation_proportion ->
  let pinned := (name ++ ":3.*.*")%string in
  exists k slice res w',
    percent proportion = inr k /\ (0 <= k)%Z /\
    slice =
    ((if (split =? TRAIN)%string then "train[:" else "test[:") ++
     Py.str k ++ "%]")%string /\
    load_dataset rt split batch_size name use_bfloat16 normalize
                 drop_remainder proportion validation_set
                 validation_proportion aug_params w = (res, w') /\
    load_dataset rt split batch_size name use_bfloat16 normalize
                 drop_remainder proportion (negb validation_set)
                 validation_proportion aug_params w = (res, w') /\
    trace w' =
    (trace w ++
     [CatalogInfo name; LogWarning subset_warning;
      CatalogLoad pinned slice])%list /\
    (forall ds, res = inr ds -> source ds = (pinned, slice)) /\
    (forall e, res = inl e -> is_runtime_error e) /\
    (split <> TRAIN ->
     normalize = false \/
     (use_bfloat16 = false /\ rgb_catalog (builder_info rt name)) ->
     exists ds, res = inr ds).
Proof.
  intros Hfloat Hp0 Hp1 Hvp pinned.
  destruct (percent_defined proportion Hfloat Hp0 Hp1) as (k & Hk & Hk0).
  set (slice := ((if (split =? TRAIN)%string then "train[:" else "test[:") ++
                 Py.str k ++ "%]")%string).
  exists k, slice.
  destruct (float_ltb_not_ge _ _ Hp1) as (Hgt & Hne & _).
  assert (Hp : in_range proportion).
  { split; [now apply float_leb_not_gt | exact Hgt]. }
  assert (Htarget : forall vs,
    load_target split name proportion vs validation_proportion =
    inr (pinned, slice)).
  { intro vs. unfold load_target. rewrite Hne, Hk. unfold slice, pinned.
    now destruct (split =? TRAIN)%string. }
  pose proof (load_dataset_run rt split batch_size name use_bfloat16 normalize
                drop_remainder proportion validation_set
                validation_proportion aug_params w Hp Hvp) as Hrun.
  pose proof (load_dataset_run rt split batch_size name use_bfloat16 normalize
                drop_remainder proportion (negb validation_set)
                validation_proportion aug_params w Hp Hvp) as Hrun'.
  rewrite Htarget in Hrun, Hrun'. cbv zeta in Hrun, Hrun'.
  eexists. eexists. split; [exact Hk|]. split; [exact Hk0|].
  split; [reflexivity|]. split; [exact Hrun|]. split; [exact Hrun'|].
  split.
  { cbn [trace world_after]. unfold load_events, events_before_load.
    rewrite Hne. reflexivity. }
  set (w1 := world_after _ _ _ _).
  set (d := if use_bfloat16 then bfloat16 else float32).
  split; [|split].
  - intros ds Hds.
    destruct (traced _ _ _ _ _ _ _ _); [discriminate|].
    inversion Hds. apply pipeline_source.
  - intros e He.
    destruct (traced rt (builder_info rt name) split
                     (params_ref aug_params w) (params_of aug_params w) d
                     normalize w1) as [e1 | out] eqn:Etr; [|discriminate].
    inversion He; subst e1. unfold traced in Etr.
    match type of Etr with
    | fst (?c ?w0) = _ => destruct (c w0) as [res w5] eqn:Ec
    end.
    cbn [fst] in Etr. subst res.
    eapply preprocess_errors. exact Ec.
  - intros Hs Hn.
    destruct (traced_eval_returns rt (builder_info rt name) split
                (params_ref aug_params w) (params_of aug_params w) d
                normalize w1 Hs) as (out & Hout).
    { destruct Hn as [Hn | [Hb Hinfo]]; [now left|].
      right. unfold d. rewrite Hb. now split. }
    rewrite Hout. eexists. reflexivity.
Qed.

Lemma subset_load_ignores_validation_request_witness :
  exists ds w',
    load_dataset toy_runtime TEST 128 "cifar10" false true true
                 (Py.decimal 29 100) true default_validation_proportion
                 None empty_world = (inr ds, w') /\
    source ds = ("cifar10:3.*.*", "test[:28%]").
Proof.
  destruct (subset_load_ignores_validation_request
              toy_runtime TEST 128 "cifar10" false true true
              (Py.decimal 29 100) true default_validation_proportion
              None empty_world)
    as (k & slice & res & w' & Hk & _ & Hslice & Hrun & _ & _ & Hsrc & _
        & Hret).
  - reflexivity.
  - reflexivity.
  - reflexivity.
  - split; reflexivity.
  - assert (k = 28%Z) by (vm_compute in Hk; now inversion Hk).
    subst k. cbn in Hslice. subst slice.
    destruct Hret as (ds & ->).
    + discriminate.
    + right. split; [reflexivity|]. exists 31%nat, 31%nat. reflexivity.
    + exists ds, w'. split; [exact Hrun|]. now apply Hsrc.
Defined.

(** The world after a call that passes the range checks. *)
Lemma load_dataset_world
      (rt : runtime) (split : string) (batch_size : Z) (name : string)
      (use_bfloat16 normalize drop_remainder : bool)
      (proportion : Py.float) (validation_set : bool)
      (validation_proportion : Py.float) (aug_params : option ref)
      (w : world) :
  in_range proportion -> in_range validation_proportion ->
  exists res evs,
    load_dataset rt split batch_size name use_bfloat16 normalize
                 drop_remainder proportion validation_set
                 validation_proportion aug_params w =
    (res, world_after (builder_info rt name) evs aug_params w).
Proof.
  intros Hp Hvp.
  rewrite (load_dataset_run rt split batch_size name use_bfloat16 normalize
             drop_remainder proportion validation_set validation_proportion
             aug_params w Hp Hvp).
  destruct (load_target _ _ _ _ _); eexists; eexists; reflexivity.
Qed.

(** C9, as stated, fails: a call that is rejected by the range check does
    not store the coefficient although adaptive mixup is requested and no
    coefficient is present. *)
Lemma rejected_call_leaves_coeff_unset :
  let w := world_with adaptive_params in
  get_or (adaptive_mixup (heap w 0%nat)) false = true /\
  mixup_coeff (heap w 0%nat) = None /\
  exists e w',
    load_dataset toy_runtime TRAIN 128 "cifar10" false true true
                 (Py.of_Z 2) false default_validation_proportion
                 (Some 0%nat) w = (inl e, w') /\
    mixup_coeff (heap w' 0%nat) = None.
Proof.
  split; [reflexivity|]. split; [reflexivity|].
  eexists. eexists. split; [vm_compute; reflexivity | reflexivity].
Qed.

(** C9, amended.  A call that passes the range checks changes the config it
    works on in exactly one way: if adaptive mixup is requested and
    [mixup_coeff] is absent, [mixup_coeff] becomes the all-ones matrix of
    shape [[ensemble_size, num_classes]]; otherwise the config is unchanged.
    Every other key of the config, and every other dict object, is
    unchanged.  A call that is rejected by the range checks changes
    nothing. *)
Theorem load_dataset_mutates_only_mixup_coeff
        (rt : runtime) (split : string) (batch_size : Z) (name : string)
        (use_bfloat16 normalize drop_remainder : bool)
        (proportion : Py.float) (validation_set : bool)
        (validation_proportion : Py.float)
        (aug_params : option ref) (w : world) :
  let r := params_ref aug_params w in
  let p := params_of aug_params w in
  let all_ones :=
    ones [Z.to_nat (get_or (ensemble_size p) 1%Z);
          Z.to_nat (num_classes (builder_info rt name))] in
  exists res w',
    load_dataset rt split batch_size name use_bfloat16 normalize
                 drop_remainder proportion validation_set
                 validation_proportion aug_params w = (res, w') /\
    (forall r', r' <> r -> heap w' r' = heap w r') /\
    (in_range proportion /\ in_range validation_proportion ->
     (get_or (adaptive_mixup p) false = true /\ mixup_coeff p = None ->
      heap w' r = set_mixup_coeff all_ones p /\
      mixup_coeff (heap w' r) = Some all_ones) /\
     (~ (get_or (adaptive_mixup p) false = true /\ mixup_coeff p = None) ->
      heap w' r = p) /\
     adaptive_mixup (heap w' r) = adaptive_mixup p /\
     random_augment (heap w' r) = random_augment p /\
     mixup_alpha (heap w' r) = mixup_alpha p /\
     ensemble_size (heap w' r) = ensemble_size p /\
     label_smoothing (heap w' r) = label_smoothing p /\
     augmix (heap w' r) = augmix p /\
     augmix_depth (heap w' r) = augmix_depth p /\
     augmix_width (heap w' r) = augmix_width p /\
     augmix_prob_coeff (heap w' r) = augmix_prob_coeff p /\
     aug_count (heap w' r) = aug_count p) /\
    (~ (in_range proportion /\ in_range validation_proportion) -> w' = w).
Proof.
  intros r p all_ones.
  assert (Hdec : (in_range proportion /\ in_range validation_proportion) \/
                 (out_of_range proportion \/
                  out_of_range validation_proportion)).
  { destruct (in_or_out_of_range proportion);
      destruct (in_or_out_of_range validation_proportion); tauto. }
  destruct Hdec as [[Hp Hvp] | Hout].
  - destruct (load_dataset_world rt split batch_size name use_bfloat16
                normalize drop_remainder proportion validation_set
                validation_proportion aug_params w Hp Hvp)
      as (res & evs & Hrun).
    eexists. eexists. split; [exact Hrun|].
    cbn [heap world_after].
    split; [intros r' Hr'; now apply heap_after_load_elsewhere|].
    split; [|tauto].
    intros _. unfold r. rewrite heap_after_load_at. fold p.
    unfold params_after, initial_coeff. fold all_ones.
    destruct (needs_coeff p) eqn:E.
    + apply needs_coeff_true in E.
      split; [tauto|]. split; [tauto|]. repeat split; reflexivity.
    + assert (Hn : ~ (get_or (adaptive_mixup p) false = true /\
                      mixup_coeff p = None)).
      { intro H. apply needs_coeff_true in H. congruence. }
      split; [tauto|]. repeat split; reflexivity.
  - destruct (load_dataset_rejects rt split batch_size name use_bfloat16
                normalize drop_remainder proportion validation_set
                validation_proportion aug_params w Hout) as (e & He & _).
    eexists. eexists. split; [exact He|].
    split; [reflexivity|]. split; [|reflexivity].
    intros [Hp Hvp]. exfalso.
    destruct Hout as [Ho | Ho];
      [exact (not_in_and_out_of_range _ Hp Ho)
      | exact (not_in_and_out_of_range _ Hvp Ho)].
Qed.

(** ** Claims about [preprocess] *)

Lemma Qsum_indicator (label : Z) : forall n a,
  Qsum (map (fun i => if (Z.of_nat i =? label)%Z then 1 else 0) (seq a n)) ==
  if ((Z.of_nat a <=? label) && (label <? Z.of_nat (a + n)))%Z then 1 else 0.
Proof.
  induction n as [|n IH]; intro a; simpl.
  - destruct (Z.of_nat a <=? label)%Z eqn:E1;
      destruct (label <? Z.of_nat (a + 0))%Z eqn:E2; simpl; try reflexivity.
    apply Z.leb_le in E1. apply Z.ltb_lt in E2. lia.
  - rewrite IH.
    destruct (Z.of_nat a =? label)%Z eqn:E0;
      destruct (Z.of_nat (S a) <=? label)%Z eqn:E1;
      destruct (label <? Z.of_nat (S a + n))%Z eqn:E2;
      destruct (Z.of_nat a <=? label)%Z eqn:E3;
      destruct (label <? Z.of_nat (a + S n))%Z eqn:E4;
      simpl; try reflexivity; exfalso;
      rewrite ?Z.eqb_eq, ?Z.eqb_neq, ?Z.leb_le, ?Z.leb_gt,
        ?Z.ltb_lt, ?Z.ltb_ge in *; lia.
Qed.

(** [tf.one_hot] of a class index is a probability vector: its length is
    the number of classes, it has a one at the label and its entries sum
    to one. *)
Lemma one_hot_is_distribution (label depth : Z) :
  (0 <= label < depth)%Z ->
  tshape (one_hot label depth) = [Z.to_nat depth] /\
  tat (one_hot label depth) [Z.to_nat label] == 1 /\
  Qsum (entries (one_hot label depth)) == 1.
Proof.
  intro H. split; [reflexivity|]. split.
  - cbn [tat one_hot]. rewrite Z2Nat.id by lia. now rewrite Z.eqb_refl.
  - unfold entries. cbn [tshape tat one_hot hd].
    rewrite Qsum_indicator.
    destruct (Z.of_nat 0 <=? label)%Z eqn:E1;
      destruct (label <? Z.of_nat (0 + Z.to_nat depth))%Z eqn:E2;
      simpl; try reflexivity; exfalso;
      rewrite ?Z.leb_gt, ?Z.ltb_ge in *; lia.
Qed.

(** C5.  The claim asks that [preprocess] on the train split returns the
    cast scalar label when neither [mixup_alpha] nor [label_smoothing] is
    positive.  With the default config (no [aug_params]) the train split
    never returns a label: [preprocess] fails with [KeyError "augmix"]
    before the label is encoded, in the trace that [dataset.map] makes of
    it, so that [load_dataset] itself raises after the catalog load, and on
    every example it would be handed. *)
Theorem default_train_config_returns_no_label :
  wants_one_hot (params_of None empty_world) = false /\
  exists w',
    load_dataset toy_runtime TRAIN 128 "cifar10" false true true
                 Py.one false default_validation_proportion None
                 empty_world = (inl (KeyError "augmix"), w') /\
    In (CatalogLoad "cifar10" TRAIN) (trace w') /\
    (exists w2,
        preprocess toy_runtime TRAIN (32, 32, 3)%nat false 0%nat float32
                   true false 10 gray_image 3 w' =
        (inl (KeyError "augmix"), w2)) /\
    (forall out w2,
        preprocess toy_runtime TRAIN (32, 32, 3)%nat false 0%nat float32
                   true false 10 gray_image 3 w' <> (inr out, w2)).
Proof.
  split; [reflexivity|].
  rewrite (load_dataset_run toy_runtime TRAIN 128 "cifar10" false true true
             Py.one false default_validation_proportion None empty_world
             in_range_one in_range_default).
  assert (Ht : load_target TRAIN "cifar10" Py.one false
                           default_validation_proportion =
               inr ("cifar10", TRAIN)) by (vm_compute; reflexivity).
  rewrite Ht. cbv zeta.
  set (w' := world_after _ _ _ _).
  destruct (traced_train_without_augmix
              toy_runtime (builder_info toy_runtime "cifar10")
              (params_ref None empty_world) (params_of None empty_world)
              float32 true w')
    as (key & Htr & _ & Hkey).
  { exists 31%nat, 31%nat. reflexivity. }
  { reflexivity. }
  rewrite Htr, (Hkey (or_introl eq_refl)).
  exists w'. split; [reflexivity|]. split.
  { vm_compute. right. now left. }
  destruct (preprocess_train_without_augmix
              toy_runtime 32%nat 32%nat false 0%nat float32 true false 10
              gray_image 3 w')
    as (key' & w2 & Hfail & _ & Hkey').
  { exists 31%nat, 31%nat. reflexivity. }
  { reflexivity. }
  rewrite (Hkey' (or_introl eq_refl)) in Hfail.
  split.
  - exists w2. exact Hfail.
  - intros out w3 Hok. rewrite Hfail in Hok. discriminate.
Qed.




(** C10.  For every call of [load_dataset] on a catalog of colour images
    whose config lacks the key [augmix] (the default of no config
    included): on the train split the call fails with a [KeyError] that
    [preprocess] raises when [dataset.map] traces it, after the catalog
    load, and [preprocess] fails in the same way on every colour image;
    it is the key [augmix] unless [random_augment] is set without
    [aug_count].  On any other split the same config gives a pipeline that
    preprocesses every example, when normalization is off or the precision
    is [float32]. *)
Theorem train_preprocess_needs_augmix_key
        (rt : runtime) (split : string) (batch_size : Z) (name : string)
        (use_bfloat16 normalize drop_remainder : bool)
        (proportion : Py.float) (validation_set : bool)
        (validation_proportion : Py.float)
        (aug_params : option ref) (w : world) (target : string * string) :
  in_range proportion -> in_range validation_proportion ->
  load_target split name proportion validation_set validation_proportion =
  inr target ->
  rgb_catalog (builder_info rt name) ->
  augmix (params_of aug_params w) = None ->
  let info := builder_info rt name in
  let p := params_of aug_params w in
  let r := params_ref aug_params w in
  let d := if use_bfloat16 then bfloat16 else float32 in
  (split = TRAIN ->
   exists key w',
     load_dataset rt split batch_size name use_bfloat16 normalize
                  drop_remainder proportion validation_set
                  validation_proportion aug_params w =
     (inl (KeyError key), w') /\
     In (CatalogLoad (fst target) (snd target)) (trace w') /\
     (key = "augmix" \/ key = "aug_count") /\
     (get_or (random_augment p) false = false \/ aug_count p <> None ->
      key = "augmix") /\
     forall image label w1,
       rgb_image image -> heap w1 = heap w' ->
       exists w2,
         preprocess rt TRAIN (image_shape info)
                    (get_or (random_augment p) false) r d normalize
                    (wants_one_hot p) (num_classes info) image label w1 =
         (inl (KeyError key), w2)) /\
  (split <> TRAIN ->
   normalize = false \/ use_bfloat16 = false ->
   exists ds w',
     load_dataset rt split batch_size name use_bfloat16 normalize
                  drop_remainder proportion validation_set
                  validation_proportion aug_params w = (inr ds, w') /\
     forall image label w1,
       (normalize = true -> three_channels image) ->
       exists out, run_example ds image label w1 = (inr out, w1)).
Proof.
  intros Hp Hvp Ht Hinfo Ha info p r d.
  pose proof (load_dataset_run rt split batch_size name use_bfloat16 normalize
                drop_remainder proportion validation_set
                validation_proportion aug_params w Hp Hvp) as Hrun.
  rewrite Ht in Hrun. cbv zeta in Hrun. fold info p r d in Hrun.
  set (w' := world_after info (load_events name proportion target)
                         aug_params w) in *.
  assert (Hat : heap w' r = params_after info p).
  { unfold w', r. cbn [heap world_after]. apply heap_after_load_at. }
  destruct (params_after_keeps_reads info p) as (Hk1 & Hk2 & _).
  split.
  - intros ->.
    destruct (traced_train_without_augmix rt info r p d normalize w' Hinfo)
      as (key & Htr & Hkeys & Hkey).
    { rewrite Hat, Hk1. exact Ha. }
    rewrite Htr in Hrun.
    exists key, w'. split; [exact Hrun|]. split.
    { unfold w'. cbn [trace world_after]. unfold load_events.
      apply in_or_app. right. apply in_or_app. right. now left. }
    split; [exact Hkeys|]. split.
    { intro H. apply Hkey. rewrite Hat, Hk2. exact H. }
    intros image label w1 Himg Hheap.
    destruct Hinfo as (h & wd & Hshape). fold info in Hshape.
    rewrite Hshape.
    destruct (preprocess_train_without_augmix
                rt (S h) (S wd) (get_or (random_augment p) false) r d
                normalize (wants_one_hot p) (num_classes info) image label
                w1 Himg)
      as (key' & w2 & Hfail & Hkeys' & Hkey').
    { rewrite Hheap, Hat, Hk1. exact Ha. }
    assert (Hsame : key' = key).
    { unfold traced in Htr. rewrite Hshape in Htr.
      destruct (get_or (random_augment p) false) eqn:Era.
      - destruct (aug_count p) as [count|] eqn:Ec.
        + rewrite Hkey' by (right; rewrite Hheap, Hat, Hk2; congruence).
          rewrite Hkey by (right; rewrite Hat, Hk2; congruence).
          reflexivity.
        + assert (Hc1 : aug_count (heap w1 r) = None)
            by (rewrite Hheap, Hat; congruence).
          assert (Hc' : aug_count (heap w' r) = None)
            by (rewrite Hat; congruence).
          rewrite (train_stage_missing_count_key
                     rt h wd r d normalize (wants_one_hot p)
                     (num_classes info) image label w1 key' w2 Himg Hc1
                     Hfail).
          destruct (preprocess rt TRAIN (S h, S wd, 3%nat) true r d
                               normalize (wants_one_hot p) (num_classes info)
                               (fst (element_spec info))
                               (snd (element_spec info)) w')
            as [res w5] eqn:Etr.
          cbn [fst] in Htr. subst res.
          symmetry.
          apply (train_stage_missing_count_key
                   rt h wd r d normalize (wants_one_hot p)
                   (num_classes info) (fst (element_spec info))
                   (snd (element_spec info)) w' key w5);
            [apply element_spec_rgb; now exists h, wd | exact Hc'
            | exact Etr].
      - rewrite Hkey' by now left. rewrite Hkey by now left. reflexivity. }
    subst key'. now exists w2.
  - intros Hs Hn.
    destruct (traced_eval_returns rt info split r p d normalize w' Hs)
      as (out & Hout).
    { destruct Hn as [Hn | Hb]; [now left|].
      right. unfold d. rewrite Hb. now split. }
    rewrite Hout in Hrun.
    eexists. exists w'. split; [exact Hrun|].
    intros image label w1 Himg.
    unfold run_example. rewrite pipeline_example_fn.
    rewrite preprocess_eval by exact Hs.
    destruct normalize; [|eexists; reflexivity].
    destruct Hn as [Hn | Hb]; [discriminate|].
    unfold d. rewrite Hb.
    rewrite (normalize_float32_run image (Himg eq_refl)).
    eexists. reflexivity.
Qed.

Lemma train_preprocess_needs_augmix_key_witness :
  exists w',
    load_dataset toy_runtime TRAIN 128 "cifar10" false true true
                 Py.one false default_validation_proportion None
                 empty_world = (inl (KeyError "augmix"), w') /\
    In (CatalogLoad "cifar10" TRAIN) (trace w').
Proof.
  destruct (train_preprocess_needs_augmix_key
              toy_runtime TRAIN 128 "cifar10" false true true
              Py.one false default_validation_proportion None empty_world
              ("cifar10", TRAIN))
    as [Htrain _].
  - split; reflexivity.
  - split; reflexivity.
  - reflexivity.
  - exists 31%nat, 31%nat. reflexivity.
  - reflexivity.
  - destruct (Htrain eq_refl) as (key & w' & Hrun & Hin & _ & Hkey & _).
    rewrite (Hkey (or_introl eq_refl)) in Hrun.
    exists w'. split; [exact Hrun | exact Hin].
Defined.

(** ** Further properties of [normalize_convert_image] *)

Lemma in_bounds_channel (idx : index) : forall outer,
  in_bounds idx (outer ++ [3%nat])%list -> (channel idx < 3)%nat.
Proof.
  unfold in_bounds, channel.
  induction idx as [|i idx IH]; intros outer H.
  - destruct outer; discriminate.
  - destruct outer as [|n outer]; cbn in H.
    + apply andb_true_iff in H. destruct H as [Hi H].
      destruct idx; [|discriminate]. cbn. now apply Nat.ltb_lt.
    + apply andb_true_iff in H. destruct H as [_ H].
      destruct idx as [|j idx'].
      * destruct outer; discriminate.
      * change (last (i :: j :: idx') 0%nat) with (last (j :: idx') 0%nat).
        now apply (IH outer).
Qed.

Lemma channel_constants (c : nat) :
  (c < 3)%nat ->
  0 < tat std [c] /\
  - (243 # 100) * tat std [c] <= 0 - tat mean [c] /\
  1 - tat mean [c] <= (276 # 100) * tat std [c].
Proof.
  intro Hc.
  destruct c as [|[|[|c]]]; [| | |lia];
    cbn [tat mean std constant nth hd];
    repeat split; reflexivity || (vm_compute; discriminate).
Qed.

(** Undoing the normalization: in [float32], on an image of three
    channels, [normalize_convert_image] returns a [float32] tensor of the
    shape of the image; multiplying an entry by the channel's standard
    deviation and adding the channel's mean gives back the entry of the
    converted image. *)
Theorem normalize_round_trip (image : tensor) (idx : index) :
  three_channels image ->
  in_bounds idx (tshape image) ->
  exists t,
    normalize_convert_image image float32 = inr t /\
    tdtype t = float32 /\
    tshape t = tshape image /\
    tat t idx * tat std [channel idx] + tat mean [channel idx] ==
    tat (convert_image_dtype image float32) idx.
Proof.
  intros Himg Hidx.
  destruct (normalize_float32_entries image Himg)
    as (t & Hrun & Hd & Hs & Hat).
  exists t. split; [exact Hrun|]. split; [exact Hd|]. split; [exact Hs|].
  rewrite (Hat idx Hidx).
  destruct Himg as (outer & Hshape). rewrite Hshape in Hidx.
  destruct (channel_constants _ (in_bounds_channel _ _ Hidx)) as (Hpos & _).
  field. lra.
Qed.

Lemma normalize_round_trip_witness :
  exists t,
    normalize_convert_image gray_image float32 = inr t /\
    tat t [0; 0; 1]%nat * tat std [1%nat] + tat mean [1%nat] ==
    tat (convert_image_dtype gray_image float32) [0; 0; 1]%nat.
Proof.
  destruct (normalize_round_trip gray_image [0; 0; 1]%nat)
    as (t & Hrun & _ & _ & Hat).
  - exists [32; 32]%nat. reflexivity.
  - reflexivity.
  - exists t. split; [exact Hrun | exact Hat].
Defined.

(** Normalization keeps the order of the entries of a channel. *)
Theorem normalize_is_increasing (a b : tensor) (idx : index) :
  three_channels a -> three_channels b ->
  in_bounds idx (tshape a) -> in_bounds idx (tshape b) ->
  tat (convert_image_dtype a float32) idx <=
  tat (convert_image_dtype b float32) idx ->
  exists ta tb,
    normalize_convert_image a float32 = inr ta /\
    normalize_convert_image b float32 = inr tb /\
    tat ta idx <= tat tb idx.
Proof.
  intros Ha Hb Hia Hib Hab.
  exists (normalized a), (normalized b).
  split; [now apply normalize_float32_run|].
  split; [now apply normalize_float32_run|].
  rewrite (normalized_at a idx Ha Hia), (normalized_at b idx Hb Hib).
  destruct Ha as (outer & Hshape). rewrite Hshape in Hia.
  destruct (channel_constants _ (in_bounds_channel _ _ Hia)) as (Hpos & _).
  apply Qmult_le_compat_r; [lra|].
  apply Qlt_le_weak. now apply Qinv_lt_0_compat.
Qed.

Lemma normalize_is_increasing_witness :
  exists ta tb,
    normalize_convert_image (zeros_like gray_image) float32 = inr ta /\
    normalize_convert_image gray_image float32 = inr tb /\
    tat ta [0; 0; 2]%nat <= tat tb [0; 0; 2]%nat.
Proof.
  apply (normalize_is_increasing (zeros_like gray_image) gray_image
                                 [0; 0; 2]%nat).
  - exists [32; 32]%nat. reflexivity.
  - exists [32; 32]%nat. reflexivity.
  - reflexivity.
  - reflexivity.
  - vm_compute. discriminate.
Defined.

(** An 8-bit image of three channels, whose entries lie in [0,255],
    normalizes in [float32] into the fixed interval [-2.43, 2.76]. *)
Theorem normalize_uint8_bounds (image : tensor) (idx : index) :
  tdtype image = uint8 ->
  three_channels image ->
  in_bounds idx (tshape image) ->
  0 <= tat image idx -> tat image idx <= 255 ->
  exists t,
    normalize_convert_image image float32 = inr t /\
    - (243 # 100) <= tat t idx /\ tat t idx <= 276 # 100.
Proof.
  intros Hty Himg Hidx H0 H255.
  exists (normalized image).
  split; [now apply normalize_float32_run|].
  rewrite (normalized_at image idx Himg Hidx).
  destruct Himg as (outer & Hshape). rewrite Hshape in Hidx.
  destruct (channel_constants _ (in_bounds_channel _ _ Hidx))
    as (Hpos & Hlo & Hhi).
  unfold convert_image_dtype. rewrite Hty.
  cbn [dtype_eqb is_integer is_floating negb andb tmap tat tcast tdtype
       dtype_max].
  rewrite andb_false_r.
  set (s := tat std [channel idx]) in *.
  set (m := tat mean [channel idx]) in *.
  assert (Hx : 0 <= tat image idx * (1 / inject_Z 255) /\
               tat image idx * (1 / inject_Z 255) <= 1).
  { change (inject_Z 255) with 255.
    assert (E : tat image idx * (1 / 255) == tat image idx / 255)
      by (unfold Qdiv; ring).
    rewrite E. split.
    - apply Qle_shift_div_l; [reflexivity | lra].
    - apply Qle_shift_div_r; [reflexivity | lra]. }
  destruct Hx as [Hx0 Hx1].
  split.
  - apply Qle_shift_div_l; [exact Hpos | lra].
  - apply Qle_shift_div_r; [exact Hpos | lra].
Qed.

Lemma normalize_uint8_bounds_witness :
  exists t,
    normalize_convert_image gray_image float32 = inr t /\
    - (243 # 100) <= tat t [3; 4; 0]%nat /\ tat t [3; 4; 0]%nat <= 276 # 100.
Proof.
  apply (normalize_uint8_bounds gray_image [3; 4; 0]%nat).
  - reflexivity.
  - exists [32; 32]%nat. reflexivity.
  - reflexivity.
  - vm_compute. discriminate.
  - vm_compute. discriminate.
Defined.

(** In every dtype other than [float32], [bfloat16] included,
    [normalize_convert_image] fails on every image: the converted image
    does not have the dtype of the [float32] constant [mean]. *)
Theorem normalize_rejects_other_dtypes (image : tensor) (d : dtype) :
  d <> float32 ->
  normalize_convert_image image d = inl DtypeMismatch /\
  tdtype (convert_image_dtype image d) = d /\
  tdtype mean = float32.
Proof.
  intro Hd. split; [now apply normalize_dtype_mismatch|].
  split; [apply convert_image_dtype_is | reflexivity].
Qed.

Lemma normalize_rejects_other_dtypes_witness :
  normalize_convert_image gray_image bfloat16 = inl DtypeMismatch.
Proof.
  apply (normalize_rejects_other_dtypes gray_image bfloat16).
  discriminate.
Defined.

(** ** Further properties of [load_dataset] *)

(** Of the two range checks the one on [proportion] comes first: when
    [proportion] is out of range its message is raised whatever
    [validation_proportion] is, and the message about
    [validation_proportion] is raised only for a [proportion] in range. *)
Theorem range_errors_in_order
        (rt : runtime) (split : string) (batch_size : Z) (name : string)
        (use_bfloat16 normalize drop_remainder : bool)
        (proportion : Py.float) (validation_set : bool)
        (validation_proportion : Py.float)
        (aug_params : option ref) (w : world) :
  (out_of_range proportion ->
   load_dataset rt split batch_size name use_bfloat16 normalize
                drop_remainder proportion validation_set
                validation_proportion aug_params w =
   (inl (ValueError "proportion needs to lie in the range [0, 1]"), w)) /\
  (in_range proportion ->
   out_of_range validation_proportion ->
   load_dataset rt split batch_size name use_bfloat16 normalize
                drop_remainder proportion validation_set
                validation_proportion aug_params w =
   (inl (ValueError
           "validation_proportion needs to lie in the range [0, 1]"), w)).
Proof.
  split.
  - intro H. apply range_check_fails in H.
    unfold load_dataset. now rewrite H.
  - intros Hp H. apply range_check_passes in Hp.
    apply range_check_fails in H.
    unfold load_dataset. now rewrite Hp, H.
Qed.

Lemma range_errors_in_order_witness :
  load_dataset toy_runtime TRAIN 128 "cifar10" false true true
               (Py.of_Z 2) false (Py.of_Z 3) None empty_world =
  (inl (ValueError "proportion needs to lie in the range [0, 1]"),
   empty_world).
Proof.
  apply (range_errors_in_order toy_runtime TRAIN 128 "cifar10" false true
                               true (Py.of_Z 2) false (Py.of_Z 3) None
                               empty_world).
  right. reflexivity.
Defined.

(** [proportion == 1.0] holds for the float [1.0] only. *)
Lemma float_eqb_one (x : Py.float) :
  Py.float_eqb x Py.one = true -> x = Py.one.
Proof.
  unfold Py.float_eqb, SFeqb, Py.one.
  destruct x as [s | s | | s m e]; cbn [SFcompare];
    try discriminate; try (destruct s; discriminate).
  destruct s; [discriminate|].
  destruct (e ?= -52)%Z eqn:Ee; try discriminate.
  destruct (Pos.compare_cont Eq m 4503599627370496) eqn:Em;
    try discriminate.
  intros _. apply Z.compare_eq in Ee. apply Pos.compare_eq in Em.
  now subst.
Qed.

(** The effects of a call that passes the range checks and computes its
    slice. *)
Lemma load_effects
        (rt : runtime) (split : string) (batch_size : Z) (name : string)
        (use_bfloat16 normalize drop_remainder : bool)
        (proportion : Py.float) (validation_set : bool)
        (validation_proportion : Py.float)
        (aug_params : option ref) (w : world) (target : string * string) :
  in_range proportion -> in_range validation_proportion ->
  load_target split name proportion validation_set validation_proportion =
  inr target ->
  exists res w',
    load_dataset rt split batch_size name use_bfloat16 normalize
                 drop_remainder proportion validation_set
                 validation_proportion aug_params w = (res, w') /\
    tape w' = tape w /\
    (Py.float_eqb proportion Py.one = true ->
     trace w' =
     (trace w ++ [CatalogInfo name;
                  CatalogLoad (fst target) (snd target)])%list) /\
    (Py.float_eqb proportion Py.one = false ->
     trace w' =
     (trace w ++ [CatalogInfo name; LogWarning subset_warning;
                  CatalogLoad (fst target) (snd target)])%list) /\
    (forall ds, res = inr ds -> source ds = target).
Proof.
  intros Hp Hvp Ht.
  rewrite (load_dataset_run rt split batch_size name use_bfloat16 normalize
             drop_remainder proportion validation_set validation_proportion
             aug_params w Hp Hvp).
  rewrite Ht. cbv zeta.
  eexists. eexists. split; [reflexivity|].
  cbn [tape trace world_after]. unfold load_events, events_before_load.
  split; [reflexivity|].
  split; [intros ->; reflexivity|].
  split; [intros ->; reflexivity|].
  intros ds Hds.
  destruct (traced _ _ _ _ _ _ _ _); [discriminate|].
  inversion Hds. apply pipeline_source.
Qed.

(** A call that passes the range checks queries the catalog metadata
    once, logs the subset warning exactly when [proportion] differs from 1
    (whether or not a validation set is requested), loads one slice, and
    reads no randomness, also when it goes on to fail in the trace of
    [preprocess]. *)
Theorem load_dataset_effects
        (rt : runtime) (split : string) (batch_size : Z) (name : string)
        (use_bfloat16 normalize drop_remainder : bool)
        (proportion : Py.float) (validation_set : bool)
        (validation_proportion : Py.float)
        (aug_params : option ref) (w : world) (target : string * string) :
  in_range proportion -> in_range validation_proportion ->
  load_target split name proportion validation_set validation_proportion =
  inr target ->
  exists res w',
    load_dataset rt split batch_size name use_bfloat16 normalize
                 drop_remainder proportion validation_set
                 validation_proportion aug_params w = (res, w') /\
    tape w' = tape w /\
    (Py.float_eqb proportion Py.one = true ->
     trace w' =
     (trace w ++ [CatalogInfo name;
                  CatalogLoad (fst target) (snd target)])%list) /\
    (Py.float_eqb proportion Py.one = false ->
     trace w' =
     (trace w ++ [CatalogInfo name; LogWarning subset_warning;
                  CatalogLoad (fst target) (snd target)])%list) /\
    (forall ds, res = inr ds -> source ds = target).
Proof.
  intros Hp Hvp Ht.
  exact (load_effects rt split batch_size name use_bfloat16 normalize
           drop_remainder proportion validation_set validation_proportion
           aug_params w target Hp Hvp Ht).
Qed.

Lemma load_dataset_effects_witness :
  exists res w',
    load_dataset toy_runtime TEST 64 "cifar100" true true false
                 Py.one false default_validation_proportion None
                 empty_world = (res, w') /\
    tape w' = 0%nat /\
    trace w' = [CatalogInfo "cifar100"; CatalogLoad "cifar100" TEST].
Proof.
  destruct (load_dataset_effects toy_runtime TEST 64 "cifar100" true true
                                 false Py.one false
                                 default_validation_proportion None
                                 empty_world ("cifar100", TEST))
    as (res & w' & Hrun & Htape & Htrace & _).
  - split; reflexivity.
  - split; reflexivity.
  - reflexivity.
  - exists res, w'. split; [exact Hrun|]. split; [exact Htape|].
    now apply Htrace.
Defined.

(** With the whole dataset, a split is loaded unmodified from the unpinned
    catalog entry when no validation set is requested, and also when one is
    requested for a split that is neither the train nor the validation
    split. *)
Theorem whole_split_is_read_unmodified
        (rt : runtime) (split : string) (batch_size : Z) (name : string)
        (use_bfloat16 normalize drop_remainder : bool)
        (proportion : Py.float) (validation_set : bool)
        (validation_proportion : Py.float)
        (aug_params : option ref) (w : world) :
  Py.float_eqb proportion Py.one = true ->
  in_range validation_proportion ->
  validation_set = false \/ (split <> "validation" /\ split <> TRAIN) ->
  exists res w',
    load_dataset rt split batch_size name use_bfloat16 normalize
                 drop_remainder proportion validation_set
                 validation_proportion aug_params w = (res, w') /\
    trace w' = (trace w ++ [CatalogInfo name; CatalogLoad name split])%list /\
    forall ds, res = inr ds -> source ds = (name, split).
Proof.
  intros Hone Hvp Hcase.
  assert (Hp : in_range proportion).
  { rewrite (float_eqb_one _ Hone). exact in_range_one. }
  assert (Htarget : load_target split name proportion validation_set
                                validation_proportion = inr (name, split)).
  { unfold load_target. rewrite Hone.
    destruct Hcase as [-> | [Hv Ht]]; [reflexivity|].
    apply String.eqb_neq in Hv, Ht. rewrite Hv, Ht.
    now destruct validation_set. }
  destruct (load_effects rt split batch_size name use_bfloat16
              normalize drop_remainder proportion validation_set
              validation_proportion aug_params w (name, split) Hp Hvp
              Htarget)
    as (res & w' & Hrun & _ & Htrace & _ & Hsrc).
  exists res, w'. split; [exact Hrun|]. split; [now apply Htrace|].
  exact Hsrc.
Qed.

Lemma whole_split_is_read_unmodified_witness :
  exists res w',
    load_dataset toy_runtime TEST 64 "cifar100" false true false
                 Py.one true default_validation_proportion None
                 empty_world = (res, w') /\
    trace w' = [CatalogInfo "cifar100"; CatalogLoad "cifar100" TEST].
Proof.
  destruct (whole_split_is_read_unmodified
              toy_runtime TEST 64 "cifar100" false true false
              Py.one true default_validation_proportion None empty_world)
    as (res & w' & Hrun & Htrace & _).
  - reflexivity.
  - split; reflexivity.
  - right. split; discriminate.
  - exists res, w'. split; [exact Hrun | exact Htrace].
Defined.

(** With the whole dataset and a validation set, the split ["validation"]
    loads the tail of the version-pinned train split that starts at
    [k = int(100 * (1. - validation_proportion))] percent, a binary64
    computation: for [validation_proportion = 0.8] the difference rounds to
    a float below 0.2 and the tail starts at 19 percent, not at 20. *)
Theorem validation_split_reads_train_tail
        (rt : runtime) (batch_size : Z) (name : string)
        (use_bfloat16 normalize drop_remainder : bool)
        (proportion : Py.float) (validation_proportion : Py.float)
        (aug_params : option ref) (w : world) (k : Z) :
  Py.float_eqb proportion Py.one = true ->
  in_range validation_proportion ->
  complement_percent validation_proportion = inr k ->
  let pinned := (name ++ ":3.*.*")%string in
  let tail := ("train[" ++ Py.str k ++ "%:]")%string in
  (exists res w',
      load_dataset rt "validation" batch_size name use_bfloat16 normalize
                   drop_remainder proportion true validation_proportion
                   aug_params w = (res, w') /\
      trace w' = (trace w ++ [CatalogInfo name;
                              CatalogLoad pinned tail])%list /\
      forall ds, res = inr ds -> source ds = (pinned, tail)) /\
  complement_percent (Py.decimal 8 10) = inr 19%Z /\
  complement_percent (Py.decimal 1 10) = inr 90%Z.
Proof.
  intros Hone Hvp Hk pinned tail.
  split; [|split; vm_compute; reflexivity].
  assert (Hp : in_range proportion).
  { rewrite (float_eqb_one _ Hone). exact in_range_one. }
  assert (Htarget : load_target "validation" name proportion true
                                validation_proportion = inr (pinned, tail)).
  { unfold load_target. rewrite Hone, Hk. reflexivity. }
  destruct (load_effects rt "validation" batch_size name use_bfloat16
              normalize drop_remainder proportion true
              validation_proportion aug_params w (pinned, tail) Hp Hvp
              Htarget)
    as (res & w' & Hrun & _ & Htrace & _ & Hsrc).
  exists res, w'. split; [exact Hrun|]. split; [now apply Htrace|].
  exact Hsrc.
Qed.

Lemma validation_split_reads_train_tail_witness :
  exists res w',
    load_dataset toy_runtime "validation" 128 "cifar10" false true true
                 Py.one true (Py.decimal 8 10) None empty_world =
    (res, w') /\
    trace w' = [CatalogInfo "cifar10";
                CatalogLoad "cifar10:3.*.*" "train[19%:]"].
Proof.
  destruct (validation_split_reads_train_tail
              toy_runtime 128 "cifar10" false true true Py.one
              (Py.decimal 8 10) None empty_world 19)
    as ((res & w' & Hrun & Htrace & _) & _).
  - reflexivity.
  - split; reflexivity.
  - reflexivity.
  - exists res, w'. split; [exact Hrun | exact Htrace].
Defined.

(** The pipeline that [load_dataset] returns is, in order: the catalog
    slice; on the train split only, a shuffle whose buffer is the size of
    the whole train split followed by a repeat; the per-example
    [preprocess]; the batching with the given size and remainder policy; at
    most one batch-level mixup stage, never on another split than the train
    split; the prefetch. *)
Theorem pipeline_stage_order
        (rt : runtime) (split : string) (batch_size : Z) (name : string)
        (use_bfloat16 normalize drop_remainder : bool)
        (proportion : Py.float) (validation_set : bool)
        (validation_proportion : Py.float)
        (aug_params : option ref) (w : world) (ds : dataset) (w' : world) :
  load_dataset rt split batch_size name use_bfloat16 normalize
               drop_remainder proportion validation_set
               validation_proportion aug_params w = (inr ds, w') ->
  exists mix,
    stages ds =
    ([SLoad (fst (source ds)) (snd (source ds))] ++
     (if (split =? TRAIN)%string
      then [SShuffle (train_num_examples (builder_info rt name)); SRepeat]
      else []) ++
     [SMap; SBatch batch_size drop_remainder] ++ mix ++ [SPrefetch])%list /\
    (mix = [] \/ exists f, mix = [SMapBatch f]) /\
    (split <> TRAIN -> mix = []).
Proof.
  intro Hload.
  destruct (load_dataset_returns rt split batch_size name use_bfloat16
              normalize drop_remainder proportion validation_set
              validation_proportion aug_params w ds w' Hload)
    as (_ & _ & target & _ & _ & -> & _).
  exists (mixup_stage split batch_size (params_ref aug_params w)
                      (params_of aug_params w)).
  rewrite pipeline_stages, pipeline_source.
  split; [reflexivity|].
  unfold mixup_stage. split.
  - destruct (Py.ltb 0 _ && _); [right; eexists; reflexivity | now left].
  - intro Hs. apply String.eqb_neq in Hs. rewrite Hs.
    now rewrite andb_false_r.
Qed.

Lemma test_pipeline_returns :
  exists ds w',
    load_dataset toy_runtime TEST 100 "cifar10" false true false
                 Py.one false default_validation_proportion None
                 empty_world = (inr ds, w').
Proof.
  rewrite (load_dataset_run toy_runtime TEST 100 "cifar10" false true false
             Py.one false default_validation_proportion None empty_world
             in_range_one in_range_default).
  assert (Ht : load_target TEST "cifar10" Py.one false
                           default_validation_proportion =
               inr ("cifar10", TEST)) by reflexivity.
  rewrite Ht. cbv zeta.
  destruct (traced_eval_returns
              toy_runtime (builder_info toy_runtime "cifar10") TEST
              (params_ref None empty_world) (params_of None empty_world)
              float32 true
              (world_after (builder_info toy_runtime "cifar10")
                           (load_events "cifar10" Py.one ("cifar10", TEST))
                           None empty_world))
    as (out & Hout).
  - discriminate.
  - right. split; [reflexivity|]. exists 31%nat, 31%nat. reflexivity.
  - rewrite Hout. eexists. eexists. reflexivity.
Qed.

Lemma pipeline_stage_order_witness :
  exists ds w' mix,
    load_dataset toy_runtime TEST 100 "cifar10" false true false
                 Py.one false default_validation_proportion None
                 empty_world = (inr ds, w') /\
    stages ds =
    ([SLoad (fst (source ds)) (snd (source ds))] ++
     [] ++ [SMap; SBatch 100 false] ++ mix ++ [SPrefetch])%list.
Proof.
  destruct test_pipeline_returns as (ds & w' & Hrun).
  destruct (pipeline_stage_order toy_runtime TEST 100 "cifar10" false true
                                 false Py.one false
                                 default_validation_proportion None
                                 empty_world ds w' Hrun)
    as (mix & Hst & _).
  exists ds, w', mix. split; [exact Hrun | exact Hst].
Defined.

Lemma mixup_among_stages f a b shuffled n d mix :
  (forall g, ~ In (SMapBatch g) shuffled) ->
  In (SMapBatch f)
     ([SLoad a b] ++ shuffled ++ [SMap; SBatch n d] ++ mix ++ [SPrefetch]) <->
  In (SMapBatch f) mix.
Proof.
  intro Hsh. rewrite !in_app_iff. cbn [In]. split.
  - intros [[H | []] | [H | [[H | [H | []]] | [H | [H | []]]]]];
      try discriminate; [now apply Hsh in H | exact H].
  - intro H. right. right. right. now left.
Qed.

(** In the pipeline that [load_dataset] returns, the batch-level mixup
    stage is installed exactly on the train split with [mixup_alpha > 0];
    it is the adaptive one exactly when [adaptive_mixup] is set; it is
    handed the very dict object that [load_dataset] worked on; and whenever
    the adaptive stage is installed that dict holds a [mixup_coeff] when
    [load_dataset] returns. *)
Theorem batch_mixup_stage
        (rt : runtime) (split : string) (batch_size : Z) (name : string)
        (use_bfloat16 normalize drop_remainder : bool)
        (proportion : Py.float) (validation_set : bool)
        (validation_proportion : Py.float)
        (aug_params : option ref) (w : world) (ds : dataset) (w' : world) :
  load_dataset rt split batch_size name use_bfloat16 normalize
               drop_remainder proportion validation_set
               validation_proportion aug_params w = (inr ds, w') ->
  let r := params_ref aug_params w in
  let p := params_of aug_params w in
  (forall f,
      In (SMapBatch f) (stages ds) <->
      split = TRAIN /\ 0 < get_or (mixup_alpha p) 0 /\
      f = if get_or (adaptive_mixup p) false
          then AdaptiveMixupAug batch_size r
          else Mixup batch_size r) /\
  (forall n r', In (SMapBatch (AdaptiveMixupAug n r')) (stages ds) ->
                exists coeff, mixup_coeff (heap w' r') = Some coeff).
Proof.
  intros Hload r p.
  destruct (load_dataset_returns rt split batch_size name use_bfloat16
              normalize drop_remainder proportion validation_set
              validation_proportion aug_params w ds w' Hload)
    as (_ & _ & target & _ & -> & -> & _).
  fold r p.
  assert (Hin : forall f,
    In (SMapBatch f)
       (stages (pipeline rt (builder_info rt name) split batch_size
                         drop_remainder target r p
                         (if use_bfloat16 then bfloat16 else float32)
                         normalize)) <->
    split = TRAIN /\ 0 < get_or (mixup_alpha p) 0 /\
    f = if get_or (adaptive_mixup p) false
        then AdaptiveMixupAug batch_size r
        else Mixup batch_size r).
  { intro f. rewrite pipeline_stages, mixup_among_stages.
    - unfold mixup_stage.
      destruct (Py.ltb 0 (get_or (mixup_alpha p) 0)) eqn:Ea;
        destruct (split =? TRAIN)%string eqn:Es; cbn [andb In].
      + apply ltb_lt in Ea. apply String.eqb_eq in Es. split.
        * intros [H | []]. inversion H. auto.
        * intros (_ & _ & ->). now left.
      + apply String.eqb_neq in Es. split; [intros [] | tauto].
      + apply ltb_ge in Ea. split; [intros []|].
        intros (_ & Hlt & _). eapply Qlt_not_le; eauto.
      + apply String.eqb_neq in Es. split; [intros [] | tauto].
    - intro g. destruct (split =? TRAIN)%string; cbn [In];
        intuition discriminate. }
  split; [exact Hin|].
  intros n r' Hadapt. apply Hin in Hadapt.
  destruct Hadapt as (_ & _ & Hf).
  destruct (get_or (adaptive_mixup p) false) eqn:Ead; [|discriminate].
  inversion Hf; subst n r'.
  cbn [heap world_after]. unfold r.
  rewrite heap_after_load_at. fold p. unfold params_after.
  destruct (needs_coeff p) eqn:En.
  - eexists. reflexivity.
  - unfold needs_coeff in En. rewrite Ead in En. cbn [andb] in En.
    apply negb_false_iff in En. unfold has_key in En.
    destruct (mixup_coeff p) as [c|]; [now exists c | discriminate].
Qed.

Lemma adaptive_pipeline_returns :
  exists ds w',
    load_dataset toy_runtime TRAIN 128 "cifar10" false true true
                 Py.one false default_validation_proportion (Some 0%nat)
                 (world_with adaptive_params) = (inr ds, w').
Proof.
  rewrite (load_dataset_run toy_runtime TRAIN 128 "cifar10" false true true
             Py.one false default_validation_proportion (Some 0%nat)
             (world_with adaptive_params) in_range_one in_range_default).
  assert (Ht : load_target TRAIN "cifar10" Py.one false
                           default_validation_proportion =
               inr ("cifar10", TRAIN)) by reflexivity.
  rewrite Ht. cbv zeta.
  destruct (traced_train_plain
              toy_runtime (builder_info toy_runtime "cifar10")
              (params_ref (Some 0%nat) (world_with adaptive_params))
              (params_of (Some 0%nat) (world_with adaptive_params))
              float32 true
              (world_after (builder_info toy_runtime "cifar10")
                           (load_events "cifar10" Py.one ("cifar10", TRAIN))
                           (Some 0%nat) (world_with adaptive_params)))
    as (out & Hout).
  - exists 31%nat, 31%nat. reflexivity.
  - reflexivity.
  - discriminate.
  - now right.
  - rewrite Hout. eexists. eexists. reflexivity.
Qed.

Lemma batch_mixup_stage_witness :
  exists ds w',
    load_dataset toy_runtime TRAIN 128 "cifar10" false true true
                 Py.one false default_validation_proportion (Some 0%nat)
                 (world_with adaptive_params) = (inr ds, w') /\
    In (SMapBatch (AdaptiveMixupAug 128 0%nat)) (stages ds) /\
    exists coeff, mixup_coeff (heap w' 0%nat) = Some coeff.
Proof.
  destruct adaptive_pipeline_returns as (ds & w' & Hrun).
  destruct (batch_mixup_stage toy_runtime TRAIN 128 "cifar10" false true
                              true Py.one false
                              default_validation_proportion (Some 0%nat)
                              (world_with adaptive_params) ds w' Hrun)
    as (Hin & Hcoeff).
  assert (H : In (SMapBatch (AdaptiveMixupAug 128 0%nat)) (stages ds)).
  { apply Hin. split; [reflexivity|]. split; [|reflexivity].
    vm_compute. reflexivity. }
  exists ds, w'. split; [exact Hrun|]. split; [exact H|].
  exact (Hcoeff _ _ H).
Defined.

(** With [bfloat16] precision and normalization, [load_dataset] fails on
    every split other than the train split: the trace of [preprocess] is
    rejected with a dtype error, after the catalog load. *)
Theorem bfloat16_normalization_is_rejected
        (rt : runtime) (split : string) (batch_size : Z) (name : string)
        (drop_remainder : bool)
        (proportion : Py.float) (validation_set : bool)
        (validation_proportion : Py.float)
        (aug_params : option ref) (w : world) (target : string * string) :
  in_range proportion -> in_range validation_proportion ->
  load_target split name proportion validation_set validation_proportion =
  inr target ->
  split <> TRAIN ->
  exists w',
    load_dataset rt split batch_size name true true drop_remainder
                 proportion validation_set validation_proportion
                 aug_params w = (inl DtypeMismatch, w') /\
    In (CatalogLoad (fst target) (snd target)) (trace w').
Proof.
  intros Hp Hvp Ht Hs.
  rewrite (load_dataset_run rt split batch_size name true true
             drop_remainder proportion validation_set validation_proportion
             aug_params w Hp Hvp).
  rewrite Ht. cbv zeta.
  rewrite traced_eval_rejects by (exact Hs || discriminate).
  eexists. split; [reflexivity|].
  cbn [trace world_after]. unfold load_events.
  apply in_or_app. right. apply in_or_app. right. now left.
Qed.

Lemma bfloat16_normalization_is_rejected_witness :
  exists w',
    load_dataset toy_runtime TEST 64 "cifar100" true true false
                 Py.one false default_validation_proportion None
                 empty_world = (inl DtypeMismatch, w') /\
    In (CatalogLoad "cifar100" TEST) (trace w').
Proof.
  apply (bfloat16_normalization_is_rejected
           toy_runtime TEST 64 "cifar100" false Py.one false
           default_validation_proportion None empty_world
           ("cifar100", TEST)).
  - split; reflexivity.
  - split; reflexivity.
  - reflexivity.
  - discriminate.
Defined.

(** ** Further properties of [preprocess] and [_augmix] *)

(** On every split other than the train split, the per-example function
    of a pipeline that [load_dataset] returned only normalizes the image
    (when asked to, and then the precision is [float32]) and casts the
    label to the active precision: it reads no key of the config and no
    randomness, logs nothing and leaves the world as it was. *)
Theorem evaluation_preprocessing_is_pure
        (rt : runtime) (split : string) (batch_size : Z) (name : string)
        (use_bfloat16 normalize drop_remainder : bool)
        (proportion : Py.float) (validation_set : bool)
        (validation_proportion : Py.float)
        (aug_params : option ref) (w : world) (ds : dataset) (w' : world) :
  load_dataset rt split batch_size name use_bfloat16 normalize
               drop_remainder proportion validation_set
               validation_proportion aug_params w = (inr ds, w') ->
  split <> TRAIN ->
  let d := if use_bfloat16 then bfloat16 else float32 in
  (normalize = true -> use_bfloat16 = false) /\
  forall image label w1,
    (normalize = true -> three_channels image) ->
    run_example ds image label w1 =
    (inr (if normalize then normalized image else image,
          cast_label label d), w1).
Proof.
  intros Hload Hs d.
  destruct (load_dataset_returns rt split batch_size name use_bfloat16
              normalize drop_remainder proportion validation_set
              validation_proportion aug_params w ds w' Hload)
    as (_ & _ & target & _ & _ & -> & out & Hout).
  assert (Hd : normalize = true -> use_bfloat16 = false).
  { intros ->. destruct use_bfloat16; [|reflexivity].
    rewrite traced_eval_rejects in Hout by (exact Hs || discriminate).
    discriminate. }
  split; [exact Hd|].
  intros image label w1 Himg.
  unfold run_example. rewrite pipeline_example_fn.
  rewrite preprocess_eval by exact Hs.
  destruct normalize; [|reflexivity].
  unfold d. rewrite (Hd eq_refl).
  now rewrite (normalize_float32_run image (Himg eq_refl)).
Qed.

Lemma evaluation_preprocessing_is_pure_witness :
  exists ds w',
    load_dataset toy_runtime TEST 100 "cifar10" false true false
                 Py.one false default_validation_proportion None
                 empty_world = (inr ds, w') /\
    run_example ds gray_image 7 empty_world =
    (inr (normalized gray_image, cast_label 7 float32), empty_world).
Proof.
  destruct test_pipeline_returns as (ds & w' & Hrun).
  destruct (evaluation_preprocessing_is_pure
              toy_runtime TEST 100 "cifar10" false true false
              Py.one false default_validation_proportion None empty_world
              ds w' Hrun)
    as (_ & Hex).
  - discriminate.
  - exists ds, w'. split; [exact Hrun|]. apply Hex.
    intros _. exists [32; 32]%nat. reflexivity.
Defined.

(** On the train split of a catalog of colour images, with [augmix]
    switched off and [mixup_alpha > 0] or [label_smoothing > 0],
    [load_dataset] returns a pipeline when normalization is off or the
    precision is [float32], and every colour image with a class-index
    label gets a label vector of length [num_classes] that has a one at
    the label and sums to one. *)
Theorem train_labels_are_distributions
        (rt : runtime) (batch_size : Z) (name : string)
        (use_bfloat16 normalize drop_remainder : bool)
        (proportion : Py.float) (validation_set : bool)
        (validation_proportion : Py.float)
        (aug_params : option ref) (w : world) (label : Z)
        (target : string * string) :
  in_range proportion -> in_range validation_proportion ->
  load_target TRAIN name proportion validation_set validation_proportion =
  inr target ->
  rgb_catalog (builder_info rt name) ->
  let p := params_of aug_params w in
  let classes := num_classes (builder_info rt name) in
  augmix p = Some false ->
  (get_or (random_augment p) false = true ->
   exists count, aug_count p = Some count /\
                 (normalize = true -> (1 <= count)%Z)) ->
  normalize = false \/ use_bfloat16 = false ->
  0 < get_or (mixup_alpha p) 0 \/ 0 < get_or (label_smoothing p) 0 ->
  (0 <= label < classes)%Z ->
  exists ds w',
    load_dataset rt TRAIN batch_size name use_bfloat16 normalize
                 drop_remainder proportion validation_set
                 validation_proportion aug_params w = (inr ds, w') /\
    forall image w1,
      rgb_image image ->
      heap w1 = heap w' ->
      exists image' label' w2,
        run_example ds image label w1 = (inr (image', label'), w2) /\
        tshape label' = [Z.to_nat classes] /\
        tat label' [Z.to_nat label] == 1 /\
        Qsum (entries label') == 1.
Proof.
  intros Hp Hvp Ht Hinfo p classes Ha Hcount Hn Hpos Hlabel.
  set (info := builder_info rt name) in *.
  set (r := params_ref aug_params w).
  set (d := if use_bfloat16 then bfloat16 else float32).
  pose proof (load_dataset_run rt TRAIN batch_size name use_bfloat16 normalize
                drop_remainder proportion validation_set
                validation_proportion aug_params w Hp Hvp) as Hrun.
  rewrite Ht in Hrun. cbv zeta in Hrun. fold info p r d in Hrun.
  set (w' := world_after info (load_events name proportion target)
                         aug_params w) in *.
  assert (Hat : heap w' r = params_after info p).
  { unfold w', r. cbn [heap world_after]. apply heap_after_load_at. }
  destruct (params_after_keeps_reads info p) as (Hk1 & Hk2 & _).
  assert (Hd : normalize = false \/ d = float32).
  { destruct Hn as [Hn | Hb]; [now left|]. right. unfold d. now rewrite Hb. }
  assert (Hkeys : forall w0, heap w0 = heap w' ->
    augmix (heap w0 r) = Some false /\
    (get_or (random_augment p) false = true ->
     exists count, aug_count (heap w0 r) = Some count /\
                   (normalize = true -> (1 <= count)%Z))).
  { intros w0 Hw0. rewrite Hw0, Hat, Hk1, Hk2. now split. }
  destruct (Hkeys w' eq_refl) as [Ha' Hc'].
  destruct (traced_train_plain rt info r p d normalize w' Hinfo Ha' Hc' Hd)
    as (out & Hout).
  rewrite Hout in Hrun.
  eexists. exists w'. split; [exact Hrun|].
  intros image w1 Himg Hheap.
  destruct (Hkeys w1 Hheap) as [Ha1 Hc1].
  assert (Hhot : wants_one_hot p = true).
  { unfold wants_one_hot. apply orb_true_iff.
    destruct Hpos as [H | H]; [left | right]; now apply ltb_lt. }
  unfold run_example. rewrite pipeline_example_fn. rewrite Hhot.
  destruct Hinfo as (h & wd & Hshape). fold info in Hshape. rewrite Hshape.
  destruct (preprocess_train_plain
              rt (S h) (S wd) (get_or (random_augment p) false) r d normalize
              true (num_classes info) image label w1 Himg Ha1)
    as (image1 & w2 & Hplain & Haug & Hpre).
  { intro Hra. destruct (Hc1 Hra) as (count & Hc & _). now exists count. }
  rewrite Hpre.
  assert (Hnorm : exists image',
    (if normalize then normalize_convert_image image1 d else inr image1) =
    inr image').
  { destruct normalize; [|eexists; reflexivity].
    destruct Hd as [Hd | ->]; [discriminate|].
    assert (H3 : three_channels image1).
    { destruct (get_or (random_augment p) false) eqn:Era.
      - destruct (Hc1 eq_refl) as (count & Hc & Hge).
        destruct (Haug eq_refl count Hc) as [-> _].
        specialize (Hge eq_refl).
        destruct (Z.to_nat count) as [|n] eqn:En; [lia|].
        exists [S n; S h; S wd].
        cbn [seq map stack tshape List.length distorted crop_and_flip].
        now rewrite length_map, length_seq.
      - destruct (Hplain eq_refl) as [-> _].
        exists [S h; S wd]. reflexivity. }
    rewrite (normalize_float32_run image1 H3). eexists. reflexivity. }
  destruct Hnorm as (image' & ->).
  eexists. eexists. exists w2. split; [reflexivity|].
  now apply one_hot_is_distribution.
Qed.

Lemma train_labels_are_distributions_witness :
  exists ds w',
    load_dataset toy_runtime TRAIN 128 "cifar10" false true true
                 Py.one false default_validation_proportion (Some 0%nat)
                 (world_with plain_params) = (inr ds, w') /\
    exists image' label' w2,
      run_example ds gray_image 3 w' = (inr (image', label'), w2) /\
      tshape label' = [10%nat] /\
      Qsum (entries label') == 1.
Proof.
  destruct (train_labels_are_distributions
              toy_runtime 128 "cifar10" false true true Py.one false
              default_validation_proportion
              (Some 0%nat) (world_with plain_params) 3 ("cifar10", TRAIN))
    as (ds & w' & Hrun & Hex).
  - split; reflexivity.
  - split; reflexivity.
  - reflexivity.
  - exists 31%nat, 31%nat. reflexivity.
  - reflexivity.
  - intros _. exists 3%Z. split; [reflexivity | lia].
  - now right.
  - left. vm_compute. reflexivity.
  - vm_compute. split; [discriminate | reflexivity].
  - exists ds, w'. split; [exact Hrun|].
    destruct (Hex gray_image w')
      as (image' & label' & w2 & Hpre & Hshape & _ & Hsum).
    + exists 31%nat, 31%nat. reflexivity.
    + reflexivity.
    + exists image', label', w2. repeat split; assumption.
Defined.

(** Where [preprocess] returns, the label is one-hot exactly on the train
    split with [mixup_alpha > 0] or [label_smoothing > 0], and the cast
    scalar label otherwise. *)
Lemma returned_label_encoding
      (rt : runtime) (split : string) (batch_size : Z) (name : string)
      (use_bfloat16 normalize drop_remainder : bool)
      (proportion : Py.float) (validation_set : bool)
      (validation_proportion : Py.float)
      (aug_params : option ref) (w : world) (ds : dataset) (w' : world)
      (image : tensor) (label : Z) (w1 : world)
      (image' label' : tensor) (w2 : world) :
  load_dataset rt split batch_size name use_bfloat16 normalize
               drop_remainder proportion validation_set
               validation_proportion aug_params w = (inr ds, w') ->
  run_example ds image label w1 = (inr (image', label'), w2) ->
  let p := params_of aug_params w in
  label' =
  if (split =? TRAIN)%string &&
     (Py.ltb 0 (get_or (mixup_alpha p) 0) ||
      Py.ltb 0 (get_or (label_smoothing p) 0))
  then one_hot label (num_classes (builder_info rt name))
  else cast_label label (if use_bfloat16 then bfloat16 else float32).
Proof.
  intros Hload Hex p.
  destruct (load_dataset_returns rt split batch_size name use_bfloat16
              normalize drop_remainder proportion validation_set
              validation_proportion aug_params w ds w' Hload)
    as (_ & _ & target & _ & _ & -> & _).
  unfold run_example in Hex. rewrite pipeline_example_fn in Hex.
  apply preprocess_label in Hex. exact Hex.
Qed.

Lemma evaluation_preprocessing_is_pure_at_test (ds : dataset) (w' : world) :
  load_dataset toy_runtime TEST 100 "cifar10" false true false
               Py.one false default_validation_proportion None
               empty_world = (inr ds, w') ->
  run_example ds gray_image 7 w' =
  (inr (normalized gray_image, cast_label 7 float32), w').
Proof.
  intro Hrun.
  destruct (load_dataset_returns toy_runtime TEST 100 "cifar10" false true
              false Py.one false default_validation_proportion None
              empty_world ds w' Hrun)
    as (_ & _ & target & _ & _ & -> & _).
  unfold run_example. rewrite pipeline_example_fn.
  rewrite preprocess_eval by discriminate.
  rewrite (normalize_float32_run gray_image)
    by (exists [32; 32]%nat; reflexivity).
  reflexivity.
Qed.

Lemma returned_label_encoding_witness :
  exists ds w' image' label',
    load_dataset toy_runtime TEST 100 "cifar10" false true false
                 Py.one false default_validation_proportion None
                 empty_world = (inr ds, w') /\
    run_example ds gray_image 7 w' = (inr (image', label'), w') /\
    label' = cast_label 7 float32.
Proof.
  destruct test_pipeline_returns as (ds & w' & Hrun).
  pose proof (evaluation_preprocessing_is_pure_at_test ds w' Hrun) as Hex.
  exists ds, w'. eexists. eexists.
  split; [exact Hrun|]. split; [exact Hex|].
  exact (returned_label_encoding
           toy_runtime TEST 100 "cifar10" false true false Py.one false
           default_validation_proportion None empty_world ds w'
           gray_image 7 w' _ _ w' Hrun Hex).
Defined.

(** With [random_augment] on and [augmix] off, the train split returns the
    stack of [aug_count] distorted copies of the cropped and flipped colour
    image (normalized when asked to, in [float32] and for at least one
    copy): every copy is one distortion of that same image, not a chain,
    each reads its own tape cell, and the augmenter is called [aug_count]
    times. *)
Theorem random_augment_stacks_independent_copies
        (rt : runtime) (h wd : nat) (r : ref) (d : dtype)
        (normalize onehot : bool) (num_classes : Z)
        (image : tensor) (label : Z) (w : world) (count : Z) :
  rgb_image image ->
  aug_count (heap w r) = Some count ->
  augmix (heap w r) = Some false ->
  (normalize = true -> d = float32 /\ (1 <= count)%Z) ->
  let base := crop_and_flip rt image (h, wd, 3%nat) w in
  let copies :=
    stack (map (fun i => distorted rt (tape w + 2 + i) base)
               (seq 0 (Z.to_nat count))) in
  preprocess rt TRAIN (h, wd, 3%nat) true r d normalize onehot num_classes
             image label w =
  (inr (if normalize then normalized copies else copies,
        if onehot then one_hot label num_classes else cast_label label d),
   advance (2 + Z.to_nat count) (repeat Distort (Z.to_nat count)) w).
Proof.
  intros Himg Hc Ha Hn base copies.
  destruct (preprocess_train_plain rt h wd true r d normalize onehot
              num_classes image label w Himg Ha)
    as (image1 & w' & _ & Haug & Hrun).
  { intros _. now exists count. }
  destruct (Haug eq_refl count Hc) as [-> ->].
  rewrite Hrun. fold base. fold copies.
  destruct normalize; [|reflexivity].
  destruct (Hn eq_refl) as [-> Hcount].
  assert (H3 : three_channels copies).
  { unfold copies. destruct (Z.to_nat count) as [|n] eqn:En; [lia|].
    exists [S n; h; wd].
    cbn [seq map stack tshape List.length distorted]. unfold base.
    cbn [crop_and_flip tshape]. now rewrite length_map, length_seq. }
  now rewrite (normalize_float32_run copies H3).
Qed.

Lemma random_augment_stacks_independent_copies_witness :
  exists image' label',
    preprocess toy_runtime TRAIN (32, 32, 3)%nat true 0%nat float32 true
               false 10 gray_image 3 (world_with plain_params) =
    (inr (image', label'),
     advance 5 [Distort; Distort; Distort] (world_with plain_params)).
Proof.
  eexists. eexists.
  apply (random_augment_stacks_independent_copies
           toy_runtime 32%nat 32%nat 0%nat float32 true false 10
           gray_image 3 (world_with plain_params) 3).
  - exists 31%nat, 31%nat. reflexivity.
  - reflexivity.
  - reflexivity.
  - intros _. split; [reflexivity | lia].
Defined.

(** With [random_augment] on, [aug_count <= 0] and normalization asked
    for, there is no copy to stack: the empty stack has no channel axis
    and its normalization is rejected. *)
Theorem random_augment_without_copies_is_rejected
        (rt : runtime) (h wd : nat) (r : ref)
        (onehot : bool) (num_classes : Z)
        (image : tensor) (label : Z) (w : world) (count : Z) :
  rgb_image image ->
  aug_count (heap w r) = Some count ->
  augmix (heap w r) = Some false ->
  (count <= 0)%Z ->
  preprocess rt TRAIN (h, wd, 3%nat) true r float32 true onehot num_classes
             image label w =
  (inl ShapeMismatch, advance 2 [] w).
Proof.
  intros Himg Hc Ha Hcount.
  destruct (preprocess_train_plain rt h wd true r float32 true onehot
              num_classes image label w Himg Ha)
    as (image1 & w' & _ & Haug & Hrun).
  { intros _. now exists count. }
  destruct (Haug eq_refl count Hc) as [-> ->].
  rewrite Hrun.
  replace (Z.to_nat count) with 0%nat by lia.
  reflexivity.
Qed.

Lemma random_augment_without_copies_is_rejected_witness :
  preprocess toy_runtime TRAIN (32, 32, 3)%nat true 0%nat float32 true
             false 10 gray_image 3
             (world_with (mkAugParams None (Some true) None None None
                                      (Some false) None None None
                                      (Some 0%Z) None)) =
  (inl ShapeMismatch,
   advance 2 []
           (world_with (mkAugParams None (Some true) None None None
                                    (Some false) None None None
                                    (Some 0%Z) None))).
Proof.
  apply (random_augment_without_copies_is_rejected
           toy_runtime 32%nat 32%nat 0%nat false 10 gray_image 3
           (world_with (mkAugParams None (Some true) None None None
                                    (Some false) None None None
                                    (Some 0%Z) None)) 0).
  - exists 31%nat, 31%nat. reflexivity.
  - reflexivity.
  - reflexivity.
  - lia.
Defined.

(** *** Which computations leave the dicts alone *)

Lemma keeps_heap_ret {A} (x : A) : keeps_heap (ret x).
Proof. intros w y w' H. now inversion H. Qed.

Lemma keeps_heap_bind {A B} (c : M A) (k : A -> M B) :
  keeps_heap c -> (forall x, keeps_heap (k x)) -> keeps_heap (bind c k).
Proof.
  intros Hc Hk w y w' H. apply bind_inr_inv in H.
  destruct H as (x & w1 & H1 & H2).
  rewrite (Hk x _ _ _ H2). exact (Hc _ _ _ H1).
Qed.

Lemma keeps_heap_lift {A} (r : result A) : keeps_heap (lift r).
Proof. intros w y w' H. unfold lift in H. now inversion H. Qed.

Lemma keeps_heap_raise {A} e : keeps_heap (@raise A e).
Proof. intros w y w' H. discriminate. Qed.

Lemma keeps_heap_draw : keeps_heap draw.
Proof. intros w y w' H. now inversion H. Qed.

Lemma keeps_heap_emit ev : keeps_heap (emit ev).
Proof. intros w y w' H. now inversion H. Qed.

Lemma keeps_heap_dict_item {A} r (field : AugParams -> option A) key :
  keeps_heap (dict_item r field key).
Proof.
  intros w y w' H. unfold dict_item, bind, read in H.
  destruct (field (heap w r)); [|discriminate].
  now inversion H.
Qed.

Lemma keeps_heap_replicateM {A} (c : M A) n :
  keeps_heap c -> keeps_heap (replicateM n c).
Proof.
  intro Hc. induction n as [|n IH]; cbn [replicateM].
  - apply keeps_heap_ret.
  - apply keeps_heap_bind; [exact Hc|]. intro x.
    apply keeps_heap_bind; [exact IH|]. intro xs. apply keeps_heap_ret.
Qed.

Section MoreFacts.

Variable rt : runtime.

Lemma keeps_heap_distort image : keeps_heap (distort rt image).
Proof.
  unfold distort. apply keeps_heap_bind; [apply keeps_heap_emit|].
  intros _. apply keeps_heap_bind; [apply keeps_heap_draw|].
  intro. apply keeps_heap_ret.
Qed.

Lemma keeps_heap_random_crop image size :
  keeps_heap (random_crop rt image size).
Proof.
  unfold random_crop. destruct size as [[h wd] c].
  destruct (tshape image) as [|a [|b [|c' [|x l]]]];
    try apply keeps_heap_raise.
  destruct (_ && _); [|apply keeps_heap_raise].
  apply keeps_heap_bind; [apply keeps_heap_draw|].
  intro. apply keeps_heap_ret.
Qed.

(** The crop, flip and RandAugment stage of the train split keeps the
    dicts, for every image. *)
Lemma train_stage_keeps_heap (random_augment : bool) r image h wd c :
  keeps_heap
    (image <- lift (resize_with_crop_or_pad rt image (h + 4) (wd + 4)) ;;
     image <- random_crop rt image (h, wd, c) ;;
     image <- random_flip_left_right rt image ;;
     if random_augment
     then
       count <- dict_item r aug_count "aug_count" ;;
       augmented <- replicateM (Z.to_nat count) (distort rt image) ;;
       ret (stack augmented)
     else ret image).
Proof.
  apply keeps_heap_bind; [apply keeps_heap_lift|]. intro x.
  apply keeps_heap_bind; [apply keeps_heap_random_crop|]. intro y.
  apply keeps_heap_bind.
  { unfold random_flip_left_right.
    apply keeps_heap_bind; [apply keeps_heap_draw|].
    intro. apply keeps_heap_ret. }
  intro z. destruct random_augment; [|apply keeps_heap_ret].
  apply keeps_heap_bind; [apply keeps_heap_dict_item|]. intro count.
  apply keeps_heap_bind.
  { apply keeps_heap_replicateM. apply keeps_heap_distort. }
  intro. apply keeps_heap_ret.
Qed.

End MoreFacts.

(** With [augmix] set, the train split ignores the [normalize] argument of
    [load_dataset]: the outcome of [preprocess] (failures included) is the
    same with normalization asked for and without, since the augmix step
    normalizes on its own. *)
Theorem augmix_overrides_normalize_flag
        (rt : runtime) (image_shape : nat * nat * nat)
        (random_augment : bool) (r : ref) (d : dtype) (onehot : bool)
        (num_classes : Z) (image : tensor) (label : Z) (w : world) :
  augmix (heap w r) = Some true ->
  preprocess rt TRAIN image_shape random_augment r d true onehot
             num_classes image label w =
  preprocess rt TRAIN image_shape random_augment r d false onehot
             num_classes image label w.
Proof.
  intro Ha. unfold preprocess. rewrite String.eqb_refl.
  destruct image_shape as [[h wd] c].
  pose proof (train_stage_keeps_heap rt random_augment r image h wd c)
    as Hkeep.
  match goal with
  | |- bind ?stage _ w = _ => destruct (stage w) as [[e | x] w1] eqn:Est
  end.
  - now rewrite !(bind_raise _ _ _ _ _ Est).
  - rewrite !(bind_run _ _ _ _ _ Est).
    rewrite <- (Hkeep _ _ _ Est) in Ha.
    now rewrite !(bind_run _ _ _ _ _ (dict_item_present r _ _ _ w1 Ha)).
Qed.

Lemma augmix_overrides_normalize_flag_witness :
  preprocess toy_runtime TRAIN (32, 32, 3)%nat false 0%nat float32 true
             false 10 gray_image 3 (world_with augmix_params) =
  preprocess toy_runtime TRAIN (32, 32, 3)%nat false 0%nat float32 false
             false 10 gray_image 3 (world_with augmix_params).
Proof.
  apply (augmix_overrides_normalize_flag
           toy_runtime (32, 32, 3)%nat false 0%nat float32 false 10
           gray_image 3 (world_with augmix_params)).
  reflexivity.
Defined.

(** [_augmix] reads its four parameters in the order [augmix_depth],
    [augmix_width], [augmix_prob_coeff], [aug_count] and fails with the
    [KeyError] of the first one that is absent, before anything is sampled
    or distorted: the world is unchanged. *)
Theorem augmix_reports_first_missing_key
        (rt : runtime) (image : tensor) (r : ref) (d : dtype) (w : world) :
  let p := heap w r in
  (augmix_depth p = None ->
   _augmix rt image r d w = (inl (KeyError "augmix_depth"), w)) /\
  (augmix_depth p <> None -> augmix_width p = None ->
   _augmix rt image r d w = (inl (KeyError "augmix_width"), w)) /\
  (augmix_depth p <> None -> augmix_width p <> None ->
   augmix_prob_coeff p = None ->
   _augmix rt image r d w = (inl (KeyError "augmix_prob_coeff"), w)) /\
  (augmix_depth p <> None -> augmix_width p <> None ->
   augmix_prob_coeff p <> None -> aug_count p = None ->
   _augmix rt image r d w = (inl (KeyError "aug_count"), w)).
Proof.
  intro p. unfold p, _augmix, dict_item, bind, read, raise, ret.
  destruct (augmix_depth (heap w r)); destruct (augmix_width (heap w r));
    destruct (augmix_prob_coeff (heap w r)); destruct (aug_count (heap w r));
    repeat split; intros; try reflexivity; try congruence.
Qed.

Lemma augmix_reports_first_missing_key_witness :
  _augmix toy_runtime gray_image 0%nat float32 empty_world =
  (inl (KeyError "augmix_depth"), empty_world).
Proof.
  apply (augmix_reports_first_missing_key
           toy_runtime gray_image 0%nat float32 empty_world).
  reflexivity.
Defined.

(** With [aug_count <= 0], [_augmix] in [float32] makes no variant of an
    image of three channels: it returns the stack that holds only the
    normalized image, without sampling anything. *)
Theorem augmix_without_variants
        (rt : runtime) (image : tensor) (r : ref) (w : world)
        (depth width : Z) (prob_coeff : Q) (count : Z) :
  three_channels image ->
  augmix_depth (heap w r) = Some depth ->
  augmix_width (heap w r) = Some width ->
  augmix_prob_coeff (heap w r) = Some prob_coeff ->
  aug_count (heap w r) = Some count ->
  (count <= 0)%Z ->
  _augmix rt image r float32 w = (inr (stack [normalized image]), w) /\
  normalize_convert_image image float32 = inr (normalized image) /\
  tshape (stack [normalized image]) = (1 :: tshape image)%nat.
Proof.
  intros Himg Hd Hw Hc Hn Hcount. split; [|split].
  - unfold _augmix.
    rewrite (bind_run _ _ _ _ _ (dict_item_present r _ _ _ w Hd)).
    rewrite (bind_run _ _ _ _ _ (dict_item_present r _ _ _ w Hw)).
    rewrite (bind_run _ _ _ _ _ (dict_item_present r _ _ _ w Hc)).
    rewrite (bind_run _ _ _ _ _ (dict_item_present r _ _ _ w Hn)).
    replace (Z.to_nat count) with 0%nat by lia.
    cbn [replicateM].
    rewrite (bind_run _ _ _ _ _ (ret_run _ _)).
    rewrite (bind_run _ _ _ _ _
               (lift_run _ _ _ (normalize_float32_run image Himg))).
    reflexivity.
  - now apply normalize_float32_run.
  - cbn [stack tshape List.length]. f_equal.
    now destruct (normalized_shape image Himg).
Qed.

Lemma augmix_without_variants_witness :
  _augmix toy_runtime gray_image 0%nat float32
          (world_with (mkAugParams None None None None None (Some true)
                                   (Some 1%Z) (Some 2%Z) (Some 1) (Some 0%Z)
                                   None)) =
  (inr (stack [normalized gray_image]),
   world_with (mkAugParams None None None None None (Some true)
                           (Some 1%Z) (Some 2%Z) (Some 1) (Some 0%Z) None)).
Proof.
  apply (augmix_without_variants
           toy_runtime gray_image 0%nat
           (world_with (mkAugParams None None None None None (Some true)
                                    (Some 1%Z) (Some 2%Z) (Some 1)
                                    (Some 0%Z) None))
           1 2 1 0); try reflexivity; try lia.
  exists [32; 32]%nat. reflexivity.
Defined.

(** ** Further properties of [augment_and_mix] *)

(** With [width = 0] there is no branch: [augment_and_mix] in [float32]
    returns [(1 - mix_weight) * normalize(image)], which is not a convex
    combination, and never calls the augmenter. *)
Theorem augment_and_mix_without_branches
        (rt : runtime) (image : tensor) (depth : Z) (prob_coeff : Q)
        (w : world) :
  three_channels image ->
  exists out w',
    augment_and_mix rt image depth 0 prob_coeff float32 w = (inr out, w') /\
    (forall idx,
        in_bounds idx (tshape image) ->
        tat out idx ==
        (1 - mix_weight_of rt w prob_coeff) * tat (normalized image) idx) /\
    count_distort (trace w') = count_distort (trace w).
Proof.
  intro Himg.
  destruct (augment_and_mix_run rt image depth 0 prob_coeff w Himg)
    as (out & Hrun & _ & _ & Hat); [lia|].
  exists out. eexists. split; [exact Hrun|]. split.
  - intros idx Hidx. rewrite (Hat idx Hidx). unfold branch_sum.
    cbn [Py.range Z.to_nat seq map Qsum fold_right]. ring.
  - cbn [trace advance].
    rewrite count_distort_app, count_distort_mix_events.
    cbn [Z.to_nat cells_between]. lia.
Qed.

Lemma augment_and_mix_without_branches_witness :
  exists out w',
    augment_and_mix toy_runtime gray_image 1 0 1 float32 empty_world =
    (inr out, w') /\
    count_distort (trace w') = 0%nat.
Proof.
  destruct (augment_and_mix_without_branches
              toy_runtime gray_image 1 1 empty_world)
    as (out & w' & Hrun & _ & Hcount).
  - exists [32; 32]%nat. reflexivity.
  - exists out, w'. split; [exact Hrun | exact Hcount].
Defined.

(** With [depth = 0] no branch is distorted, so when the branch weights sum
    to one the two-level mixture collapses: [augment_and_mix] in
    [float32] returns the normalized image itself, whatever the mix weight
    is. *)
Theorem augment_and_mix_depth_zero
        (rt : runtime) (image : tensor) (width : Z) (prob_coeff : Q)
        (w : world) :
  (1 <= width)%Z ->
  three_channels image ->
  Qsum (branch_weights_of rt w width prob_coeff) == 1 ->
  exists out w',
    augment_and_mix rt image 0 width prob_coeff float32 w = (inr out, w') /\
    (forall idx,
        in_bounds idx (tshape image) ->
        tat out idx == tat (normalized image) idx) /\
    count_distort (trace w') = count_distort (trace w).
Proof.
  intros Hw Himg Hsum.
  destruct (augment_and_mix_run rt image 0 width prob_coeff w Himg)
    as (out & Hrun & _ & _ & Hat); [lia|].
  assert (Hlen : forall j, (j < Z.to_nat width)%nat ->
                           chain_length rt w 0 width j = 0%nat).
  { intros j Hj. now rewrite chain_length_fixed by (lia || exact Hj). }
  exists out. eexists. split; [exact Hrun|]. split.
  - intros idx Hidx. rewrite (Hat idx Hidx). unfold branch_sum.
    set (bw := branch_weights_of rt w width prob_coeff) in *.
    set (x0 := tat (normalized image) idx).
    assert (Hmap :
      map (fun i => nth i bw 0 *
                    tat (normalized (branch_image rt w image 0 width i)) idx)
          (Py.range width) =
      map (fun i => nth i bw 0 * x0) (Py.range width)).
    { apply map_ext_in. intros i Hi. apply in_seq in Hi.
      unfold branch_image, branch. rewrite Hlen by lia. reflexivity. }
    rewrite Hmap, Qsum_scaled.
    assert (Hone : Qsum (map (fun i => nth i bw 0) (Py.range width)) == 1).
    { unfold Py.range.
      rewrite <- (branch_weights_length rt w width prob_coeff Hw).
      fold bw. rewrite map_nth_seq. exact Hsum. }
    rewrite Hone. ring.
  - cbn [trace advance].
    rewrite count_distort_app, count_distort_mix_events,
      cells_between_from_zero.
    rewrite (cells_before_const _ 0%nat) by exact Hlen. lia.
Qed.

Lemma augment_and_mix_depth_zero_witness :
  exists out w',
    augment_and_mix toy_runtime gray_image 0 2 1 float32 empty_world =
    (inr out, w') /\
    forall idx,
      in_bounds idx [32; 32; 3]%nat ->
      tat out idx == tat (normalized gray_image) idx.
Proof.
  destruct (augment_and_mix_depth_zero
              toy_runtime gray_image 2 1 empty_world)
    as (out & w' & Hrun & Hat & _).
  - lia.
  - exists [32; 32]%nat. reflexivity.
  - vm_compute. reflexivity.
  - exists out, w'. split; [exact Hrun | exact Hat].
Defined.

(** With a fixed [depth >= 0] one call of [augment_and_mix] in [float32]
    logs, in this order, one Beta sample, one Dirichlet sample exactly when
    [width > 1], no uniform sample, and [width * depth] calls of the
    augmenter; it consumes one tape cell for each of them and leaves the
    dicts alone. *)
Theorem augment_and_mix_fixed_depth_effects
        (rt : runtime) (image : tensor) (depth width : Z) (prob_coeff : Q)
        (w : world) :
  (0 <= depth)%Z ->
  three_channels image ->
  let calls := (Z.to_nat width * Z.to_nat depth)%nat in
  exists out w',
    augment_and_mix rt image depth width prob_coeff float32 w = (inr out, w') /\
    trace w' =
    (trace w ++ [SampleBeta prob_coeff prob_coeff] ++
     (if (1 <? width)%Z
      then [SampleDirichlet (Py.replicate prob_coeff width)] else []) ++
     repeat Distort calls)%list /\
    tape w' =
    (tape w + 1 + (if (1 <? width)%Z then 1 else 0) + calls)%nat /\
    heap w' = heap w /\ next_ref w' = next_ref w.
Proof.
  intros Hd Himg calls.
  destruct (augment_and_mix_run rt image depth width prob_coeff w Himg)
    as (out & Hrun & _); [lia|].
  assert (Hcells :
    cells_between (chain_length rt w depth width) 0 (Z.to_nat width) = calls).
  { rewrite cells_between_from_zero.
    apply cells_before_const. intros j Hj. now apply chain_length_fixed. }
  exists out. eexists. split; [exact Hrun|].
  cbn [trace tape heap next_ref advance].
  unfold mix_events, mix_cells, sample_cells. rewrite Hcells.
  assert (Hneg : (depth <? 0)%Z = false) by (apply Z.ltb_ge; lia).
  rewrite Hneg. cbn [app].
  repeat split. destruct (1 <? width)%Z; lia.
Qed.

Lemma augment_and_mix_fixed_depth_effects_witness :
  exists out w',
    augment_and_mix toy_runtime gray_image 2 3 1 float32 empty_world =
    (inr out, w') /\
    tape w' = 8%nat.
Proof.
  destruct (augment_and_mix_fixed_depth_effects
              toy_runtime gray_image 2 3 1 empty_world)
    as (out & w' & Hrun & _ & Htape & _).
  - lia.
  - exists [32; 32]%nat. reflexivity.
  - exists out, w'. split; [exact Hrun | exact Htape].
Defined.

(** A sampled depth needs a [width] that is not negative: with
    [depth < 0] and [width < 0] the uniform sampler rejects its size and
    [augment_and_mix] fails after the Beta sample. *)
Theorem augment_and_mix_rejects_negative_width
        (rt : runtime) (image : tensor) (depth width : Z) (prob_coeff : Q)
        (d : dtype) (w : world) :
  (depth < 0)%Z -> (width < 0)%Z ->
  augment_and_mix rt image depth width prob_coeff d w =
  (inl ShapeMismatch, advance 1 [SampleBeta prob_coeff prob_coeff] w).
Proof.
  intros Hd Hw. unfold augment_and_mix.
  rewrite (bind_run _ _ _ _ _ (sample_beta_run _ _ _ w)).
  assert (H1 : (1 <? width)%Z = false) by (apply Z.ltb_ge; lia).
  rewrite H1. rewrite (bind_run _ _ _ _ _ (ret_run _ _)).
  apply Z.ltb_lt in Hd. rewrite Hd.
  apply bind_raise. apply random_uniform_rejects. exact Hw.
Qed.

Lemma augment_and_mix_rejects_negative_width_witness :
  augment_and_mix toy_runtime gray_image (-1) (-2) 1 float32 empty_world =
  (inl ShapeMismatch, advance 1 [SampleBeta 1 1] empty_world).
Proof.
  apply (augment_and_mix_rejects_negative_width
           toy_runtime gray_image (-1) (-2) 1 float32 empty_world); lia.
Defined.

(** In every dtype other than [float32], [bfloat16] included,
    [augment_and_mix] fails with a dtype error, in the first branch or,
    without a branch, at the normalization of the original image. *)
Theorem augment_and_mix_rejects_other_dtypes
        (rt : runtime) (image : tensor) (depth width : Z) (prob_coeff : Q)
        (d : dtype) (w : world) :
  d <> float32 ->
  ((depth < 0)%Z -> (0 <= width)%Z) ->
  exists w',
    augment_and_mix rt image depth width prob_coeff d w =
    (inl DtypeMismatch, w').
Proof.
  intros Hd Hwidth. unfold augment_and_mix.
  rewrite (bind_run _ _ _ _ _ (sample_beta_run _ _ _ w)).
  set (w1 := advance 1 [SampleBeta prob_coeff prob_coeff] w).
  assert (Hbw : exists bw w2,
    (if (1 <? width)%Z
     then sample_dirichlet rt (Py.replicate prob_coeff width)
     else ret [1]) w1 = (inr bw, w2)).
  { destruct (1 <? width)%Z.
    - eexists. eexists. apply sample_dirichlet_run.
    - eexists. eexists. reflexivity. }
  destruct Hbw as (bw & w2 & Hbw).
  rewrite (bind_run _ _ _ _ _ Hbw).
  assert (Hds : exists ds w3,
    (if (depth <? 0)%Z
     then random_uniform rt width 1 4
     else ret (Py.replicate depth width)) w2 = (inr ds, w3)).
  { destruct (depth <? 0)%Z eqn:E.
    - eexists. eexists. apply random_uniform_run.
      apply Hwidth. now apply Z.ltb_lt.
    - eexists. eexists. reflexivity. }
  destruct Hds as (ds & w3 & Hds).
  rewrite (bind_run _ _ _ _ _ Hds).
  unfold Py.range. destruct (Z.to_nat width) as [|n].
  - cbn [seq forM].
    rewrite (bind_run _ _ _ _ _ (ret_run _ _)).
    destruct (binary_op_scalar Qmult (beta_at rt (tape w) prob_coeff
                                              prob_coeff)
                               _ _ _ (zeros_entries image))
      as (mixed & Hmixed & _).
    rewrite (bind_run _ _ _ _ _ (lift_run _ _ _ Hmixed)).
    eexists. apply bind_raise. apply lift_raise.
    now apply normalize_dtype_mismatch.
  - cbn [seq forM].
    eexists. apply bind_raise. apply bind_raise.
    rewrite (bind_run _ _ _ _ _ (chain_run rt _ _ _)).
    apply bind_raise. apply lift_raise.
    now apply normalize_dtype_mismatch.
Qed.

Lemma augment_and_mix_rejects_other_dtypes_witness :
  exists w',
    augment_and_mix toy_runtime gray_image 1 2 1 bfloat16 empty_world =
    (inl DtypeMismatch, w').
Proof.
  apply (augment_and_mix_rejects_other_dtypes
           toy_runtime gray_image 1 2 1 bfloat16 empty_world).
  - discriminate.
  - lia.
Defined.
